(** * Spotify-GitHub-Status: the synchronisation loop of [spotifygithub.py]

    A shallow embedding of [update_env_file], [refresh_access_token],
    [get_current_playing], [set_github_status] and [main], and the
    properties of the loop that follow from it.

    Conventions.
    - Python values that come out of [r.json()] are values of [json]; Python's
      [None] is [JNull].  JSON numbers are integers, as in the schemas of the
      three HTTP APIs.
    - [datetime] values are integers, microseconds since 1970-01-01T00:00:00
      on one time line; a [timedelta] is a number of microseconds.  Where the
      code builds a [timedelta] and adds it to the clock reading (lines 102
      and 137), the limits of [timedelta] and of [datetime] (years 1 to 9999)
      are checked and [OverflowError] is raised as Python raises it.  The
      comparison of line 203 subtracts its 60 seconds on the integers: that
      subtraction leaves the range of [datetime] only for a token that
      expires in the first minute of year 1.
    - Python [float] arithmetic, [str()] of a value that is not a string and
      [==] between containers are operations of an abstract [PyRuntime].
    - Everything outside the process (the three HTTP endpoints, the wall
      clock, the [.env] file) is part of [world]; the answers of the
      endpoints and the readings of the clock are arbitrary sequences.
    - The [.env] file is a text file on a POSIX system: read in text mode
      with universal newlines (CR LF and CR arrive as LF), written as it is.
      [open(ENV_PATH, 'w')] empties the file; a write that fails after it
      leaves a prefix of the new text.
    - [KeyboardInterrupt] is asynchronous and is left out: the runs described
      are those in which no interrupt is delivered.  Logging is left out. *)

From Stdlib Require Import ZArith List String Ascii Bool Lia Floats DecimalString.
Import ListNotations.
Set Warnings "-register-all".
Local Open Scope string_scope.
Local Open Scope Z_scope.

(** ** Python values *)

Inductive json : Type :=
| JNull
| JBool (b : bool)
| JNum (n : Z)
| JStr (s : string)
| JArr (xs : list json)
| JObj (kvs : list (string * json)).

(** [bool(x)]: the truth value Python gives to [x] in [if x] and [not x]. *)
Definition truthy (x : json) : bool :=
  match x with
  | JNull => false
  | JBool b => b
  | JNum n => negb (n =? 0)
  | JStr s => negb (s =? EmptyString)%string
  | JArr xs => match xs with [] => false | _ => true end
  | JObj kvs => match kvs with [] => false | _ => true end
  end.

(** The items of a dict, looked up by key. *)
Fixpoint dict_lookup (k : string) (kvs : list (string * json)) : option json :=
  match kvs with
  | [] => None
  | (k', v) :: rest => if (k =? k')%string then Some v else dict_lookup k rest
  end.

(** An [int] operand: [bool] is a subclass of [int] in Python. *)
Definition as_int (x : json) : option Z :=
  match x with
  | JNum n => Some n
  | JBool b => Some (if b then 1 else 0)
  | _ => None
  end.

(** ** Strings and the text of the [.env] file *)

Definition newline : ascii := "010"%char.
Definition nul : ascii := "000"%char.
Definition carriage_return : ascii := "013"%char.

Definition startswith (s p : string) : bool := String.prefix p s.

Fixpoint contains_char (c : ascii) (s : string) : bool :=
  match s with
  | EmptyString => false
  | String c' rest => if Ascii.eqb c c' then true else contains_char c rest
  end.

(** [needle in haystack] for two strings. *)
Fixpoint contains_substring (needle haystack : string) : bool :=
  if String.prefix needle haystack then true
  else match haystack with
       | EmptyString => false
       | String _ rest => contains_substring needle rest
       end.

(** What a file opened with [open(path, 'r')] hands to its reader: text mode
    with universal newlines turns CR LF and a lone CR into LF. *)
Fixpoint universal_newlines (raw : string) : string :=
  match raw with
  | EmptyString => EmptyString
  | String c rest =>
      if Ascii.eqb c carriage_return then
        match rest with
        | EmptyString => String newline EmptyString
        | String d rest' =>
            if Ascii.eqb d newline then String newline (universal_newlines rest')
            else String newline (universal_newlines rest)
        end
      else String c (universal_newlines rest)
  end.

(** [file.readlines()] on the text the file hands over: the text is cut after
    every LF, and every line keeps its LF. *)
Fixpoint readlines (text : string) : list string :=
  match text with
  | EmptyString => []
  | String c rest =>
      if Ascii.eqb c newline then String c EmptyString :: readlines rest
      else match readlines rest with
           | [] => [String c EmptyString]
           | l :: ls => String c l :: ls
           end
  end.

(** [file.writelines(lines)] writes the strings one after the other. *)
Definition writelines (lines : list string) : string := String.concat EmptyString lines.

(** The [for i, line in enumerate(lines)] loop of [update_env_file]: the first
    line that starts with [prefix] is replaced by [entry] and the loop breaks;
    the boolean is the flag [updated]. *)
Fixpoint patch_first (prefix entry : string) (lines : list string)
  : list string * bool :=
  match lines with
  | [] => ([], false)
  | line :: rest =>
      if startswith line prefix then (entry :: rest, true)
      else let (rest', updated) := patch_first prefix entry rest in
           (line :: rest', updated)
  end.

(** The first line that starts with [prefix]: the line [update_env_file]
    takes for the entry of a key. *)
Fixpoint find_line (prefix : string) (lines : list string) : option string :=
  match lines with
  | [] => None
  | line :: rest => if startswith line prefix then Some line else find_line prefix rest
  end.

(** The entry of [key] in the [.env] file that holds [text], as
    [update_env_file] reads it. *)
Definition env_entry (key text : string) : option string :=
  find_line (key ++ "=") (readlines (universal_newlines text)).

(** No LF and no CR: the string stays on its line when the file is read. *)
Definition single_line (s : string) : bool :=
  negb (contains_char newline s) && negb (contains_char carriage_return s).

(** A line with its line break: one line break, at the end. *)
Fixpoint full_line (l : string) : bool :=
  match l with
  | EmptyString => false
  | String c rest =>
      if Ascii.eqb c newline then (rest =? EmptyString)%string else full_line rest
  end.

(** A last line without a line break. *)
Definition partial_line (l : string) : bool :=
  match l with
  | EmptyString => false
  | String _ _ => negb (contains_char newline l)
  end.

(** The lists [readlines] returns: full lines, the last one possibly partial. *)
Fixpoint proper_lines (lines : list string) : bool :=
  match lines with
  | [] => true
  | l :: rest =>
      match rest with
      | [] => full_line l || partial_line l
      | _ :: _ => full_line l && proper_lines rest
      end
  end.

(** The text is empty or ends with a line break. *)
Fixpoint terminated (text : string) : bool :=
  match text with
  | EmptyString => true
  | String c rest =>
      match rest with
      | EmptyString => Ascii.eqb c newline
      | String _ _ => terminated rest
      end
  end.

(** ** The Python runtime *)

(** What the program uses of Python and is not determined by the source:
    [repr_value] is [str(x)] for [x] that is not a string, [container_eq] is
    [==] between two lists or two dicts, [pyfloat] is the type [float] with
    [x * n] and [min(x, n)] for an [int] [n], and [sleep_accepts d] tells
    whether [time.sleep(d)] accepts its argument (it raises [ValueError] on a
    negative number or a NaN, and [OverflowError] on a wait too long for the
    platform; the model raises an [Exception] named [ValueError] for both). *)
Class PyRuntime : Type := {
  repr_value : json -> string;
  container_eq : json -> json -> bool;
  pyfloat : Type;
  float_mul_int : pyfloat -> Z -> pyfloat;
  min_float_int : pyfloat -> Z -> pyfloat;
  sleep_accepts : pyfloat -> bool
}.

Section Program.

Context {RT : PyRuntime}.

(** [str(x)], as in an f-string. *)
Definition py_str (x : json) : string :=
  match x with
  | JStr s => s
  | _ => repr_value x
  end.

(** [x == y]. *)
Definition py_eq (x y : json) : bool :=
  match x, y with
  | JNull, JNull => true
  | JStr a, JStr b => (a =? b)%string
  | JArr _, JArr _ => container_eq x y
  | JObj _, JObj _ => container_eq x y
  | JNull, _ | _, JNull => false
  | JStr _, _ | _, JStr _ => false
  | JArr _, _ | _, JArr _ => false
  | JObj _, _ | _, JObj _ => false
  | _, _ => match as_int x, as_int y with
            | Some a, Some b => a =? b
            | _, _ => false
            end
  end.

(** ** Configuration: the module constants read from the environment *)

Record config : Type := {
  POLL_INTERVAL : pyfloat;
  STATUS_PREFIX : string;
  CLEAR_STATUS_WHEN_IDLE : bool
}.

(** ** The world *)

Record response : Type := {
  status_code : Z;
  json_body : option json      (* [None]: [r.json()] raises *)
}.

Inductive http_outcome : Type :=
| HttpRaises                    (* [requests] raises: no connection, timeout *)
| HttpResponse (r : response).

Inductive event : Type :=
| TokenRequest (refresh_token : json)
| EnvWrite (text : string)
| PlayerRequest (access_token : json)
| GithubRequest (message : option string) (expiresAt : option Z)
| Sleep (seconds : pyfloat).

(** The local variables of [main]. *)
Record frame : Type := {
  access_token : json;
  expires_at_token : Z;
  last_status : option string;
  consecutive_failures : Z;
  status_message : option string;
  status_expires : option Z
}.

Record world : Type := {
  SPOTIFY_REFRESH_TOKEN : json;          (* the module global *)
  env_file : option string;              (* the text of [.env]; [None]: no file *)
  env_readable : bool;                   (* [open(ENV_PATH, 'r')] and the read
                                            succeed *)
  env_writable : bool;                   (* [open(ENV_PATH, 'w')] succeeds *)
  env_write_cut : option nat;            (* [Some k]: [writelines] fails after
                                            [k] characters *)
  os_environ : list (string * string);
  token_endpoint : nat -> http_outcome;  (* the answer to the n-th request *)
  token_requests : nat;
  player_endpoint : nat -> http_outcome;
  player_requests : nat;
  github_endpoint : nat -> http_outcome;
  github_requests : nat;
  clock : nat -> Z;                      (* the n-th reading of the clock *)
  clock_reads : nat;
  trace : list event;                    (* oldest first *)
  locals : frame
}.

Definition with_refresh_token (v : json) (w : world) : world :=
  {| SPOTIFY_REFRESH_TOKEN := v; env_file := env_file w;
     env_readable := env_readable w; env_writable := env_writable w;
     env_write_cut := env_write_cut w;
     os_environ := os_environ w;
     token_endpoint := token_endpoint w; token_requests := token_requests w;
     player_endpoint := player_endpoint w; player_requests := player_requests w;
     github_endpoint := github_endpoint w; github_requests := github_requests w;
     clock := clock w; clock_reads := clock_reads w;
     trace := trace w; locals := locals w |}.

Definition with_env_file (text : string) (w : world) : world :=
  {| SPOTIFY_REFRESH_TOKEN := SPOTIFY_REFRESH_TOKEN w; env_file := Some text;
     env_readable := env_readable w; env_writable := env_writable w;
     env_write_cut := env_write_cut w;
     os_environ := os_environ w;
     token_endpoint := token_endpoint w; token_requests := token_requests w;
     player_endpoint := player_endpoint w; player_requests := player_requests w;
     github_endpoint := github_endpoint w; github_requests := github_requests w;
     clock := clock w; clock_reads := clock_reads w;
     trace := trace w ++ [EnvWrite text]; locals := locals w |}.

Definition with_os_environ (key value : string) (w : world) : world :=
  {| SPOTIFY_REFRESH_TOKEN := SPOTIFY_REFRESH_TOKEN w; env_file := env_file w;
     env_readable := env_readable w; env_writable := env_writable w;
     env_write_cut := env_write_cut w;
     os_environ := (key, value) :: os_environ w;
     token_endpoint := token_endpoint w; token_requests := token_requests w;
     player_endpoint := player_endpoint w; player_requests := player_requests w;
     github_endpoint := github_endpoint w; github_requests := github_requests w;
     clock := clock w; clock_reads := clock_reads w;
     trace := trace w; locals := locals w |}.

Definition with_token_request (ev : event) (w : world) : world :=
  {| SPOTIFY_REFRESH_TOKEN := SPOTIFY_REFRESH_TOKEN w; env_file := env_file w;
     env_readable := env_readable w; env_writable := env_writable w;
     env_write_cut := env_write_cut w;
     os_environ := os_environ w;
     token_endpoint := token_endpoint w; token_requests := S (token_requests w);
     player_endpoint := player_endpoint w; player_requests := player_requests w;
     github_endpoint := github_endpoint w; github_requests := github_requests w;
     clock := clock w; clock_reads := clock_reads w;
     trace := trace w ++ [ev]; locals := locals w |}.

Definition with_player_request (ev : event) (w : world) : world :=
  {| SPOTIFY_REFRESH_TOKEN := SPOTIFY_REFRESH_TOKEN w; env_file := env_file w;
     env_readable := env_readable w; env_writable := env_writable w;
     env_write_cut := env_write_cut w;
     os_environ := os_environ w;
     token_endpoint := token_endpoint w; token_requests := token_requests w;
     player_endpoint := player_endpoint w; player_requests := S (player_requests w);
     github_endpoint := github_endpoint w; github_requests := github_requests w;
     clock := clock w; clock_reads := clock_reads w;
     trace := trace w ++ [ev]; locals := locals w |}.

Definition with_github_request (ev : event) (w : world) : world :=
  {| SPOTIFY_REFRESH_TOKEN := SPOTIFY_REFRESH_TOKEN w; env_file := env_file w;
     env_readable := env_readable w; env_writable := env_writable w;
     env_write_cut := env_write_cut w;
     os_environ := os_environ w;
     token_endpoint := token_endpoint w; token_requests := token_requests w;
     player_endpoint := player_endpoint w; player_requests := player_requests w;
     github_endpoint := github_endpoint w; github_requests := S (github_requests w);
     clock := clock w; clock_reads := clock_reads w;
     trace := trace w ++ [ev]; locals := locals w |}.

Definition with_clock_read (w : world) : world :=
  {| SPOTIFY_REFRESH_TOKEN := SPOTIFY_REFRESH_TOKEN w; env_file := env_file w;
     env_readable := env_readable w; env_writable := env_writable w;
     env_write_cut := env_write_cut w;
     os_environ := os_environ w;
     token_endpoint := token_endpoint w; token_requests := token_requests w;
     player_endpoint := player_endpoint w; player_requests := player_requests w;
     github_endpoint := github_endpoint w; github_requests := github_requests w;
     clock := clock w; clock_reads := S (clock_reads w);
     trace := trace w; locals := locals w |}.

Definition with_event (ev : event) (w : world) : world :=
  {| SPOTIFY_REFRESH_TOKEN := SPOTIFY_REFRESH_TOKEN w; env_file := env_file w;
     env_readable := env_readable w; env_writable := env_writable w;
     env_write_cut := env_write_cut w;
     os_environ := os_environ w;
     token_endpoint := token_endpoint w; token_requests := token_requests w;
     player_endpoint := player_endpoint w; player_requests := player_requests w;
     github_endpoint := github_endpoint w; github_requests := github_requests w;
     clock := clock w; clock_reads := clock_reads w;
     trace := trace w ++ [ev]; locals := locals w |}.

Definition with_locals (f : frame) (w : world) : world :=
  {| SPOTIFY_REFRESH_TOKEN := SPOTIFY_REFRESH_TOKEN w; env_file := env_file w;
     env_readable := env_readable w; env_writable := env_writable w;
     env_write_cut := env_write_cut w;
     os_environ := os_environ w;
     token_endpoint := token_endpoint w; token_requests := token_requests w;
     player_endpoint := player_endpoint w; player_requests := player_requests w;
     github_endpoint := github_endpoint w; github_requests := github_requests w;
     clock := clock w; clock_reads := clock_reads w;
     trace := trace w; locals := f |}.

(** ** Computations: state and exceptions *)

Inductive exn : Type :=
| PyException (name : string)   (* any instance of [Exception] *)
| SystemExit (code : Z).        (* raised by [sys.exit]; not an [Exception] *)

Inductive result (A : Type) : Type :=
| Return (a : A)
| Raise (e : exn).
#[global] Arguments Return {A} a.
#[global] Arguments Raise {A} e.

Definition M (A : Type) : Type := world -> result A * world.

Definition ret {A} (a : A) : M A := fun w => (Return a, w).

Definition bind {A B} (c : M A) (k : A -> M B) : M B :=
  fun w => match c w with
           | (Return a, w') => k a w'
           | (Raise e, w') => (Raise e, w')
           end.

Definition raise {A} (e : exn) : M A := fun w => (Raise e, w).

(** [try: body / except Exception: handler]. *)
Definition try_except {A} (body : M A) (handler : M A) : M A :=
  fun w => match body w with
           | (Raise (PyException _), w') => handler w'
           | other => other
           end.

Notation "x <- c ;; k" := (bind c (fun x => k))
  (at level 61, c at next level, right associativity).
Notation "c ;;; k" := (bind c (fun _ => k))
  (at level 61, right associativity).

(** *** What the process can do to the world *)

Definition get_locals : M frame := fun w => (Return (locals w), w).
Definition set_locals (f : frame) : M unit := fun w => (Return tt, with_locals f w).

Definition get_refresh_token : M json :=
  fun w => (Return (SPOTIFY_REFRESH_TOKEN w), w).
Definition set_refresh_token (v : json) : M unit :=
  fun w => (Return tt, with_refresh_token v w).

(** [datetime.utcnow()] and [datetime.now(timezone.utc)]. *)
Definition utcnow : M Z :=
  fun w => (Return (clock w (clock_reads w)), with_clock_read w).

Definition time_sleep (d : pyfloat) : M unit :=
  fun w => if sleep_accepts d then (Return tt, with_event (Sleep d) w)
           else (Raise (PyException "ValueError"), w).

Definition sys_exit {A} (code : Z) : M A := raise (SystemExit code).

Definition os_path_exists : M bool :=
  fun w => (Return (match env_file w with Some _ => true | None => false end), w).

(** [with open(ENV_PATH, 'r') as file: lines = file.readlines()]. *)
Definition read_env_lines : M (list string) :=
  fun w => match env_file w with
           | Some text => if env_readable w
                          then (Return (readlines (universal_newlines text)), w)
                          else (Raise (PyException "OSError"), w)
           | None => (Raise (PyException "FileNotFoundError"), w)
           end.

(** [with open(ENV_PATH, 'w') as file: file.writelines(lines)].  [open]
    empties the file before anything is written: a write that fails after it
    leaves the characters that reached the file, and the exception of the
    write leaves the [with] block. *)
Definition write_env_lines (lines : list string) : M unit :=
  fun w => if env_writable w then
             match env_write_cut w with
             | None => (Return tt, with_env_file (writelines lines) w)
             | Some k =>
                 (Raise (PyException "OSError"),
                  with_env_file (String.substring 0 k (writelines lines)) w)
             end
           else (Raise (PyException "OSError"), w).

(** The names [os.putenv] takes: not empty, without ["="] and without NUL. *)
Definition legal_variable_name (key : string) : bool :=
  negb (key =? EmptyString)%string
  && negb (contains_char "="%char key)
  && negb (contains_char nul key).

(** [os.environ[key] = value]: the value has to be a string ([TypeError]),
    the name has to be legal and neither may hold a NUL ([ValueError]). *)
Definition os_environ_set (key : string) (value : json) : M unit :=
  match value with
  | JStr s => if legal_variable_name key && negb (contains_char nul s)
              then fun w => (Return tt, with_os_environ key s w)
              else raise (PyException "ValueError")
  | _ => raise (PyException "TypeError")
  end.

Definition of_outcome (o : http_outcome) (w : world) : result response * world :=
  match o with
  | HttpRaises => (Raise (PyException "RequestException"), w)
  | HttpResponse r => (Return r, w)
  end.

Definition requests_post_token (refresh_token : json) : M response :=
  fun w => of_outcome (token_endpoint w (token_requests w))
                      (with_token_request (TokenRequest refresh_token) w).

Definition requests_get_player (token : json) : M response :=
  fun w => of_outcome (player_endpoint w (player_requests w))
                      (with_player_request (PlayerRequest token) w).

Definition requests_post_github (message : option string) (expiresAt : option Z)
  : M response :=
  fun w => of_outcome (github_endpoint w (github_requests w))
                      (with_github_request (GithubRequest message expiresAt) w).

(** [r.json()]. *)
Definition r_json (r : response) : M json :=
  match json_body r with
  | Some v => ret v
  | None => raise (PyException "JSONDecodeError")
  end.

(** [data.get(key, default)]: only a dict has [get]. *)
Definition py_get (data : json) (key : string) (default : json) : M json :=
  match data with
  | JObj kvs => ret (match dict_lookup key kvs with Some v => v | None => default end)
  | _ => raise (PyException "AttributeError")
  end.

(** [data[key]] for a string [key]. *)
Definition py_subscript (data : json) (key : string) : M json :=
  match data with
  | JObj kvs => match dict_lookup key kvs with
                | Some v => ret v
                | None => raise (PyException "KeyError")
                end
  | _ => raise (PyException "TypeError")
  end.

(** [a - b]. *)
Definition py_sub (a b : json) : M Z :=
  match as_int a, as_int b with
  | Some x, Some y => ret (x - y)
  | _, _ => raise (PyException "TypeError")
  end.

(** The values [for a in x] runs through. *)
Definition py_iter (x : json) : M (list json) :=
  match x with
  | JArr xs => ret xs
  | JObj kvs => ret (map (fun kv => JStr (fst kv)) kvs)
  | JStr s => ret (map (fun c => JStr (String c EmptyString)) (list_ascii_of_string s))
  | _ => raise (PyException "TypeError")
  end.

(** [key in x] for a string [key]. *)
Definition py_in (key : string) (x : json) : M bool :=
  match x with
  | JObj kvs => ret (match dict_lookup key kvs with Some _ => true | None => false end)
  | JArr xs => ret (existsb (py_eq (JStr key)) xs)
  | JStr s => ret (contains_substring key s)
  | _ => raise (PyException "TypeError")
  end.

(** The first and the last value of [datetime]: [datetime.min] is day 1 of
    year 1, 719162 days before 1970-01-01, and [datetime.max] is the last
    microsecond of year 9999, 2932897 days after 1970-01-01. *)
Definition DATETIME_MIN : Z := -719162 * 86400000000.
Definition DATETIME_MAX : Z := 2932897 * 86400000000 - 1.

Definition datetime_in_range (t : Z) : bool :=
  (DATETIME_MIN <=? t) && (t <=? DATETIME_MAX).

(** The values of [timedelta]: the number of whole days, rounded down, is
    between -999999999 and 999999999. *)
Definition timedelta_in_range (micro : Z) : bool :=
  (-999999999 <=? micro / 86400000000) && (micro / 86400000000 <=? 999999999).

(** [timedelta(microseconds=micro)] for an [int]. *)
Definition timedelta (micro : Z) : M Z :=
  if timedelta_in_range micro then ret micro
  else raise (PyException "OverflowError").

(** [timedelta(seconds=x)]. *)
Definition timedelta_seconds (x : json) : M Z :=
  match as_int x with
  | Some n => timedelta (n * 1000000)
  | None => raise (PyException "TypeError")
  end.

(** [timedelta(milliseconds=n)] for an [int]. *)
Definition timedelta_milliseconds (n : Z) : M Z := timedelta (n * 1000).

(** [t + d] for a [datetime] and a [timedelta]. *)
Definition datetime_add (t d : Z) : M Z :=
  if datetime_in_range (t + d) then ret (t + d)
  else raise (PyException "OverflowError").

(** ** [update_env_file] *)

Definition update_env_file (key : string) (value : json) : M bool :=
  try_except
    (present <- os_path_exists ;;
     if present then
       lines <- read_env_lines ;;
       let entry := key ++ "=" ++ py_str value ++ String newline EmptyString in
       let (lines', updated) := patch_first (key ++ "=") entry lines in
       let lines'' := if updated then lines' else (lines' ++ [entry])%list in
       write_env_lines lines'' ;;;
       os_environ_set key value ;;;
       ret true
     else ret false)
    (ret false).

(** ** [refresh_access_token] *)

Record token_data : Type := {
  td_access_token : json;
  td_expires_at : Z
}.

Definition refresh_access_token : M (option token_data) :=
  payload_refresh_token <- get_refresh_token ;;
  try_except
    (r <- requests_post_token payload_refresh_token ;;
     if negb (status_code r =? 200) then
       if status_code r =? 400 then
         error_data <- r_json r ;;
         err <- py_get error_data "error" JNull ;;
         if py_eq err (JStr "invalid_grant") then ret None
         else ret None
       else ret None
     else
       data <- r_json r ;;
       access <- py_get data "access_token" JNull ;;
       expires_in <- py_get data "expires_in" (JNum 3600) ;;
       new_refresh_token <- py_get data "refresh_token" JNull ;;
       current <- get_refresh_token ;;
       (if truthy new_refresh_token && negb (py_eq new_refresh_token current) then
          saved <- update_env_file "SPOTIFY_REFRESH_TOKEN" new_refresh_token ;;
          if saved then set_refresh_token new_refresh_token
          else set_refresh_token new_refresh_token
        else ret tt) ;;;
       now <- utcnow ;;
       delta <- timedelta_seconds expires_in ;;
       expires_at <- datetime_add now delta ;;
       ret (Some {| td_access_token := access; td_expires_at := expires_at |}))
    (ret None).

(** ** [get_current_playing] *)

Inductive track_info : Type :=
| NoTrack                                      (* [None] *)
| TOKEN_EXPIRED                                (* the string ["TOKEN_EXPIRED"] *)
| Track (message : string) (expires_at : Z).   (* the dict *)

(** [", ".join(a["name"] for a in artists)]. *)
Fixpoint artist_names (artists : list json) : M (list string) :=
  match artists with
  | [] => ret []
  | a :: rest =>
      name <- py_subscript a "name" ;;
      match name with
      | JStr s => names <- artist_names rest ;; ret (s :: names)
      | _ => raise (PyException "TypeError")
      end
  end.

Definition get_current_playing (cfg : config) (token : json) : M track_info :=
  try_except
    (r <- requests_get_player token ;;
     if status_code r =? 204 then ret NoTrack
     else if status_code r =? 401 then ret TOKEN_EXPIRED
     else if negb (status_code r =? 200) then ret NoTrack
     else
       data <- r_json r ;;
       item <- py_get data "item" JNull ;;
       if negb (truthy item) then ret NoTrack
       else
         playing <- py_get data "is_playing" (JBool false) ;;
         if negb (truthy playing) then ret NoTrack
         else
           item <- py_subscript data "item" ;;
           name <- py_subscript item "name" ;;
           artists_value <- py_subscript item "artists" ;;
           artists_list <- py_iter artists_value ;;
           names <- artist_names artists_list ;;
           let artists := String.concat ", " names in
           let message := STATUS_PREFIX cfg ++ py_str name ++ " by " ++ artists in
           progress_ms <- py_get data "progress_ms" (JNum 0) ;;
           duration_ms <- py_get item "duration_ms" (JNum 0) ;;
           difference <- py_sub duration_ms progress_ms ;;
           let remaining_ms := Z.max difference 0 in
           now <- utcnow ;;
           delta <- timedelta_milliseconds remaining_ms ;;
           expires_at <- datetime_add now delta ;;
           ret (Track message expires_at))
    (ret NoTrack).

(** ** [set_github_status] *)

Definition set_github_status (message : option string) (expires_at : option Z)
  : M bool :=
  try_except
    (let expiresAt := match message with
                      | None => None
                      | Some _ => expires_at
                      end in
     r <- requests_post_github message expiresAt ;;
     if negb (status_code r =? 200) then ret false
     else
       response_data <- r_json r ;;
       has_errors <- py_in "errors" response_data ;;
       if has_errors then ret false
       else ret true)
    (ret false).

(** ** [main] *)

Definition max_failures : Z := 5.

Definition option_string_eqb (a b : option string) : bool :=
  match a, b with
  | None, None => true
  | Some x, Some y => (x =? y)%string
  | _, _ => false
  end.

Definition set_access_token (v : json) (f : frame) : frame :=
  {| access_token := v; expires_at_token := expires_at_token f;
     last_status := last_status f; consecutive_failures := consecutive_failures f;
     status_message := status_message f; status_expires := status_expires f |}.

Definition set_credential (td : token_data) (f : frame) : frame :=
  {| access_token := td_access_token td; expires_at_token := td_expires_at td;
     last_status := last_status f; consecutive_failures := 0;
     status_message := status_message f; status_expires := status_expires f |}.

Definition set_last_status (v : option string) (f : frame) : frame :=
  {| access_token := access_token f; expires_at_token := expires_at_token f;
     last_status := v; consecutive_failures := consecutive_failures f;
     status_message := status_message f; status_expires := status_expires f |}.

Definition set_consecutive_failures (n : Z) (f : frame) : frame :=
  {| access_token := access_token f; expires_at_token := expires_at_token f;
     last_status := last_status f; consecutive_failures := n;
     status_message := status_message f; status_expires := status_expires f |}.

Definition set_candidate (m : option string) (e : option Z) (f : frame) : frame :=
  {| access_token := access_token f; expires_at_token := expires_at_token f;
     last_status := last_status f; consecutive_failures := consecutive_failures f;
     status_message := m; status_expires := e |}.

Definition modify_locals (g : frame -> frame) : M unit :=
  f <- get_locals ;; set_locals (g f).

(** The locals before the loop (lines 192-196); [status_message] and
    [status_expires] are not bound yet and are written before they are read. *)
Definition main_init : M unit :=
  now <- utcnow ;;
  set_locals {| access_token := JNull; expires_at_token := now;
                last_status := None; consecutive_failures := 0;
                status_message := None; status_expires := None |}.

(** [timedelta(seconds=60)], in microseconds. *)
Definition safety_margin : Z := 60 * 1000000.

(** The test of line 203:
    [not access_token or datetime.utcnow() >= expires_at_token - timedelta(seconds=60)]. *)
Definition token_stale : M bool :=
  f <- get_locals ;;
  if negb (truthy (access_token f)) then ret true
  else now <- utcnow ;; ret (expires_at_token f - safety_margin <=? now).

(** Lines 238-245: the comparison with [last_status], the publication and the
    sleep that ends the iteration. *)
Definition main_publish (cfg : config) : M unit :=
  f <- get_locals ;;
  (if negb (option_string_eqb (status_message f) (last_status f)) then
     if match status_message f with None => true | Some _ => false end
        && negb (CLEAR_STATUS_WHEN_IDLE cfg)
     then ret tt
     else
       published <- set_github_status (status_message f) (status_expires f) ;;
       if published then modify_locals (set_last_status (status_message f))
       else ret tt
   else ret tt) ;;;
  time_sleep (POLL_INTERVAL cfg).

(** Lines 224-245. *)
Definition main_poll (cfg : config) : M unit :=
  f <- get_locals ;;
  info <- get_current_playing cfg (access_token f) ;;
  match info with
  | TOKEN_EXPIRED =>
      modify_locals (set_access_token JNull)          (* [continue] *)
  | Track message expires_at =>
      modify_locals (set_candidate (Some message) (Some expires_at)) ;;;
      main_publish cfg
  | NoTrack =>
      modify_locals (set_candidate None None) ;;;
      main_publish cfg
  end.

(** Lines 207-218: [refresh_access_token] returned [None]. *)
Definition main_refresh_failed (cfg : config) : M unit :=
  modify_locals (fun f => set_consecutive_failures (consecutive_failures f + 1) f) ;;;
  f <- get_locals ;;
  if max_failures <=? consecutive_failures f then sys_exit 1
  else
    let wait_time :=
      min_float_int (float_mul_int (POLL_INTERVAL cfg) (consecutive_failures f)) 300 in
    time_sleep wait_time.                             (* [continue] *)

(** The body of the [try] of the loop, lines 203-245. *)
Definition main_iteration (cfg : config) : M unit :=
  stale <- token_stale ;;
  if stale then
    token <- refresh_access_token ;;
    match token with
    | None => main_refresh_failed cfg
    | Some td =>
        modify_locals (set_credential td) ;;;
        main_poll cfg
    end
  else main_poll cfg.

(** One turn of [while True]: the body and its [except Exception] clause. *)
Definition main_step (cfg : config) : M unit :=
  try_except (main_iteration cfg) (time_sleep (POLL_INTERVAL cfg)).

(** The first [n] turns of the loop; an exception that leaves a turn ends it. *)
Fixpoint main_loop (cfg : config) (n : nat) : M unit :=
  match n with
  | O => ret tt
  | S n' => main_step cfg ;;; main_loop cfg n'
  end.

Definition main (cfg : config) (n : nat) : M unit :=
  main_init ;;; main_loop cfg n.

(** The exit status of the process, lines 274-279: [sys.exit(1)] inside
    [main], or an exception that leaves [main]; [None] while the loop runs. *)
Definition exit_status (r : result unit) : option Z :=
  match r with
  | Return _ => None
  | Raise (SystemExit code) => Some code
  | Raise (PyException _) => Some 1
  end.

Definition is_github_request (ev : event) : bool :=
  match ev with GithubRequest _ _ => true | _ => false end.
Definition is_env_write (ev : event) : bool :=
  match ev with EnvWrite _ => true | _ => false end.

(** ** Summaries of the code

    The decisions and the intermediate worlds of the functions above, named
    so that the statements can speak of them; each one is tied to the code
    by an equation proved in the second part. *)

(** The answers on which [set_github_status] returns [True]: status 200 and a
    JSON body in which ["errors" in response_data] is false. *)
Definition github_accepts (o : http_outcome) : bool :=
  match o with
  | HttpRaises => false
  | HttpResponse r =>
      (status_code r =? 200) &&
      match json_body r with
      | Some (JObj kvs) =>
          match dict_lookup "errors" kvs with Some _ => false | None => true end
      | Some (JArr xs) => negb (existsb (py_eq (JStr "errors")) xs)
      | Some (JStr s) => negb (contains_substring "errors" s)
      | _ => false
      end
  end.

(** The answers on which [refresh_access_token] takes the early [return None]
    of lines 75-84, or [requests.post] raises. *)
Definition refresh_rejected (o : http_outcome) : bool :=
  match o with
  | HttpRaises => true
  | HttpResponse r => negb (status_code r =? 200)
  end.

(** The 400 answer with [error=invalid_grant]. *)
Definition invalid_grant_response (kvs : list (string * json)) : http_outcome :=
  HttpResponse {| status_code := 400;
                  json_body := Some (JObj (("error", JStr "invalid_grant") :: kvs)) |}.

(** The world after [get_current_playing]: one request to the player
    endpoint, and one reading of the clock when an expiry was computed. *)
Definition polled (token : json) (w w' : world) : Prop :=
  w' = with_player_request (PlayerRequest token) w \/
  w' = with_clock_read (with_player_request (PlayerRequest token) w).

(** The text [update_env_file] writes over a file that holds [text]. *)
Definition env_text_after (key : string) (value : json) (text : string) : string :=
  let entry := key ++ "=" ++ py_str value ++ String newline EmptyString in
  let (lines', updated) :=
    patch_first (key ++ "=") entry (readlines (universal_newlines text)) in
  writelines (if updated then lines' else (lines' ++ [entry])%list).

(** What a write of [text] leaves in the file. *)
Definition text_written (w : world) (text : string) : string :=
  match env_write_cut w with
  | None => text
  | Some k => String.substring 0 k text
  end.

(** The write of the file is not cut short. *)
Definition write_completes (w : world) : bool :=
  match env_write_cut w with
  | None => true
  | Some _ => false
  end.

(** A duration and the moment it leads to are values of [timedelta] and of
    [datetime]: [now + timedelta(microseconds=micro)] is computed. *)
Definition representable (now micro : Z) : bool :=
  timedelta_in_range micro && datetime_in_range (now + micro).

(** The decision of line 91: the answer carries a refresh token that is not
    the current one. *)
Definition rotates (new_refresh_token current : json) : bool :=
  truthy new_refresh_token && negb (py_eq new_refresh_token current).

Definition field_or (key : string) (kvs : list (string * json)) (default : json)
  : json :=
  match dict_lookup key kvs with Some v => v | None => default end.

(** What [refresh_access_token] leaves alone, and what it adds to the trace:
    its request, then at most writes of the [.env] file. *)
Definition refreshed (w w' : world) : Prop :=
  locals w' = locals w /\
  token_endpoint w' = token_endpoint w /\
  token_requests w' = S (token_requests w) /\
  player_endpoint w' = player_endpoint w /\
  player_requests w' = player_requests w /\
  github_endpoint w' = github_endpoint w /\
  github_requests w' = github_requests w /\
  clock w' = clock w /\
  exists writes,
    trace w' = (trace w ++ TokenRequest (SPOTIFY_REFRESH_TOKEN w) :: writes)%list /\
    forallb is_env_write writes = true.

(** The decision of lines 238-241: the candidate differs from [last_status],
    and it is not an idle candidate that the configuration leaves alone. *)
Definition publish_needed (cfg : config) (f : frame) : bool :=
  negb (option_string_eqb (status_message f) (last_status f)) &&
  negb (match status_message f with None => true | Some _ => false end
        && negb (CLEAR_STATUS_WHEN_IDLE cfg)).

(** The request [set_github_status] sends for the candidate of [f]. *)
Definition publish_request (f : frame) : event :=
  GithubRequest (status_message f)
    (match status_message f with None => None | Some _ => status_expires f end).

(** The world after the test of line 203. *)
Definition after_check (w : world) : world :=
  if truthy (access_token (locals w)) then with_clock_read w else w.

(** The wait of line 214 after [failures] consecutive failures. *)
Definition wait_time (cfg : config) (failures : Z) : pyfloat :=
  min_float_int (float_mul_int (POLL_INTERVAL cfg) failures) 300.

(** ** Runs of the loop *)

(** The worlds at the end of the first [n] turns of the loop, oldest first;
    the list stops at the turn an exception leaves. *)
Fixpoint main_worlds (cfg : config) (n : nat) (w : world) : list world :=
  match n with
  | O => []
  | S n' =>
      let (r, w') := main_step cfg w in
      w' :: match r with
            | Return _ => main_worlds cfg n' w'
            | Raise _ => []
            end
  end.

(** The number of positions of [start :: values] at which the value is not
    the one before it. *)
Fixpoint transitions (start : option string) (values : list (option string)) : nat :=
  match values with
  | [] => O
  | v :: rest =>
      ((if option_string_eqb v start then O else 1%nat) + transitions v rest)%nat
  end.

Definition published_statuses (ws : list world) : list (option string) :=
  map (fun w => last_status (locals w)) ws.

Definition candidate_messages (ws : list world) : list (option string) :=
  map (fun w => status_message (locals w)) ws.

(** The requests sent to the status endpoint so far. *)
Definition github_calls (w : world) : list event :=
  filter is_github_request (trace w).

(** 1 when the two values differ, 0 when they are equal. *)
Definition differ (a b : option string) : nat :=
  if option_string_eqb a b then O else 1%nat.

(** The invariant of a run that starts in [w] and passes through [ws]: the
    changes of [last_status], plus one when the last candidate is not yet
    published, are no more than the changes of the candidate, plus one when
    the run started with a candidate that was not published. *)
Definition debounced (w : world) (ws : list world) : Prop :=
  (transitions (last_status (locals w)) (published_statuses ws)
   + differ (last (published_statuses ws) (last_status (locals w)))
            (last (candidate_messages ws) (status_message (locals w)))
   <= transitions (status_message (locals w)) (candidate_messages ws)
      + differ (last_status (locals w)) (status_message (locals w)))%nat.

(** The test of line 203 on the locals [f] when the clock reads [now]. *)
Definition stale_at (f : frame) (now : Z) : bool :=
  negb (truthy (access_token f)) || (expires_at_token f - safety_margin <=? now).

(** The loop is in its refresh state: the next turn calls
    [refresh_access_token]. *)
Definition needs_refresh (w : world) : bool :=
  stale_at (locals w) (clock w (clock_reads w)).

(** The answer 401 of the player endpoint. *)
Definition unauthorized (o : http_outcome) : Prop :=
  exists body, o = HttpResponse {| status_code := 401; json_body := body |}.

(** The key of line 93. *)
Definition REFRESH_TOKEN_KEY : string := "SPOTIFY_REFRESH_TOKEN".

(** The answer carries the current refresh token again, or none. *)
Definition same_or_no_refresh_token (kvs : list (string * json)) (current : json)
  : Prop :=
  dict_lookup "refresh_token" kvs = None \/
  exists s, dict_lookup "refresh_token" kvs = Some (JStr s) /\ current = JStr s.

(** The credential [refresh_access_token] builds from a 200 answer whose
    [expires_in] is [seconds], when the clock reads [now]. *)
Definition credential (kvs : list (string * json)) (seconds now : Z) : token_data :=
  {| td_access_token := field_or "access_token" kvs JNull;
     td_expires_at := now + seconds * 1000000 |}.

Definition is_sleep (ev : event) : bool :=
  match ev with Sleep _ => true | _ => false end.

(** The waits of the process so far. *)
Definition sleeps (w : world) : list event := filter is_sleep (trace w).

(** ** The script: lines 258-279 *)

(** The settings of the module that the world does not hold: the values
    [os.getenv] gave, [None] for a variable that is not set. *)
Record settings : Type := {
  SPOTIFY_CLIENT_ID : option string;
  SPOTIFY_CLIENT_SECRET : option string;
  GITHUB_TOKEN : option string
}.

(** [not value] for a setting. *)
Definition unset (value : option string) : bool :=
  match value with
  | None => true
  | Some s => (s =? EmptyString)%string
  end.

(** The list [missing] of lines 259-267. *)
Definition missing_settings (st : settings) (refresh_token : json) : list string :=
  ((if unset (SPOTIFY_CLIENT_ID st) then ["SPOTIFY_CLIENT_ID"] else [])
   ++ (if unset (SPOTIFY_CLIENT_SECRET st) then ["SPOTIFY_CLIENT_SECRET"] else [])
   ++ (if negb (truthy refresh_token) then ["SPOTIFY_REFRESH_TOKEN"] else [])
   ++ (if unset (GITHUB_TOKEN st) then ["GITHUB_TOKEN"] else []))%list.

(** The block under [if __name__ == "__main__"], with the loop cut after [n]
    turns. *)
Definition script (st : settings) (cfg : config) (n : nat) : M unit :=
  refresh_token <- get_refresh_token ;;
  match missing_settings st refresh_token with
  | _ :: _ => sys_exit 1
  | [] => try_except (main cfg n) (sys_exit 1)
  end.

(** ** [get_token.py]: lines 141-162, the refresh token is saved *)

(** The [try] block that writes the [.env] file; [True] when the block ends
    without an exception. *)
Definition save_refresh_token (refresh_token : json) : M bool :=
  try_except
    (present <- os_path_exists ;;
     env_lines <- (if present then read_env_lines else ret []) ;;
     let entry := "SPOTIFY_REFRESH_TOKEN=" ++ py_str refresh_token
                  ++ String newline EmptyString in
     let (env_lines', token_updated) :=
       patch_first "SPOTIFY_REFRESH_TOKEN=" entry env_lines in
     let env_lines'' :=
       if token_updated then env_lines' else (env_lines' ++ [entry])%list in
     write_env_lines env_lines'' ;;;
     ret true)
    (ret false).

End Program.

(** ** The answers of the endpoints, as section 6 of the specification gives them *)

(** A 200 answer with a JSON body. *)
Definition ok_response (body : json) : http_outcome :=
  HttpResponse {| status_code := 200; json_body := Some body |}.

(** The integer field [key] is [n], or is missing and [n] is the default 0. *)
Definition int_field (key : string) (kvs : list (string * json)) (n : Z) : Prop :=
  dict_lookup key kvs = Some (JNum n) \/ (dict_lookup key kvs = None /\ n = 0).

(** [{ name }], one element of [artists]. *)
Definition artist_object (a : json) (name : string) : Prop :=
  exists akvs, a = JObj akvs /\ dict_lookup "name" akvs = Some (JStr name).

(** [{ item: { name, artists: [{name}], duration_ms }, progress_ms, is_playing }]
    with a true [is_playing]: something is playing. *)
Definition active_item (kvs : list (string * json)) (name : string)
    (artists : list string) (progress_ms duration_ms : Z) : Prop :=
  exists item arts playing,
    dict_lookup "item" kvs = Some (JObj item) /\
    dict_lookup "is_playing" kvs = Some playing /\ truthy playing = true /\
    dict_lookup "name" item = Some (JStr name) /\
    dict_lookup "artists" item = Some (JArr arts) /\
    Forall2 artist_object arts artists /\
    int_field "progress_ms" kvs progress_ms /\
    int_field "duration_ms" item duration_ms.

(** The token endpoint grants a credential at each of the next [n] requests,
    one per turn: the answer is a 200 with a dict, and its [expires_in] is a
    number of seconds that leads from the clock reading of that turn to a
    value of [datetime]. *)
Definition granted_for {RT : PyRuntime} (n : nat) (w : world) : Prop :=
  forall k, (k < n)%nat ->
    exists kvs seconds,
      token_endpoint w (token_requests w + k) = ok_response (JObj kvs) /\
      as_int (field_or "expires_in" kvs (JNum 3600)) = Some seconds /\
      representable (clock w (clock_reads w + k)) (seconds * 1000000) = true.

(** The player endpoint answers 401 at each of the next [n] requests. *)
Definition unauthorized_for {RT : PyRuntime} (n : nat) (w : world) : Prop :=
  forall k, (k < n)%nat -> unauthorized (player_endpoint w (player_requests w + k)).

(** ** Example worlds *)

(** The runtime of CPython on the values of [json]: [str] and [==] as
    Python computes them, and IEEE 754 binary64 numbers for [float].  It runs
    the model on concrete inputs. *)

(** [str(n)] for an [int]. *)
Definition decimal (n : Z) : string := NilZero.string_of_int (Z.to_int n).

Definition single_quote : ascii := "039"%char.
Definition double_quote : ascii := "034"%char.
Definition backslash : ascii := "092"%char.
Definition tab : ascii := "009"%char.

Definition hex_digit (n : N) : ascii :=
  match String.get (N.to_nat n) "0123456789abcdef" with
  | Some c => c
  | None => "0"%char
  end.

(** One character inside [repr(s)].  A byte above 127 belongs to the UTF-8
    form of a character that is printed as it is. *)
Definition repr_char (quote c : ascii) : string :=
  if Ascii.eqb c backslash then String backslash (String backslash EmptyString)
  else if Ascii.eqb c quote then String backslash (String quote EmptyString)
  else if Ascii.eqb c tab then String backslash "t"
  else if Ascii.eqb c newline then String backslash "n"
  else if Ascii.eqb c carriage_return then String backslash "r"
  else if (N_of_ascii c <? 32)%N || (N_of_ascii c =? 127)%N then
    String backslash
      (String "x" (String (hex_digit (N_of_ascii c / 16))
                     (String (hex_digit (N_of_ascii c mod 16)) EmptyString)))
  else String c EmptyString.

(** [repr(s)] for a string: single quotes, unless the string holds a single
    quote and no double quote. *)
Definition repr_string (s : string) : string :=
  let quote := if contains_char single_quote s && negb (contains_char double_quote s)
               then double_quote else single_quote in
  String quote
    (String.concat EmptyString (map (repr_char quote) (list_ascii_of_string s))
     ++ String quote EmptyString).

(** [repr(x)]; it is [str(x)] when [x] is not a string. *)
Fixpoint python_repr (x : json) : string :=
  match x with
  | JNull => "None"
  | JBool true => "True"
  | JBool false => "False"
  | JNum n => decimal n
  | JStr s => repr_string s
  | JArr xs => "[" ++ String.concat ", " (map python_repr xs) ++ "]"
  | JObj kvs =>
      "{" ++ String.concat ", "
               (map (fun kv => let '(k, v) := kv in
                               repr_string k ++ ": " ++ python_repr v) kvs)
          ++ "}"
  end.

(** [x == y]: lists element by element, dicts key by key, [bool] as [int]. *)
Fixpoint python_eq (x y : json) {struct x} : bool :=
  match x, y with
  | JNull, JNull => true
  | JStr a, JStr b => (a =? b)%string
  | JArr xs, JArr ys =>
      (fix all2 (xs ys : list json) {struct xs} : bool :=
         match xs, ys with
         | [], [] => true
         | x' :: xs', y' :: ys' => python_eq x' y' && all2 xs' ys'
         | _, _ => false
         end) xs ys
  | JObj kvs, JObj kvs' =>
      (List.length kvs =? List.length kvs')%nat
      && forallb (fun kv => let '(k, v) := kv in
                            match dict_lookup k kvs' with
                            | Some v' => python_eq v v'
                            | None => false
                            end) kvs
  | (JNum _ | JBool _), (JNum _ | JBool _) =>
      match as_int x, as_int y with
      | Some a, Some b => a =? b
      | _, _ => false
      end
  | _, _ => false
  end.

(** [float(n)]: the binary64 number nearest to [n] (infinity beyond the
    range of [float], where Python raises; the counter of the loop is below
    5). *)
Definition float_of_int (n : Z) : float :=
  SF2Prim (binary_normalize prec emax n 0 false).

(** [time.sleep(d)] refuses a negative number, a NaN, and a wait of 2^63
    nanoseconds or more. *)
Definition sleep_length_ok (d : float) : bool :=
  PrimFloat.leb 0 d && PrimFloat.ltb (PrimFloat.mul d 1e9) 0x1p63.

#[export] Instance cpython_runtime : PyRuntime := {|
  repr_value := python_repr;
  container_eq := python_eq;
  pyfloat := float;
  float_mul_int := fun x n => PrimFloat.mul x (float_of_int n);
  min_float_int := fun x n =>
    if PrimFloat.ltb (float_of_int n) x then float_of_int n else x;
  sleep_accepts := sleep_length_ok
|}.

(** The configuration of the examples: the default interval of 15 seconds. *)
Definition example_config (clear : bool) : config :=
  {| POLL_INTERVAL := 15%float;
     STATUS_PREFIX := "> ";
     CLEAR_STATUS_WHEN_IDLE := clear |}.

(** The locals of [main] before the first turn. *)
Definition first_frame : frame :=
  {| access_token := JNull; expires_at_token := 0;
     last_status := None; consecutive_failures := 0;
     status_message := None; status_expires := None |}.

(** The n-th answer is the n-th element of [listed], and [then_on] after. *)
Definition answers (listed : list http_outcome) (then_on : http_outcome)
  : nat -> http_outcome :=
  fun n => nth n listed then_on.

(** A process that starts with the refresh token ["refresh-0"]; every reading
    of the clock is one second after the one before. *)
Definition example_world (tokens players githubs : nat -> http_outcome)
    (env : option string) : world :=
  {| SPOTIFY_REFRESH_TOKEN := JStr "refresh-0";
     env_file := env; env_readable := true; env_writable := true;
     env_write_cut := None;
     os_environ := [];
     token_endpoint := tokens; token_requests := 0;
     player_endpoint := players; player_requests := 0;
     github_endpoint := githubs; github_requests := 0;
     clock := fun n => Z.of_nat n * 1000000; clock_reads := 0;
     trace := [];
     locals := first_frame |}.

Definition token_granted : http_outcome :=
  ok_response (JObj [("access_token", JStr "access-1");
                     ("token_type", JStr "Bearer");
                     ("expires_in", JNum 3600)]).

Definition token_granted_again : http_outcome :=
  ok_response (JObj [("access_token", JStr "access-2");
                     ("expires_in", JNum 3600);
                     ("refresh_token", JStr "refresh-0")]).

Definition token_rotated : http_outcome :=
  ok_response (JObj [("access_token", JStr "access-1");
                     ("expires_in", JNum 3600);
                     ("refresh_token", JStr "refresh-1")]).


Definition token_unavailable : http_outcome :=
  HttpResponse {| status_code := 503; json_body := None |}.

(** Scenario B: "Song" by A and B, 10 seconds into 40. *)
Definition song_fields : list (string * json) :=
  [("item", JObj [("name", JStr "Song");
                  ("artists", JArr [JObj [("name", JStr "A")];
                                    JObj [("name", JStr "B")]]);
                  ("duration_ms", JNum 40000)]);
   ("progress_ms", JNum 10000);
   ("is_playing", JBool true)].

Definition paused_fields : list (string * json) :=
  [("item", JObj [("name", JStr "Song");
                  ("artists", JArr [JObj [("name", JStr "A")];
                                    JObj [("name", JStr "B")]]);
                  ("duration_ms", JNum 40000)]);
   ("progress_ms", JNum 10000);
   ("is_playing", JBool false)].

Definition player_song : http_outcome := ok_response (JObj song_fields).
Definition player_paused : http_outcome := ok_response (JObj paused_fields).
Definition player_nothing : http_outcome :=
  HttpResponse {| status_code := 204; json_body := None |}.
Definition player_unauthorized : http_outcome :=
  HttpResponse {| status_code := 401; json_body := None |}.

Definition github_done : http_outcome :=
  ok_response (JObj [("data", JObj [("changeUserStatus", JObj [])])]).

Definition env_text : string :=
  "SPOTIFY_CLIENT_ID=abc" ++ String newline
  ("SPOTIFY_REFRESH_TOKEN=refresh-0" ++ String newline EmptyString).


(** The token endpoint is down for ever. *)
Definition world_token_down : world :=
  example_world (answers [] token_unavailable) (answers [] player_song)
    (answers [] github_done) (Some env_text).

(** The answer rotates the refresh token and there is no [.env] file. *)
Definition world_rotation_no_file : world :=
  example_world (answers [] token_rotated) (answers [] player_song)
    (answers [] github_done) None.

(** The answer rotates the refresh token and the [.env] file is there. *)
Definition world_rotation : world :=
  example_world (answers [] token_rotated) (answers [] player_song)
    (answers [] github_done) (Some env_text).

(** Two refreshes without rotation. *)
Definition world_steady : world :=
  example_world (answers [token_granted] token_granted_again)
    (answers [] player_song) (answers [] github_done) (Some env_text).

(** The song plays, stops, and plays again. *)
Definition world_resume : world :=
  example_world (answers [] token_granted)
    (answers [player_song; player_nothing] player_song)
    (answers [] github_done) (Some env_text).


(** The song plays on, turn after turn. *)
Definition world_playing : world :=
  example_world (answers [] token_granted) (answers [] player_song)
    (answers [] github_done) (Some env_text).

(** The player rejects the token on the second poll. *)
Definition world_expiring : world :=
  example_world (answers [] token_granted)
    (answers [player_song; player_unauthorized] player_song)
    (answers [] github_done) (Some env_text).

(** Nothing plays: the track is paused. *)
Definition world_paused : world :=
  example_world (answers [] token_granted) (answers [] player_paused)
    (answers [] github_done) (Some env_text).

(** The [.env] text has no entry for the refresh token and no line break at
    its end. *)
Definition world_unterminated : world :=
  example_world (answers [] token_rotated) (answers [] player_song)
    (answers [] github_done) (Some "SPOTIFY_CLIENT_ID=abc").

(** A [.env] text with CR LF line breaks, and one whose first line ends with
    a lone CR. *)
Definition env_text_crlf : string :=
  "SPOTIFY_CLIENT_ID=abc" ++ String carriage_return (String newline
  ("SPOTIFY_REFRESH_TOKEN=refresh-0"
   ++ String carriage_return (String newline EmptyString))).

Definition env_text_cr : string :=
  "SPOTIFY_CLIENT_ID=abc" ++ String carriage_return
  ("GITHUB_TOKEN=ghp" ++ String newline EmptyString).

Definition world_crlf : world :=
  example_world (answers [] token_rotated) (answers [] player_song)
    (answers [] github_done) (Some env_text_crlf).

Definition world_cr : world :=
  example_world (answers [] token_rotated) (answers [] player_song)
    (answers [] github_done) (Some env_text_cr).

(** The same world, with a write that fails after [k] characters. *)
Definition cut_after (k : nat) (w : world) : world :=
  {| SPOTIFY_REFRESH_TOKEN := SPOTIFY_REFRESH_TOKEN w; env_file := env_file w;
     env_readable := env_readable w; env_writable := env_writable w;
     env_write_cut := Some k;
     os_environ := os_environ w;
     token_endpoint := token_endpoint w; token_requests := token_requests w;
     player_endpoint := player_endpoint w; player_requests := player_requests w;
     github_endpoint := github_endpoint w; github_requests := github_requests w;
     clock := clock w; clock_reads := clock_reads w;
     trace := trace w; locals := locals w |}.

(** The disk is full after 30 characters. *)
Definition world_disk_full : world := cut_after 30 world_rotation.

(** A track of 10^18 milliseconds. *)
Definition endless_fields : list (string * json) :=
  [("item", JObj [("name", JStr "Song");
                  ("artists", JArr [JObj [("name", JStr "A")]]);
                  ("duration_ms", JNum 1000000000000000000)]);
   ("progress_ms", JNum 0);
   ("is_playing", JBool true)].

Definition world_endless : world :=
  example_world (answers [] token_granted)
    (answers [] (ok_response (JObj endless_fields)))
    (answers [] github_done) (Some env_text).

(** A token that expires in 10^15 seconds. *)
Definition far_future_fields : list (string * json) :=
  [("access_token", JStr "access-1"); ("expires_in", JNum 1000000000000000)].

Definition world_far_future : world :=
  example_world (answers [] (ok_response (JObj far_future_fields)))
    (answers [] player_song) (answers [] github_done) (Some env_text).

(** The player endpoint answers 401 for ever. *)
Definition world_unauthorized : world :=
  example_world (answers [] token_granted) (answers [] player_unauthorized)
    (answers [] github_done) (Some env_text).

(** The answer of the player has a null [progress_ms]. *)
Definition progress_null_fields : list (string * json) :=
  [("item", JObj [("name", JStr "Song");
                  ("artists", JArr [JObj [("name", JStr "A")]]);
                  ("duration_ms", JNum 40000)]);
   ("progress_ms", JNull);
   ("is_playing", JBool true)].

Definition world_progress_null : world :=
  example_world (answers [] token_granted)
    (answers [] (ok_response (JObj progress_null_fields)))
    (answers [] github_done) (Some env_text).

(** The token endpoint rotates the refresh token and sends an [expires_in]
    that is not a number. *)
Definition late_failure_fields : list (string * json) :=
  [("access_token", JStr "access-1");
   ("expires_in", JStr "soon");
   ("refresh_token", JStr "refresh-1")].

Definition world_late_failure : world :=
  example_world (answers [] (ok_response (JObj late_failure_fields)))
    (answers [] player_song) (answers [] github_done) (Some env_text).


(** A [POLL_INTERVAL] of -1. *)
Definition config_negative : config :=
  {| POLL_INTERVAL := (-1)%float;
     STATUS_PREFIX := "> ";
     CLEAR_STATUS_WHEN_IDLE := true |}.

Definition settings_complete : settings :=
  {| SPOTIFY_CLIENT_ID := Some "client";
     SPOTIFY_CLIENT_SECRET := Some "secret";
     GITHUB_TOKEN := Some "ghp" |}.

Definition settings_without_github : settings :=
  {| SPOTIFY_CLIENT_ID := Some "client";
     SPOTIFY_CLIENT_SECRET := Some "secret";
     GITHUB_TOKEN := Some EmptyString |}.

(** * Properties *)

Section Properties.

Context {RT : PyRuntime}.

#[local] Arguments timedelta_in_range : simpl never.
#[local] Arguments datetime_in_range : simpl never.

(** ** The lines of the [.env] file *)

Lemma prefix_append : forall p s, String.prefix p (p ++ s) = true.
Proof.
  induction p as [|c p IH]; intros s; cbn; [destruct s; reflexivity|].
  destruct (ascii_dec c c) as [_|Hne]; [apply IH|congruence].
Qed.

Lemma contains_char_append :
  forall c a b, contains_char c (a ++ b) = contains_char c a || contains_char c b.
Proof.
  intros c a b. induction a as [|x a IH]; cbn [contains_char append orb];
    [reflexivity|].
  destruct (Ascii.eqb c x); [reflexivity|exact IH].
Qed.

Lemma full_line_append_newline :
  forall l, contains_char newline l = false ->
            full_line (l ++ String newline EmptyString) = true.
Proof.
  induction l as [|c l IH]; intros H; cbn [contains_char full_line append] in *;
    [reflexivity|].
  rewrite Ascii.eqb_sym in H.
  destruct (Ascii.eqb c newline); [discriminate|exact (IH H)].
Qed.

Lemma readlines_full_line :
  forall l s, full_line l = true -> readlines (l ++ s) = l :: readlines s.
Proof.
  induction l as [|c l IH]; intros s H; cbn [full_line readlines append] in *;
    [discriminate|].
  destruct (Ascii.eqb c newline).
  - apply String.eqb_eq in H. subst l. reflexivity.
  - rewrite (IH s H). reflexivity.
Qed.

Lemma readlines_partial_line :
  forall l, partial_line l = true -> readlines l = [l].
Proof.
  intros [|c l]; [discriminate|]. unfold partial_line.
  revert c. induction l as [|d l IH]; intros c H; cbn [contains_char negb readlines] in *.
  - rewrite Ascii.eqb_sym in H.
    destruct (Ascii.eqb c newline); [discriminate|reflexivity].
  - rewrite Ascii.eqb_sym in H. destruct (Ascii.eqb c newline); [discriminate|].
    specialize (IH d H). rewrite IH. reflexivity.
Qed.

Lemma writelines_cons :
  forall l ls, writelines (l :: ls) = l ++ writelines ls.
Proof.
  intros l [|l' ls]; unfold writelines; cbn; [|reflexivity].
  induction l as [|c l IH]; cbn; [reflexivity|]. rewrite <- IH. reflexivity.
Qed.

(** Reading back what was written gives the lines that were written. *)
Lemma readlines_writelines :
  forall lines, proper_lines lines = true -> readlines (writelines lines) = lines.
Proof.
  induction lines as [|l rest IH]; intros H; [reflexivity|].
  rewrite writelines_cons. cbn [proper_lines] in H. destruct rest as [|l' rest].
  - unfold writelines. cbn.
    replace (l ++ EmptyString) with l
      by (clear; induction l as [|c l IH]; cbn; [reflexivity|]; rewrite <- IH; reflexivity).
    apply orb_true_iff in H. destruct H as [H|H].
    + replace l with (l ++ EmptyString) at 1
        by (clear; induction l as [|c l IH]; cbn; [reflexivity|]; rewrite IH; reflexivity).
      rewrite (readlines_full_line l EmptyString H). reflexivity.
    + apply readlines_partial_line. exact H.
  - apply andb_true_iff in H. destruct H as [Hl Hrest].
    rewrite (readlines_full_line _ _ Hl), (IH Hrest). reflexivity.
Qed.

Lemma readlines_proper : forall text, proper_lines (readlines text) = true.
Proof.
  induction text as [|c text IH]; [reflexivity|]. cbn [readlines].
  destruct (Ascii.eqb c newline) eqn:Hc.
  - cbn [proper_lines]. destruct (readlines text) as [|l ls]; cbn [full_line].
    + rewrite Hc. reflexivity.
    + rewrite Hc. cbn. exact IH.
  - destruct (readlines text) as [|l ls].
    + cbn [proper_lines full_line partial_line contains_char].
      rewrite Hc, Ascii.eqb_sym, Hc. reflexivity.
    + cbn [proper_lines] in *. destruct ls as [|l' ls].
      * apply orb_true_iff in IH. apply orb_true_iff.
        cbn [full_line]. rewrite Hc.
        destruct IH as [H|H]; [left; exact H|right].
        unfold partial_line in *. destruct l; [discriminate|].
        cbn [contains_char]. rewrite Ascii.eqb_sym, Hc. exact H.
      * cbn [full_line]. rewrite Hc. exact IH.
Qed.

Lemma readlines_terminated :
  forall text, terminated text = true -> forallb full_line (readlines text) = true.
Proof.
  induction text as [|c text IH]; intros H; [reflexivity|].
  cbn [terminated] in H. cbn [readlines].
  destruct (Ascii.eqb c newline) eqn:Hc.
  - cbn [forallb full_line]. rewrite Hc. cbn.
    destruct text; [reflexivity|apply IH; exact H].
  - destruct text as [|d text]; [discriminate|].
    specialize (IH H).
    destruct (readlines (String d text)) as [|l ls] eqn:Hlines.
    + cbn in Hlines. destruct (Ascii.eqb d newline); [discriminate|].
      destruct (readlines text); discriminate.
    + cbn [forallb full_line] in *. rewrite Hc. exact IH.
Qed.

Lemma proper_lines_append :
  forall lines entry,
    forallb full_line lines = true -> full_line entry = true ->
    proper_lines (lines ++ [entry]) = true.
Proof.
  induction lines as [|l rest IH]; intros entry Hall He; cbn in *.
  - rewrite He. reflexivity.
  - apply andb_true_iff in Hall. destruct Hall as [Hl Hrest].
    specialize (IH entry Hrest He).
    destruct (rest ++ [entry])%list eqn:Happ.
    + destruct rest; discriminate.
    + rewrite Hl. exact IH.
Qed.

Lemma patch_first_updated :
  forall prefix entry lines lines',
    patch_first prefix entry lines = (lines', true) ->
    startswith entry prefix = true ->
    full_line entry = true ->
    proper_lines lines = true ->
    find_line prefix lines' = Some entry /\ proper_lines lines' = true.
Proof.
  intros prefix entry. induction lines as [|l rest IH]; intros lines' H Hp He Hproper.
  - discriminate.
  - cbn [patch_first] in H. destruct (startswith l prefix) eqn:Hl.
    + injection H as <-. cbn [find_line]. rewrite Hp. split; [reflexivity|].
      cbn [proper_lines] in *. destruct rest; [rewrite He; reflexivity|].
      apply andb_true_iff in Hproper. rewrite He. apply Hproper.
    + destruct (patch_first prefix entry rest) as [rest' updated] eqn:Hrest.
      injection H as <- ->.
      assert (Hrest_proper : proper_lines rest = true /\ full_line l = true).
      { cbn [proper_lines] in Hproper. destruct rest; [discriminate|].
        apply andb_true_iff in Hproper. split; apply Hproper. }
      destruct (IH rest' eq_refl Hp He (proj1 Hrest_proper)) as [Hfind Hp'].
      cbn [find_line]. rewrite Hl. split; [exact Hfind|].
      cbn [proper_lines]. destruct rest'; [discriminate|].
      rewrite (proj2 Hrest_proper). exact Hp'.
Qed.

Lemma patch_first_missing :
  forall prefix entry lines lines',
    patch_first prefix entry lines = (lines', false) ->
    lines' = lines /\ find_line prefix lines = None.
Proof.
  intros prefix entry. induction lines as [|l rest IH]; intros lines' H.
  - injection H as <-. split; reflexivity.
  - cbn [patch_first] in H. destruct (startswith l prefix) eqn:Hl; [discriminate|].
    destruct (patch_first prefix entry rest) as [rest' updated].
    injection H as <- ->. destruct (IH rest' eq_refl) as [-> Hnone].
    cbn [find_line]. rewrite Hl. split; [reflexivity|exact Hnone].
Qed.

Lemma find_line_append :
  forall prefix entry lines,
    find_line prefix lines = None ->
    startswith entry prefix = true ->
    find_line prefix (lines ++ [entry]) = Some entry.
Proof.
  intros prefix entry. induction lines as [|l rest IH]; intros Hnone Hp; cbn in *.
  - rewrite Hp. reflexivity.
  - destruct (startswith l prefix); [discriminate|]. apply IH; assumption.
Qed.

Lemma append_assoc :
  forall a b c : string, (a ++ b) ++ c = a ++ b ++ c.
Proof.
  intros a b c. induction a as [|x a IH]; cbn [append]; [reflexivity|].
  rewrite IH. reflexivity.
Qed.

Lemma append_empty_r : forall s : string, s ++ EmptyString = s.
Proof.
  induction s as [|c s IH]; cbn [append]; [reflexivity|]. rewrite IH. reflexivity.
Qed.

Lemma writelines_app :
  forall a b, writelines (a ++ b) = writelines a ++ writelines b.
Proof.
  induction a as [|l a IH]; intros b; [reflexivity|].
  change ((l :: a) ++ b)%list with (l :: (a ++ b))%list.
  rewrite !writelines_cons, IH, append_assoc. reflexivity.
Qed.

(** Writing back the lines that were read gives the text that was read. *)
Lemma writelines_readlines : forall text, writelines (readlines text) = text.
Proof.
  induction text as [|c text IH]; [reflexivity|]. cbn [readlines].
  destruct (Ascii.eqb c newline).
  - rewrite writelines_cons, IH. reflexivity.
  - destruct (readlines text) as [|l ls].
    + unfold writelines in IH. cbn in IH. subst text. reflexivity.
    + rewrite writelines_cons in *. cbn [append]. rewrite IH. reflexivity.
Qed.

(** *** Line breaks: what the file hands over has no CR *)

Lemma universal_newlines_step :
  forall raw,
    contains_char carriage_return (universal_newlines raw) = false /\
    forall c, contains_char carriage_return (universal_newlines (String c raw)) = false.
Proof.
  induction raw as [|d raw [IH IHc]].
  - split; [reflexivity|]. intros c. cbn [universal_newlines].
    destruct (Ascii.eqb c carriage_return) eqn:Hc; [reflexivity|].
    cbn [contains_char]. rewrite Ascii.eqb_sym, Hc. reflexivity.
  - split; [apply IHc|]. intros c.
    change (universal_newlines (String c (String d raw)))
      with (if Ascii.eqb c carriage_return then
              if Ascii.eqb d newline then String newline (universal_newlines raw)
              else String newline (universal_newlines (String d raw))
            else String c (universal_newlines (String d raw))).
    destruct (Ascii.eqb c carriage_return) eqn:Hc.
    + destruct (Ascii.eqb d newline); cbn [contains_char];
        change (Ascii.eqb carriage_return newline) with false; cbv iota;
        [exact IH|apply IHc].
    + cbn [contains_char]. rewrite Ascii.eqb_sym, Hc. apply IHc.
Qed.

Lemma universal_newlines_clean :
  forall raw, contains_char carriage_return (universal_newlines raw) = false.
Proof. intros raw. apply universal_newlines_step. Qed.

(** A text without CR is handed over as it is. *)
Lemma universal_newlines_id :
  forall text,
    contains_char carriage_return text = false -> universal_newlines text = text.
Proof.
  induction text as [|c text IH]; intros H; [reflexivity|].
  cbn [contains_char] in H. cbn [universal_newlines].
  rewrite Ascii.eqb_sym.
  destruct (Ascii.eqb carriage_return c); [discriminate|].
  rewrite (IH H). reflexivity.
Qed.

Lemma contains_char_writelines :
  forall c lines,
    contains_char c (writelines lines) = existsb (contains_char c) lines.
Proof.
  intros c. induction lines as [|l lines IH]; [reflexivity|].
  rewrite writelines_cons, contains_char_append, IH. reflexivity.
Qed.

Lemma contains_char_readlines :
  forall c text, existsb (contains_char c) (readlines text) = contains_char c text.
Proof.
  intros c text. rewrite <- contains_char_writelines, writelines_readlines. reflexivity.
Qed.

Lemma patch_first_exists :
  forall (P : string -> bool) prefix entry lines lines' updated,
    patch_first prefix entry lines = (lines', updated) ->
    existsb P lines = false -> P entry = false ->
    existsb P lines' = false.
Proof.
  intros P prefix entry. induction lines as [|l lines IH];
    intros lines' updated H Hall He; cbn [patch_first] in H.
  - injection H as <- _. reflexivity.
  - cbn [existsb] in Hall. apply orb_false_iff in Hall. destruct Hall as [Hl Hrest].
    destruct (startswith l prefix).
    + injection H as <- _. cbn [existsb]. rewrite He, Hrest. reflexivity.
    + destruct (patch_first prefix entry lines) as [rest' u] eqn:Hpatch.
      injection H as <- _. cbn [existsb]. rewrite Hl. exact (IH rest' u eq_refl Hrest He).
Qed.

Lemma single_line_parts :
  forall s,
    single_line s = true ->
    contains_char newline s = false /\ contains_char carriage_return s = false.
Proof.
  intros s H. unfold single_line in H. apply andb_true_iff in H.
  destruct H as [H1 H2]. apply negb_true_iff in H1, H2. split; assumption.
Qed.

(** ** [get_current_playing] *)

(** C10. A 200 answer of the player endpoint whose JSON object has no [item],
    or has no [is_playing], or has [is_playing] false, makes
    [get_current_playing] return [None]: a missing [is_playing] counts as
    false. *)
Theorem C10_not_playing_is_absent :
  forall cfg token w kvs,
    player_endpoint w (player_requests w) = ok_response (JObj kvs) ->
    dict_lookup "item" kvs = None \/
    dict_lookup "is_playing" kvs = None \/
    dict_lookup "is_playing" kvs = Some (JBool false) ->
    fst (get_current_playing cfg token w) = Return NoTrack.
Proof.
  intros cfg token w kvs Hresp Hcase.
  unfold get_current_playing, try_except, bind, requests_get_player.
  rewrite Hresp. cbn.
  destruct (dict_lookup "item" kvs) as [item|] eqn:Hitem; cbn.
  - destruct (truthy item); cbn; [|reflexivity].
    destruct Hcase as [H|[H|H]]; [discriminate| |]; rewrite H; reflexivity.
  - reflexivity.
Qed.
Lemma artist_names_run :
  forall arts names w,
    Forall2 artist_object arts names ->
    artist_names arts w = (Return names, w).
Proof.
  intros arts names w H; induction H as [|a n arts names [akvs [-> Hn]] _ IH].
  - reflexivity.
  - cbn. unfold bind. cbn. rewrite Hn. cbn. rewrite IH. reflexivity.
Qed.

(** The two steps that build an expiry: [now + timedelta(...)]. *)
Lemma timedelta_run :
  forall micro w,
    timedelta micro w =
      if timedelta_in_range micro then (Return micro, w)
      else (Raise (PyException "OverflowError"), w).
Proof.
  intros micro w. unfold timedelta. destruct (timedelta_in_range micro); reflexivity.
Qed.

Lemma datetime_add_run :
  forall t d w,
    datetime_add t d w =
      if datetime_in_range (t + d) then (Return (t + d), w)
      else (Raise (PyException "OverflowError"), w).
Proof.
  intros t d w. unfold datetime_add. destruct (datetime_in_range (t + d)); reflexivity.
Qed.

Lemma representable_parts :
  forall now micro,
    representable now micro = true ->
    timedelta_in_range micro = true /\ datetime_in_range (now + micro) = true.
Proof.
  intros now micro H. apply andb_true_iff in H. exact H.
Qed.

(** C6. For a 200 answer with an active item whose remaining time leads from
    the clock reading to a value of [datetime], [get_current_playing] returns
    the message [STATUS_PREFIX + name + " by " + ", ".join(artists)] with the
    artists in their order, and the expiry at the clock reading plus
    [max(duration_ms - progress_ms, 0)] milliseconds. *)
Theorem C6_message_and_expiry :
  forall cfg token w kvs name artists progress_ms duration_ms,
    player_endpoint w (player_requests w) = ok_response (JObj kvs) ->
    active_item kvs name artists progress_ms duration_ms ->
    representable (clock w (clock_reads w))
                  (Z.max (duration_ms - progress_ms) 0 * 1000) = true ->
    get_current_playing cfg token w =
      (Return (Track (STATUS_PREFIX cfg ++ name ++ " by " ++ String.concat ", " artists)
                     (clock w (clock_reads w)
                      + Z.max (duration_ms - progress_ms) 0 * 1000)),
       with_clock_read (with_player_request (PlayerRequest token) w)).
Proof.
  intros cfg token w kvs name artists p d Hresp
    (item & arts & playing & Hitem & Hplay & Htrue & Hname & Harts & Hall & Hp & Hd)
    Hrange.
  apply representable_parts in Hrange. destruct Hrange as [Hdelta Hmoment].
  unfold get_current_playing, try_except, bind, requests_get_player.
  rewrite Hresp. cbn.
  rewrite Hitem. cbn.
  assert (Hne : match item with [] => false | _ :: _ => true end = true).
  { destruct item; [discriminate Hname | reflexivity]. }
  rewrite Hne. cbn.
  rewrite Hplay, Htrue. cbn.
  rewrite Hname. cbn. rewrite Harts. cbn.
  rewrite (artist_names_run arts artists _ Hall).
  destruct Hp as [Hp|[Hp ->]], Hd as [Hd|[Hd ->]];
    rewrite Hp; cbn; rewrite Hd; cbn;
    unfold timedelta_milliseconds; rewrite timedelta_run;
    (replace (timedelta_in_range _) with true by (symmetry; exact Hdelta));
    rewrite datetime_add_run;
    (replace (datetime_in_range _) with true by (symmetry; exact Hmoment));
    reflexivity.
Qed.

(** ** Computations step by step *)

Ltac case_scrutinee :=
  match goal with
  | |- context [match ?x with _ => _ end] =>
      lazymatch x with
      | context [match _ with _ => _ end] => fail
      | _ => destruct x eqn:?
      end
  end.

Ltac run := unfold try_except, bind, ret, raise, sys_exit; cbn.

(** ** [set_github_status] *)

Lemma set_github_status_run :
  forall message expires_at w,
    set_github_status message expires_at w =
      (Return (github_accepts (github_endpoint w (github_requests w))),
       with_github_request
         (GithubRequest message
            (match message with None => None | Some _ => expires_at end)) w).
Proof.
  intros message expires_at w.
  unfold set_github_status, requests_post_github, github_accepts; run.
  destruct (github_endpoint w (github_requests w)) as [|r]; cbn; [reflexivity|].
  destruct (status_code r =? 200); cbn; [|reflexivity].
  unfold r_json. destruct (json_body r) as [body|]; cbn; [|reflexivity].
  destruct body; cbn; try reflexivity.
  - destruct (contains_substring _ _); reflexivity.
  - destruct (existsb _ _); reflexivity.
  - destruct (dict_lookup _ _); reflexivity.
Qed.

(** ** [get_current_playing] never raises and only polls *)

Lemma artist_names_cases :
  forall arts w,
    (exists names, artist_names arts w = (Return names, w)) \/
    (exists name, artist_names arts w = (Raise (PyException name), w)).
Proof.
  induction arts as [|a arts IH]; intros w; [left; eexists; reflexivity|].
  cbn. unfold bind, py_subscript.
  destruct a; cbn; try (right; eexists; reflexivity).
  destruct (dict_lookup "name" kvs) as [v|]; cbn; [|right; eexists; reflexivity].
  destruct v; cbn; try (right; eexists; reflexivity).
  destruct (IH w) as [[names ->]|[name ->]]; cbn;
    [left|right]; eexists; reflexivity.
Qed.

Lemma get_current_playing_effect :
  forall cfg token w,
    exists info,
      fst (get_current_playing cfg token w) = Return info /\
      polled token w (snd (get_current_playing cfg token w)).
Proof.
  intros cfg token w. unfold polled, get_current_playing, requests_get_player; run.
  destruct (player_endpoint w (player_requests w)) as [|r]; cbn; [eauto|].
  destruct (status_code r =? 204); cbn; [eauto|].
  destruct (status_code r =? 401); cbn; [eauto|].
  destruct (status_code r =? 200); cbn; [|eauto].
  unfold r_json. destruct (json_body r) as [data|]; cbn; [|eauto].
  destruct data; cbn; eauto.
  destruct (dict_lookup "item" kvs) as [item|]; cbn; [|eauto].
  destruct (truthy item); cbn; [|eauto].
  destruct (truthy match dict_lookup "is_playing" kvs with
                   | Some v => v | None => JBool false end); cbn; [|eauto].
  destruct item; cbn; eauto.
  destruct (dict_lookup "name" kvs0) as [name|]; cbn; [|eauto].
  destruct (dict_lookup "artists" kvs0) as [artists|]; cbn; [|eauto].
  unfold py_iter.
  destruct artists; cbn; eauto;
    match goal with
    | |- context [artist_names ?l ?w0] =>
        destruct (artist_names_cases l w0) as [[names ->]|[e ->]]; cbn
    end;
    eauto;
    unfold py_sub, timedelta_milliseconds, timedelta, datetime_add; run;
    repeat (case_scrutinee; cbn); eauto.
Qed.

Lemma get_current_playing_unauthorized :
  forall cfg token w body,
    player_endpoint w (player_requests w) =
      HttpResponse {| status_code := 401; json_body := body |} ->
    get_current_playing cfg token w =
      (Return TOKEN_EXPIRED, with_player_request (PlayerRequest token) w).
Proof.
  intros cfg token w body H.
  unfold get_current_playing, requests_get_player; run. rewrite H. reflexivity.
Qed.

(** ** [update_env_file] *)

Lemma update_env_file_run :
  forall key value w,
    update_env_file key value w =
      match env_file w with
      | Some text =>
          if env_readable w && env_writable w then
            let w1 :=
              with_env_file (text_written w (env_text_after key value text)) w in
            match env_write_cut w with
            | Some _ => (Return false, w1)
            | None =>
                match value with
                | JStr s => if legal_variable_name key && negb (contains_char nul s)
                            then (Return true, with_os_environ key s w1)
                            else (Return false, w1)
                | _ => (Return false, w1)
                end
            end
          else (Return false, w)
      | None => (Return false, w)
      end.
Proof.
  intros key value w.
  cbv [update_env_file os_path_exists read_env_lines env_text_after text_written
       try_except bind ret raise write_env_lines].
  destruct (env_file w) as [text|] eqn:Hfile; [|reflexivity].
  cbv beta. rewrite Hfile.
  destruct (env_readable w); cbn [andb]; [|reflexivity].
  destruct (patch_first _ _ _) as [lines' updated].
  destruct (env_writable w); [|reflexivity].
  destruct (env_write_cut w) as [k|]; [reflexivity|].
  destruct value; cbn; try reflexivity.
  destruct (legal_variable_name key && negb (contains_char nul s)); reflexivity.
Qed.

Lemma legal_refresh_token_key : legal_variable_name "SPOTIFY_REFRESH_TOKEN" = true.
Proof. reflexivity. Qed.

(** The file after a call: untouched unless it was opened for writing. *)
Lemma update_env_file_file :
  forall key value w,
    env_file (snd (update_env_file key value w)) =
      match env_file w with
      | Some text =>
          if env_readable w && env_writable w
          then Some (text_written w (env_text_after key value text))
          else Some text
      | None => None
      end.
Proof.
  intros key value w. rewrite update_env_file_run.
  destruct (env_file w) as [text|] eqn:Hfile; [|exact Hfile].
  destruct (env_readable w && env_writable w); [|exact Hfile].
  cbv zeta. destruct (env_write_cut w); [reflexivity|].
  destruct value; try reflexivity.
  destruct (legal_variable_name key && negb (contains_char nul s)); reflexivity.
Qed.

(** ** [refresh_access_token] *)

Lemma refresh_rejected_run :
  forall w,
    refresh_rejected (token_endpoint w (token_requests w)) = true ->
    refresh_access_token w =
      (Return None, with_token_request (TokenRequest (SPOTIFY_REFRESH_TOKEN w)) w).
Proof.
  intros w H.
  unfold refresh_access_token, get_refresh_token, requests_post_token; run.
  destruct (token_endpoint w (token_requests w)) as [|r]; cbn in *; [reflexivity|].
  rewrite H. cbn.
  destruct (status_code r =? 400); cbn; [|reflexivity].
  unfold r_json. destruct (json_body r) as [body|]; cbn; [|reflexivity].
  destruct body; cbn; try reflexivity.
  destruct (py_eq _ _); reflexivity.
Qed.

Lemma refresh_ok_run :
  forall w kvs,
    token_endpoint w (token_requests w) = ok_response (JObj kvs) ->
    let current := SPOTIFY_REFRESH_TOKEN w in
    let new_refresh_token := field_or "refresh_token" kvs JNull in
    let w1 := with_token_request (TokenRequest current) w in
    let w2 := if rotates new_refresh_token current
              then with_refresh_token new_refresh_token
                     (snd (update_env_file "SPOTIFY_REFRESH_TOKEN" new_refresh_token w1))
              else w1 in
    refresh_access_token w =
      (Return match as_int (field_or "expires_in" kvs (JNum 3600)) with
              | Some seconds =>
                  if representable (clock w (clock_reads w)) (seconds * 1000000)
                  then Some (credential kvs seconds (clock w (clock_reads w)))
                  else None
              | None => None
              end,
       with_clock_read w2).
Proof.
  intros w kvs H. cbv zeta.
  unfold refresh_access_token, get_refresh_token, requests_post_token; run.
  rewrite H. cbn. fold (field_or "refresh_token" kvs JNull).
  fold (field_or "expires_in" kvs (JNum 3600)).
  fold (field_or "access_token" kvs JNull).
  unfold rotates.
  destruct (truthy (field_or "refresh_token" kvs JNull) &&
            negb (py_eq (field_or "refresh_token" kvs JNull) (SPOTIFY_REFRESH_TOKEN w)))
    eqn:Hrot.
  - rewrite update_env_file_run. cbn.
    unfold timedelta_seconds, timedelta, datetime_add, representable, credential.
    destruct (env_file w) as [text|]; cbn;
      [destruct (env_readable w && env_writable w); cbn;
       [destruct (env_write_cut w); cbn;
        [|destruct (field_or "refresh_token" kvs JNull); cbn;
          try destruct (negb (contains_char nul s)); cbn]|]|];
      (destruct (as_int (field_or "expires_in" kvs (JNum 3600))); cbn;
       [destruct (timedelta_in_range _); cbn;
        [destruct (datetime_in_range _)|]|]; reflexivity).
  - cbn. unfold timedelta_seconds, timedelta, datetime_add, representable, credential.
    destruct (as_int (field_or "expires_in" kvs (JNum 3600))); cbn;
      [destruct (timedelta_in_range _); cbn; [destruct (datetime_in_range _)|]|];
      reflexivity.
Qed.

Lemma refresh_malformed_run :
  forall w r,
    token_endpoint w (token_requests w) = HttpResponse r ->
    (forall kvs, json_body r <> Some (JObj kvs)) ->
    refresh_access_token w =
      (Return None, with_token_request (TokenRequest (SPOTIFY_REFRESH_TOKEN w)) w).
Proof.
  intros w r H Hbody.
  unfold refresh_access_token, get_refresh_token, requests_post_token; run.
  rewrite H. cbn. unfold r_json.
  destruct (status_code r =? 200); cbn.
  - destruct (json_body r) as [body|]; cbn; [|reflexivity].
    destruct body; cbn; try reflexivity. elim (Hbody kvs). reflexivity.
  - destruct (status_code r =? 400); cbn; [|reflexivity].
    destruct (json_body r) as [body|]; cbn; [|reflexivity].
    destruct body; cbn; try reflexivity. elim (Hbody kvs). reflexivity.
Qed.

Lemma refreshed_request :
  forall w, refreshed w (with_token_request (TokenRequest (SPOTIFY_REFRESH_TOKEN w)) w).
Proof.
  intros w. unfold refreshed. cbn. repeat split.
  exists []. split; reflexivity.
Qed.

(** [refresh_access_token] never raises; it leaves the locals of [main], the
    other endpoints and the clock sequence as they are. *)
Lemma refresh_access_token_effect :
  forall w,
    exists token,
      fst (refresh_access_token w) = Return token /\
      refreshed w (snd (refresh_access_token w)).
Proof.
  intros w.
  destruct (token_endpoint w (token_requests w)) as [|r] eqn:Hresp.
  - rewrite refresh_rejected_run by (rewrite Hresp; reflexivity).
    eexists; split; [reflexivity|apply refreshed_request].
  - destruct r as [code body].
    destruct (code =? 200) eqn:Hcode.
    + apply Z.eqb_eq in Hcode; subst code.
      destruct body as [[| | | | |kvs]|];
        try (rewrite (refresh_malformed_run w _ Hresp) by (cbn; congruence);
             eexists; split; [reflexivity|apply refreshed_request]).
      rewrite (refresh_ok_run w kvs Hresp). cbn [fst snd].
      eexists; split; [reflexivity|].
      destruct (rotates _ _); [|unfold refreshed; cbn; repeat split;
                                 exists []; split; reflexivity].
      rewrite update_env_file_run. cbn.
      destruct (env_file w) as [text|]; cbn;
        [destruct (env_readable w && env_writable w); cbn;
         [destruct (env_write_cut w); cbn;
          [|destruct (field_or "refresh_token" kvs JNull); cbn;
            try destruct (negb (contains_char nul s)); cbn]|]|];
        unfold refreshed; cbn; repeat split;
        first [ exists []; split; [rewrite <- ?app_assoc|]; reflexivity
              | eexists [_]; split; [rewrite <- ?app_assoc|]; reflexivity ].
    + rewrite refresh_rejected_run by (rewrite Hresp; cbn; rewrite Hcode; reflexivity).
      eexists; split; [reflexivity|apply refreshed_request].
Qed.

(** A granted refresh reads the clock once, whether or not the credential
    can be built. *)
Lemma refresh_ok_clock_reads :
  forall w kvs,
    token_endpoint w (token_requests w) = ok_response (JObj kvs) ->
    clock_reads (snd (refresh_access_token w)) = S (clock_reads w).
Proof.
  intros w kvs H. rewrite (refresh_ok_run w kvs H). cbn [snd].
  destruct (rotates _ _); [|reflexivity].
  rewrite update_env_file_run. cbn.
  destruct (env_file w) as [text|]; cbn;
    [destruct (env_readable w && env_writable w); cbn;
     [destruct (env_write_cut w); cbn;
      [|destruct (field_or "refresh_token" kvs JNull); cbn;
        try destruct (negb (contains_char nul s)); cbn]|]|];
    reflexivity.
Qed.

(** ** The parts of one turn of the loop *)

Lemma token_stale_run :
  forall w,
    token_stale w =
      (Return (needs_refresh w), after_check w).
Proof.
  intros w.
  unfold token_stale, after_check, needs_refresh, stale_at, get_locals, utcnow; run.
  destruct (truthy (access_token (locals w))); reflexivity.
Qed.

Lemma main_publish_run :
  forall cfg w,
    main_publish cfg w =
      time_sleep (POLL_INTERVAL cfg)
        (if publish_needed cfg (locals w) then
           let wg := with_github_request (publish_request (locals w)) w in
           if github_accepts (github_endpoint w (github_requests w))
           then with_locals (set_last_status (status_message (locals w)) (locals w)) wg
           else wg
         else w).
Proof.
  intros cfg w. unfold main_publish, publish_needed, publish_request, get_locals; run.
  destruct (option_string_eqb _ _); cbn; [reflexivity|].
  destruct (status_message (locals w)) as [m|] eqn:Hm; cbn.
  - rewrite set_github_status_run.
    destruct (github_accepts _); cbn; destruct (time_sleep _ _); reflexivity.
  - destruct (CLEAR_STATUS_WHEN_IDLE cfg); cbn; [|reflexivity].
    rewrite set_github_status_run.
    destruct (github_accepts _); cbn; destruct (time_sleep _ _); reflexivity.
Qed.

Lemma main_refresh_failed_run :
  forall cfg w,
    let failures := consecutive_failures (locals w) + 1 in
    let w' := with_locals (set_consecutive_failures failures (locals w)) w in
    main_refresh_failed cfg w =
      if max_failures <=? failures then (Raise (SystemExit 1), w')
      else time_sleep (wait_time cfg failures) w'.
Proof.
  intros cfg w. cbv zeta.
  unfold main_refresh_failed, modify_locals, get_locals, set_locals, wait_time; run.
  destruct (max_failures <=? consecutive_failures (locals w) + 1); reflexivity.
Qed.

Lemma main_poll_cases :
  forall cfg w,
    exists wp,
      polled (access_token (locals w)) w wp /\
      (main_poll cfg w =
         (Return tt, with_locals (set_access_token JNull (locals w)) wp) \/
       exists m e,
         main_poll cfg w =
           main_publish cfg (with_locals (set_candidate m e (locals w)) wp)).
Proof.
  intros cfg w.
  destruct (get_current_playing_effect cfg (access_token (locals w)) w)
    as (info & Hinfo & Hpolled).
  exists (snd (get_current_playing cfg (access_token (locals w)) w)).
  split; [exact Hpolled|].
  assert (Hloc : locals (snd (get_current_playing cfg (access_token (locals w)) w))
                 = locals w).
  { destruct Hpolled as [-> | ->]; reflexivity. }
  cbv [main_poll modify_locals get_locals set_locals bind ret].
  destruct (get_current_playing cfg (access_token (locals w)) w) as [r wp].
  cbn [fst snd] in *. subst r. rewrite <- Hloc.
  destruct info.
  - right. exists None, None. destruct (main_publish _ _) as [[[]|] ?]; reflexivity.
  - left. reflexivity.
  - right. exists (Some message), (Some expires_at).
    destruct (main_publish _ _) as [[[]|] ?]; reflexivity.
Qed.

Lemma main_iteration_cases :
  forall cfg w,
    main_iteration cfg w = main_poll cfg (after_check w) \/
    exists wb,
      refreshed (after_check w) wb /\
      (main_iteration cfg w = main_refresh_failed cfg wb \/
       exists td,
         main_iteration cfg w =
           main_poll cfg (with_locals (set_credential td (locals w)) wb)).
Proof.
  intros cfg w. unfold main_iteration, bind. rewrite token_stale_run.
  destruct (needs_refresh w); [|left; reflexivity].
  right.
  destruct (refresh_access_token_effect (after_check w)) as (token & Htoken & Href).
  exists (snd (refresh_access_token (after_check w))). split; [exact Href|].
  assert (Hloc : locals (snd (refresh_access_token (after_check w))) = locals w).
  { destruct Href as [-> _]. unfold after_check. destruct (truthy _); reflexivity. }
  destruct (refresh_access_token (after_check w)) as [r wb]. cbn in *. subst r.
  destruct token as [td|]; [right; exists td|left; reflexivity].
  cbv [modify_locals get_locals set_locals bind]. rewrite Hloc. reflexivity.
Qed.

(** ** One turn of the loop, path by path *)

(** The paths through [main_step cfg w]: the refresh is skipped, fails or
    succeeds; the poll reports an expired token or a candidate.  Every
    intermediate world is made explicit in terms of [w], of the world [wb]
    after the refresh and of the candidate [m], [e]. *)
Ltac open_poll cfg w0 :=
  let wp := fresh "wp" in
  let Hp := fresh "Hpolled" in
  let Hpoll := fresh "Hpoll" in
  let m := fresh "m" in
  let e := fresh "e" in
  destruct (main_poll_cases cfg w0) as (wp & Hp & [Hpoll | (m & e & Hpoll)]);
  rewrite Hpoll; clear Hpoll;
  destruct Hp as [-> | ->].

Ltac open_turn cfg w :=
  let Hit := fresh "Hit" in
  let wb := fresh "wb" in
  let Href := fresh "Href" in
  let td := fresh "td" in
  unfold main_step, try_except;
  destruct (main_iteration_cases cfg w) as [Hit | (wb & Href & [Hit | (td & Hit)])];
  rewrite Hit; clear Hit;
  [ open_poll cfg (after_check w)
  | rewrite main_refresh_failed_run
  | open_poll cfg (with_locals (set_credential td (locals w)) wb) ];
  rewrite ?main_publish_run.

Ltac use_refreshed :=
  match goal with
  | H : refreshed _ _ |- _ =>
      let Hl := fresh "Hlocals" in
      let Hte := fresh "Htoken_endpoint" in
      let Htr := fresh "Htoken_requests" in
      let Hpe := fresh "Hplayer_endpoint" in
      let Hpr := fresh "Hplayer_requests" in
      let Hge := fresh "Hgithub_endpoint" in
      let Hgr := fresh "Hgithub_requests" in
      let Hc := fresh "Hclock" in
      let writes := fresh "writes" in
      let Htrace := fresh "Htrace" in
      let Hwrites := fresh "Hwrites" in
      destruct H as (Hl & Hte & Htr & Hpe & Hpr & Hge & Hgr & Hc & writes & Htrace & Hwrites)
  end.

Lemma after_check_locals : forall w, locals (after_check w) = locals w.
Proof. intros w; unfold after_check; destruct (truthy _); reflexivity. Qed.

Lemma after_check_github_endpoint :
  forall w, github_endpoint (after_check w) = github_endpoint w.
Proof. intros w; unfold after_check; destruct (truthy _); reflexivity. Qed.

Lemma after_check_github_requests :
  forall w, github_requests (after_check w) = github_requests w.
Proof. intros w; unfold after_check; destruct (truthy _); reflexivity. Qed.

Lemma after_check_trace : forall w, trace (after_check w) = trace w.
Proof. intros w; unfold after_check; destruct (truthy _); reflexivity. Qed.

Lemma after_check_player_requests :
  forall w, player_requests (after_check w) = player_requests w.
Proof. intros w; unfold after_check; destruct (truthy _); reflexivity. Qed.

Lemma after_check_player_endpoint :
  forall w, player_endpoint (after_check w) = player_endpoint w.
Proof. intros w; unfold after_check; destruct (truthy _); reflexivity. Qed.

Lemma after_check_token_requests :
  forall w, token_requests (after_check w) = token_requests w.
Proof. intros w; unfold after_check; destruct (truthy _); reflexivity. Qed.

Lemma after_check_token_endpoint :
  forall w, token_endpoint (after_check w) = token_endpoint w.
Proof. intros w; unfold after_check; destruct (truthy _); reflexivity. Qed.

Lemma after_check_refresh_token :
  forall w, SPOTIFY_REFRESH_TOKEN (after_check w) = SPOTIFY_REFRESH_TOKEN w.
Proof. intros w; unfold after_check; destruct (truthy _); reflexivity. Qed.

Ltac settle :=
  cbn;
  rewrite ?after_check_locals, ?after_check_github_endpoint,
    ?after_check_github_requests, ?after_check_trace,
    ?after_check_player_requests, ?after_check_player_endpoint,
    ?after_check_token_requests, ?after_check_token_endpoint,
    ?after_check_refresh_token in *.






(** ** Debouncing *)

Lemma option_string_eqb_eq :
  forall a b, option_string_eqb a b = true <-> a = b.
Proof.
  intros [a|] [b|]; cbn; split; intros H; try congruence; try discriminate.
  - apply String.eqb_eq in H. congruence.
  - apply String.eqb_eq. congruence.
Qed.

Lemma option_string_eqb_refl : forall a, option_string_eqb a a = true.
Proof. intros a. apply option_string_eqb_eq. reflexivity. Qed.

Lemma env_writes_are_no_github_calls :
  forall evs, forallb is_env_write evs = true -> filter is_github_request evs = [].
Proof.
  induction evs as [|ev evs IH]; cbn; [reflexivity|].
  destruct ev; cbn; try discriminate. exact IH.
Qed.

Lemma publish_needed_same :
  forall cfg f, status_message f = last_status f -> publish_needed cfg f = false.
Proof.
  intros cfg f H. unfold publish_needed. rewrite H, option_string_eqb_refl. reflexivity.
Qed.

#[local] Arguments publish_needed : simpl never.

Ltac not_needed Hsame :=
  match goal with
  | H : publish_needed ?cfg ?f = true |- _ =>
      rewrite (publish_needed_same cfg f) in H by (cbn; congruence); discriminate
  end.

(** When the candidate a turn ends with is the [last_status] it started with,
    the turn sent nothing to the status endpoint. *)
Lemma unchanged_candidate_no_publish :
  forall cfg w,
    status_message (locals (snd (main_step cfg w))) = last_status (locals w) ->
    github_calls (snd (main_step cfg w)) = github_calls w /\
    last_status (locals (snd (main_step cfg w))) = last_status (locals w).
Proof.
  intros cfg w. unfold github_calls.
  open_turn cfg w; try use_refreshed; unfold time_sleep.
  all: settle.
  all: repeat (case_scrutinee; settle).
  all: rewrite ?Hlocals, ?Htrace; settle.
  all: rewrite ?filter_app; cbn; rewrite ?filter_app; cbn;
    rewrite ?(env_writes_are_no_github_calls _ Hwrites), ?app_nil_r.
  all: intros Hsame; try (split; reflexivity).
  all: not_needed Hsame.
Qed.

(** A turn changes [last_status] only to the candidate it ends with. *)
Lemma last_status_step :
  forall cfg w,
    let f := locals w in
    let f' := locals (snd (main_step cfg w)) in
    last_status f' = last_status f \/ last_status f' = status_message f'.
Proof.
  intros cfg w. cbv zeta.
  open_turn cfg w; try use_refreshed; unfold time_sleep.
  all: settle.
  all: repeat (case_scrutinee; settle).
  all: rewrite ?Hlocals; settle; auto.
Qed.

Lemma differ_step :
  forall l c l' c',
    l' = l \/ l' = c' ->
    (differ l' l + differ l' c' <= differ c' c + differ l c)%nat.
Proof.
  intros l c l' c' H. unfold differ.
  destruct (option_string_eqb l' l) eqn:E1, (option_string_eqb l' c') eqn:E2,
           (option_string_eqb c' c) eqn:E3, (option_string_eqb l c) eqn:E4;
    cbn; try lia; exfalso;
    rewrite ?option_string_eqb_eq in *;
    repeat match goal with
           | H : option_string_eqb _ _ = false |- _ =>
               apply not_true_iff_false in H; rewrite option_string_eqb_eq in H
           end;
    destruct H; subst; congruence.
Qed.

Lemma last_cons_default :
  forall (A : Type) (l : list A) (x d : A), last (x :: l) d = last l x.
Proof.
  intros A l. induction l as [|y l IH]; intros x d; [reflexivity|].
  change (last (x :: y :: l) d) with (last (y :: l) d).
  rewrite (IH y d), (IH y x). reflexivity.
Qed.

Lemma debounced_nil : forall w, debounced w [].
Proof. intros w. unfold debounced. cbn. lia. Qed.

Lemma debounced_cons :
  forall w w' ws,
    (last_status (locals w') = last_status (locals w) \/
     last_status (locals w') = status_message (locals w')) ->
    debounced w' ws ->
    debounced w (w' :: ws).
Proof.
  intros w w' ws Hstep Htail.
  pose proof (differ_step (last_status (locals w)) (status_message (locals w))
                _ _ Hstep) as Hd.
  unfold debounced, published_statuses, candidate_messages in *.
  cbn [map transitions].
  fold (differ (last_status (locals w')) (last_status (locals w))).
  fold (differ (status_message (locals w')) (status_message (locals w))).
  replace (last (last_status (locals w') :: map (fun w0 => last_status (locals w0)) ws)
                (last_status (locals w)))
    with (last (map (fun w0 => last_status (locals w0)) ws) (last_status (locals w')))
    by (symmetry; apply last_cons_default).
  replace (last (status_message (locals w') :: map (fun w0 => status_message (locals w0)) ws)
                (status_message (locals w)))
    with (last (map (fun w0 => status_message (locals w0)) ws) (status_message (locals w')))
    by (symmetry; apply last_cons_default).
  lia.
Qed.

Lemma transitions_run :
  forall cfg n w, debounced w (main_worlds cfg n w).
Proof.
  intros cfg n. induction n as [|n IH]; intros w.
  - apply debounced_nil.
  - cbn [main_worlds].
    pose proof (last_status_step cfg w) as Hstep. cbv zeta in Hstep.
    destruct (main_step cfg w) as [r w']. cbn [snd] in Hstep.
    apply debounced_cons; [exact Hstep|].
    destruct r; [apply IH|apply debounced_nil].
Qed.

(** C4. When the candidate of a turn is the [last_status] the turn started
    with, the turn sends nothing to the status endpoint and leaves
    [last_status] as it is; and over every run of the loop that starts with
    candidate and [last_status] equal, [last_status] changes at most as often
    as the candidate message does. *)
Theorem C4_no_duplicate_publish :
  forall cfg n w,
    (status_message (locals (snd (main_step cfg w))) = last_status (locals w) ->
     github_calls (snd (main_step cfg w)) = github_calls w /\
     last_status (locals (snd (main_step cfg w))) = last_status (locals w)) /\
    (status_message (locals w) = last_status (locals w) ->
     (transitions (last_status (locals w)) (published_statuses (main_worlds cfg n w))
      <= transitions (status_message (locals w)) (candidate_messages (main_worlds cfg n w)))%nat).
Proof.
  intros cfg n w. split.
  - apply unchanged_candidate_no_publish.
  - intros Hstart. pose proof (transitions_run cfg n w) as H.
    unfold debounced in H.
    assert (Hzero : differ (last_status (locals w)) (status_message (locals w)) = O).
    { unfold differ. rewrite Hstart, option_string_eqb_refl. reflexivity. }
    lia.
Qed.

(** ** The idle policy *)






(** ** The refresh state *)

Lemma main_iteration_run :
  forall cfg w,
    main_iteration cfg w =
      if needs_refresh w then
        match refresh_access_token (after_check w) with
        | (Return None, wb) => main_refresh_failed cfg wb
        | (Return (Some td), wb) =>
            main_poll cfg (with_locals (set_credential td (locals wb)) wb)
        | (Raise e, wb) => (Raise e, wb)
        end
      else main_poll cfg (after_check w).
Proof.
  intros cfg w. unfold main_iteration, bind. rewrite token_stale_run.
  destruct (needs_refresh w); [|reflexivity].
  destruct (refresh_access_token (after_check w)) as [[[td|]|e] wb]; reflexivity.
Qed.






Lemma no_token_needs_refresh :
  forall w, truthy (access_token (locals w)) = false -> needs_refresh w = true.
Proof.
  intros w H. unfold needs_refresh, stale_at. rewrite H. reflexivity.
Qed.



(** ** The answer [invalid_grant] *)

Lemma invalid_grant_rejected :
  forall kvs, refresh_rejected (invalid_grant_response kvs) = true.
Proof. reflexivity. Qed.



(** ** The expired token *)

Lemma main_poll_unauthorized :
  forall cfg w,
    unauthorized (player_endpoint w (player_requests w)) ->
    main_poll cfg w =
      (Return tt,
       with_locals (set_access_token JNull (locals w))
         (with_player_request (PlayerRequest (access_token (locals w))) w)).
Proof.
  intros cfg w [body H].
  cbv [main_poll modify_locals get_locals set_locals bind ret].
  rewrite (get_current_playing_unauthorized cfg _ w body H). reflexivity.
Qed.

Lemma main_publish_trace :
  forall cfg w, exists rest, trace (snd (main_publish cfg w)) = (trace w ++ rest)%list.
Proof.
  intros cfg w. rewrite main_publish_run. unfold time_sleep.
  repeat (case_scrutinee; settle); rewrite <- ?app_assoc;
    solve [eexists; reflexivity | exists []; rewrite app_nil_r; reflexivity].
Qed.

Lemma main_poll_trace :
  forall cfg w,
    exists rest,
      trace (snd (main_poll cfg w)) =
        (trace w ++ PlayerRequest (access_token (locals w)) :: rest)%list.
Proof.
  intros cfg w. open_poll cfg w.
  - exists []. reflexivity.
  - exists []. reflexivity.
  - match goal with
    | |- context [main_publish cfg ?w0] =>
        destruct (main_publish_trace cfg w0) as [rest ->]
    end.
    cbn. rewrite <- app_assoc. eexists. reflexivity.
  - match goal with
    | |- context [main_publish cfg ?w0] =>
        destruct (main_publish_trace cfg w0) as [rest ->]
    end.
    cbn. rewrite <- app_assoc. eexists. reflexivity.
Qed.

(** C8. When the player endpoint answers 401, the rest of the turn is skipped:
    the turn ends without a sleep and without a change of [last_status], with
    no access token, so that the loop is in its refresh state; the next turn
    asks for a token first and, once it has one, polls with it in the same
    turn. *)
Theorem C8_expired_token_forces_refresh :
  forall cfg w,
    unauthorized (player_endpoint w (player_requests w)) ->
    main_poll cfg w =
      (Return tt,
       with_locals (set_access_token JNull (locals w))
         (with_player_request (PlayerRequest (access_token (locals w))) w)) /\
    (needs_refresh w = false ->
     let w1 := snd (main_step cfg w) in
     fst (main_step cfg w) = Return tt /\
     trace w1 = (trace w ++ [PlayerRequest (access_token (locals w))])%list /\
     last_status (locals w1) = last_status (locals w) /\
     needs_refresh w1 = true /\
     forall td,
       fst (refresh_access_token w1) = Return (Some td) ->
       exists writes rest,
         forallb is_env_write writes = true /\
         trace (snd (main_step cfg w1)) =
           (trace w1 ++ TokenRequest (SPOTIFY_REFRESH_TOKEN w1) :: writes
                     ++ PlayerRequest (td_access_token td) :: rest)%list).
Proof.
  intros cfg w H401. split; [apply main_poll_unauthorized; exact H401|].
  intros Hfresh w1.
  assert (Hstep : main_step cfg w =
            (Return tt,
             with_locals (set_access_token JNull (locals w))
               (with_player_request (PlayerRequest (access_token (locals w)))
                  (after_check w)))).
  { unfold main_step, try_except. rewrite main_iteration_run, Hfresh.
    rewrite main_poll_unauthorized
      by (rewrite after_check_player_endpoint, after_check_player_requests; exact H401).
    rewrite after_check_locals. reflexivity. }
  subst w1. rewrite Hstep. cbn [fst snd].
  set (w1 := with_locals _ _).
  assert (Hstale : needs_refresh w1 = true) by (apply no_token_needs_refresh; reflexivity).
  split; [reflexivity|].
  split; [subst w1; settle; reflexivity|].
  split; [subst w1; settle; reflexivity|].
  split; [exact Hstale|].
  - intros td Hok.
    assert (Hcheck : after_check w1 = w1) by reflexivity.
    unfold main_step, try_except. rewrite main_iteration_run, Hstale, Hcheck.
    destruct (refresh_access_token_effect w1) as (token & _ & Href).
    destruct (refresh_access_token w1) as [r wb]. cbn [fst snd] in *. subst r.
    use_refreshed.
    destruct (main_poll_trace cfg (with_locals (set_credential td (locals wb)) wb))
      as [rest Hrest].
    exists writes.
    destruct (main_poll cfg (with_locals (set_credential td (locals wb)) wb))
      as [[[]|[name|code]] w2]; cbn [fst snd] in *.
    + exists rest. split; [exact Hwrites|]. rewrite Hrest. cbn. rewrite Htrace.
      rewrite <- app_assoc. reflexivity.
    + unfold time_sleep. destruct (sleep_accepts _); cbn.
      * exists (rest ++ [Sleep (POLL_INTERVAL cfg)])%list.
        split; [exact Hwrites|]. rewrite Hrest. cbn. rewrite Htrace.
        rewrite <- !app_assoc. cbn. rewrite <- app_assoc. reflexivity.
      * exists rest. split; [exact Hwrites|]. rewrite Hrest. cbn. rewrite Htrace.
        rewrite <- app_assoc. reflexivity.
    + exists rest. split; [exact Hwrites|]. rewrite Hrest. cbn. rewrite Htrace.
      rewrite <- app_assoc. reflexivity.
Qed.

(** ** Rotation of the refresh token *)

Lemma entry_prefix :
  forall key rest, startswith (key ++ "=" ++ rest) (key ++ "=") = true.
Proof.
  intros key rest. unfold startswith.
  replace (key ++ "=" ++ rest) with ((key ++ "=") ++ rest)
    by (rewrite !append_assoc; reflexivity).
  apply prefix_append.
Qed.

Lemma entry_full_line :
  forall key value,
    contains_char newline (key ++ "=" ++ py_str value) = false ->
    full_line (key ++ "=" ++ py_str value ++ String newline EmptyString) = true.
Proof.
  intros key value Hclean.
  replace (key ++ "=" ++ py_str value ++ String newline EmptyString)
    with ((key ++ "=" ++ py_str value) ++ String newline EmptyString)
    by (rewrite !append_assoc; reflexivity).
  apply full_line_append_newline. exact Hclean.
Qed.

(** The text [update_env_file] writes has no CR when the entry has none: it
    is read back as it was written. *)
Lemma env_text_after_clean :
  forall key value text,
    contains_char carriage_return (key ++ "=" ++ py_str value) = false ->
    contains_char carriage_return (env_text_after key value text) = false.
Proof.
  intros key value text Hclean. unfold env_text_after.
  set (entry := key ++ "=" ++ py_str value ++ String newline EmptyString).
  assert (Hentry : contains_char carriage_return entry = false).
  { unfold entry.
    replace (key ++ "=" ++ py_str value ++ String newline EmptyString)
      with ((key ++ "=" ++ py_str value) ++ String newline EmptyString)
      by (rewrite !append_assoc; reflexivity).
    rewrite contains_char_append, Hclean. reflexivity. }
  assert (Hlines : existsb (contains_char carriage_return)
                     (readlines (universal_newlines text)) = false)
    by (rewrite contains_char_readlines; apply universal_newlines_clean).
  destruct (patch_first (key ++ "=") entry (readlines (universal_newlines text)))
    as [lines' updated] eqn:Hpatch.
  pose proof (patch_first_exists _ _ _ _ _ _ Hpatch Hlines Hentry) as Hpatched.
  rewrite contains_char_writelines.
  destruct updated; [exact Hpatched|].
  rewrite existsb_app, Hpatched. cbn [existsb]. rewrite Hentry. reflexivity.
Qed.

(** The lines of the new text, as the next reader gets them, are the patched
    lines. *)
Lemma env_text_after_lines :
  forall key value text,
    single_line (key ++ "=" ++ py_str value) = true ->
    terminated (universal_newlines text) = true \/ env_entry key text <> None ->
    readlines (universal_newlines (env_text_after key value text)) =
      let (lines', updated) :=
        patch_first (key ++ "=")
          (key ++ "=" ++ py_str value ++ String newline EmptyString)
          (readlines (universal_newlines text)) in
      if updated
      then lines'
      else (lines' ++ [(key ++ "=" ++ py_str value
                         ++ String newline EmptyString)%string])%list.
Proof.
  intros key value text Hline Hshape.
  destruct (single_line_parts _ Hline) as [Hlf Hcr].
  rewrite (universal_newlines_id _ (env_text_after_clean key value text Hcr)).
  unfold env_text_after, env_entry in *.
  set (entry := key ++ "=" ++ py_str value ++ String newline EmptyString) in *.
  pose proof (entry_full_line key value Hlf) as Hfull. fold entry in Hfull.
  pose proof (entry_prefix key (py_str value ++ String newline EmptyString)) as Hprefix.
  fold entry in Hprefix.
  destruct (patch_first (key ++ "=") entry (readlines (universal_newlines text)))
    as [lines' updated] eqn:Hpatch.
  destruct updated.
  - apply readlines_writelines.
    apply (patch_first_updated _ _ _ _ Hpatch Hprefix Hfull (readlines_proper _)).
  - destruct (patch_first_missing _ _ _ _ Hpatch) as [-> Hnone].
    destruct Hshape as [Hterm|Hsome]; [|contradiction].
    apply readlines_writelines.
    apply proper_lines_append; [apply readlines_terminated; exact Hterm|exact Hfull].
Qed.

(** After the update the entry of the key is the new entry. *)
Lemma env_text_after_entry :
  forall key value text,
    single_line (key ++ "=" ++ py_str value) = true ->
    terminated (universal_newlines text) = true \/ env_entry key text <> None ->
    env_entry key (env_text_after key value text) =
      Some (key ++ "=" ++ py_str value ++ String newline EmptyString).
Proof.
  intros key value text Hline Hshape. unfold env_entry at 1.
  rewrite (env_text_after_lines key value text Hline Hshape).
  destruct (single_line_parts _ Hline) as [Hlf _].
  unfold env_entry in Hshape.
  set (entry := key ++ "=" ++ py_str value ++ String newline EmptyString) in *.
  pose proof (entry_full_line key value Hlf) as Hfull. fold entry in Hfull.
  pose proof (entry_prefix key (py_str value ++ String newline EmptyString)) as Hprefix.
  fold entry in Hprefix.
  destruct (patch_first (key ++ "=") entry (readlines (universal_newlines text)))
    as [lines' updated] eqn:Hpatch.
  destruct updated.
  - apply (patch_first_updated _ _ _ _ Hpatch Hprefix Hfull (readlines_proper _)).
  - destruct (patch_first_missing _ _ _ _ Hpatch) as [-> Hnone].
    apply find_line_append; assumption.
Qed.

(** A refresh token without a line break gives an entry on one line. *)
Lemma refresh_token_entry_single_line :
  forall new,
    single_line new = true ->
    single_line (REFRESH_TOKEN_KEY ++ "=" ++ py_str (JStr new)) = true.
Proof.
  intros new H. destruct (single_line_parts _ H) as [Hlf Hcr].
  unfold single_line. cbn [py_str].
  rewrite !contains_char_append.
  change (contains_char newline REFRESH_TOKEN_KEY) with false.
  change (contains_char carriage_return REFRESH_TOKEN_KEY) with false.
  change (contains_char newline "=") with false.
  change (contains_char carriage_return "=") with false.
  rewrite Hlf, Hcr. reflexivity.
Qed.

Lemma same_or_no_refresh_token_keeps :
  forall kvs current,
    same_or_no_refresh_token kvs current ->
    rotates (field_or "refresh_token" kvs JNull) current = false.
Proof.
  intros kvs current [H|(s & H & ->)]; unfold rotates, field_or; rewrite H; cbn.
  - reflexivity.
  - rewrite String.eqb_refl. apply andb_false_r.
Qed.

(** A 200 answer that does not rotate the refresh token. *)
Lemma refresh_without_rotation :
  forall w kvs seconds,
    token_endpoint w (token_requests w) = ok_response (JObj kvs) ->
    as_int (field_or "expires_in" kvs (JNum 3600)) = Some seconds ->
    representable (clock w (clock_reads w)) (seconds * 1000000) = true ->
    rotates (field_or "refresh_token" kvs JNull) (SPOTIFY_REFRESH_TOKEN w) = false ->
    refresh_access_token w =
      (Return (Some (credential kvs seconds (clock w (clock_reads w)))),
       with_clock_read
         (with_token_request (TokenRequest (SPOTIFY_REFRESH_TOKEN w)) w)).
Proof.
  intros w kvs seconds Hresp Hexp Hrange Hrot.
  rewrite (refresh_ok_run w kvs Hresp), Hexp, Hrange, Hrot. reflexivity.
Qed.

(** C9. Two calls of [refresh_access_token] in a row, each answered with a
    200 that carries the current refresh token or none and an [expires_in]
    that leads from the clock reading to a value of [datetime], return two
    credentials, leave the [.env] file and the global as they are, and add
    only the two requests to the trace; and whatever the answer, the file is
    written only when the answer is a 200 whose refresh token is there and is
    not the current one. *)
Theorem C9_refresh_twice_no_write :
  forall w kvs1 kvs2 seconds1 seconds2,
    token_endpoint w (token_requests w) = ok_response (JObj kvs1) ->
    token_endpoint w (S (token_requests w)) = ok_response (JObj kvs2) ->
    as_int (field_or "expires_in" kvs1 (JNum 3600)) = Some seconds1 ->
    as_int (field_or "expires_in" kvs2 (JNum 3600)) = Some seconds2 ->
    representable (clock w (clock_reads w)) (seconds1 * 1000000) = true ->
    representable (clock w (S (clock_reads w))) (seconds2 * 1000000) = true ->
    same_or_no_refresh_token kvs1 (SPOTIFY_REFRESH_TOKEN w) ->
    same_or_no_refresh_token kvs2 (SPOTIFY_REFRESH_TOKEN w) ->
    let w1 := snd (refresh_access_token w) in
    let w2 := snd (refresh_access_token w1) in
    fst (refresh_access_token w) =
      Return (Some (credential kvs1 seconds1 (clock w (clock_reads w)))) /\
    fst (refresh_access_token w1) =
      Return (Some (credential kvs2 seconds2 (clock w (S (clock_reads w))))) /\
    env_file w2 = env_file w /\
    SPOTIFY_REFRESH_TOKEN w2 = SPOTIFY_REFRESH_TOKEN w /\
    trace w2 = (trace w ++ [TokenRequest (SPOTIFY_REFRESH_TOKEN w);
                            TokenRequest (SPOTIFY_REFRESH_TOKEN w)])%list /\
    (forall w0,
        filter is_env_write (trace (snd (refresh_access_token w0)))
          <> filter is_env_write (trace w0) ->
        exists kvs,
          token_endpoint w0 (token_requests w0) = ok_response (JObj kvs) /\
          truthy (field_or "refresh_token" kvs JNull) = true /\
          py_eq (field_or "refresh_token" kvs JNull) (SPOTIFY_REFRESH_TOKEN w0) = false).
Proof.
  intros w kvs1 kvs2 s1 s2 H1 H2 He1 He2 Hin1 Hin2 Hs1 Hs2 w1 w2.
  pose proof (same_or_no_refresh_token_keeps _ _ Hs1) as Hr1.
  pose proof (same_or_no_refresh_token_keeps _ _ Hs2) as Hr2.
  pose proof (refresh_without_rotation w kvs1 s1 H1 He1 Hin1 Hr1) as Hrun1.
  assert (Hw1 : w1 = with_clock_read
                    (with_token_request (TokenRequest (SPOTIFY_REFRESH_TOKEN w)) w))
    by (unfold w1; rewrite Hrun1; reflexivity).
  assert (Hrun2 : refresh_access_token w1 =
            (Return (Some (credential kvs2 s2 (clock w (S (clock_reads w))))),
             with_clock_read
               (with_token_request (TokenRequest (SPOTIFY_REFRESH_TOKEN w)) w1))).
  { rewrite Hw1.
    exact (refresh_without_rotation
             (with_clock_read
                (with_token_request (TokenRequest (SPOTIFY_REFRESH_TOKEN w)) w))
             kvs2 s2 H2 He2 Hin2 Hr2). }
  split; [rewrite Hrun1; reflexivity|].
  split; [rewrite Hrun2; reflexivity|].
  unfold w2. rewrite Hrun2, Hw1.
  split; [reflexivity|]. split; [reflexivity|].
  split; [cbn; rewrite <- app_assoc; reflexivity|].
  intros w0 Hwrite.
  destruct (token_endpoint w0 (token_requests w0)) as [|[code body]] eqn:Hresp.
  { exfalso. apply Hwrite. rewrite refresh_rejected_run by (rewrite Hresp; reflexivity).
    cbn. rewrite filter_app. cbn. apply app_nil_r. }
  destruct (code =? 200) eqn:Hcode.
  2:{ exfalso. apply Hwrite.
      rewrite refresh_rejected_run by (rewrite Hresp; cbn; rewrite Hcode; reflexivity).
      cbn. rewrite filter_app. cbn. apply app_nil_r. }
  apply Z.eqb_eq in Hcode. subst code.
  destruct body as [[| | | | |kvs]|];
    try (exfalso; apply Hwrite;
         rewrite (refresh_malformed_run w0 _ Hresp) by (cbn; congruence);
         cbn; rewrite filter_app; cbn; apply app_nil_r).
  exists kvs. split; [reflexivity|].
  destruct (rotates (field_or "refresh_token" kvs JNull) (SPOTIFY_REFRESH_TOKEN w0))
    eqn:Hrot.
  - unfold rotates in Hrot. apply andb_true_iff in Hrot. destruct Hrot as [Ht Hne].
    apply negb_true_iff in Hne. split; assumption.
  - exfalso. apply Hwrite. rewrite (refresh_ok_run w0 kvs Hresp), Hrot.
    cbn. rewrite filter_app. cbn. apply app_nil_r.
Qed.

(** C2, as the code has it.  When a 200 answer carries a refresh token that is
    not empty and is not the current one, [refresh_access_token] has set the
    global to it when it returns.  When the [.env] file exists and can be
    opened for reading and for writing, the file has been rewritten by then:
    it holds what the write left of the new text, all of it unless the write
    failed on the way; after a write that went through, the entry for
    [SPOTIFY_REFRESH_TOKEN] is the new token, provided the token has no line
    break (LF or CR) and the old text ended with a line break or already had
    such an entry.  When the file is missing or cannot be opened for reading
    or for writing, the file is as it was and only the global holds the new
    token. *)
Theorem C2_rotation_persisted_when_env_writable :
  forall w kvs new,
    token_endpoint w (token_requests w) = ok_response (JObj kvs) ->
    dict_lookup "refresh_token" kvs = Some (JStr new) ->
    new <> EmptyString ->
    py_eq (JStr new) (SPOTIFY_REFRESH_TOKEN w) = false ->
    let w' := snd (refresh_access_token w) in
    SPOTIFY_REFRESH_TOKEN w' = JStr new /\
    (forall text,
        env_file w = Some text -> env_readable w = true -> env_writable w = true ->
        env_file w' =
          Some (text_written w (env_text_after REFRESH_TOKEN_KEY (JStr new) text)) /\
        (env_write_cut w = None ->
         single_line new = true ->
         terminated (universal_newlines text) = true
         \/ env_entry REFRESH_TOKEN_KEY text <> None ->
         exists text',
           env_file w' = Some text' /\
           env_entry REFRESH_TOKEN_KEY text' =
             Some (REFRESH_TOKEN_KEY ++ "=" ++ new ++ String newline EmptyString))) /\
    (env_file w = None \/ env_readable w = false \/ env_writable w = false ->
     env_file w' = env_file w).
Proof.
  intros w kvs new Hresp Hnew Hne Hdiff w'.
  assert (Hrot : rotates (field_or "refresh_token" kvs JNull) (SPOTIFY_REFRESH_TOKEN w)
                 = true).
  { unfold rotates, field_or. rewrite Hnew, Hdiff. cbn.
    apply String.eqb_neq in Hne. rewrite Hne. reflexivity. }
  assert (Hw' : w' = with_clock_read
                  (with_refresh_token (JStr new)
                     (snd (update_env_file REFRESH_TOKEN_KEY (JStr new)
                             (with_token_request
                                (TokenRequest (SPOTIFY_REFRESH_TOKEN w)) w))))).
  { unfold w'. rewrite (refresh_ok_run w kvs Hresp), Hrot.
    unfold field_or. rewrite Hnew. reflexivity. }
  assert (Hfile' : env_file w' =
            match env_file w with
            | Some text =>
                if env_readable w && env_writable w
                then Some (text_written w (env_text_after REFRESH_TOKEN_KEY (JStr new) text))
                else Some text
            | None => None
            end).
  { rewrite Hw'.
    exact (update_env_file_file REFRESH_TOKEN_KEY (JStr new)
             (with_token_request (TokenRequest (SPOTIFY_REFRESH_TOKEN w)) w)). }
  split; [rewrite Hw'; reflexivity|]. split.
  - intros text Hfile Hread Hwrite.
    rewrite Hfile, Hread, Hwrite in Hfile'. cbn [andb] in Hfile'.
    split; [exact Hfile'|].
    intros Hcut Hline Hshape. unfold text_written in Hfile'. rewrite Hcut in Hfile'.
    eexists. split; [exact Hfile'|].
    exact (env_text_after_entry REFRESH_TOKEN_KEY (JStr new) text
             (refresh_token_entry_single_line new Hline) Hshape).
  - intros Hcase. rewrite Hfile'.
    destruct (env_file w) as [text|] eqn:Hfile; [|reflexivity].
    destruct Hcase as [H|[H|H]]; [discriminate| |]; rewrite H;
      rewrite ?andb_false_r; reflexivity.
Qed.

(** * Further properties of the code *)

(** ** [update_env_file]: what a call does to the file *)

Lemma patch_first_split :
  forall prefix entry before old after,
    find_line prefix before = None ->
    startswith old prefix = true ->
    patch_first prefix entry (before ++ old :: after)
      = ((before ++ entry :: after)%list, true).
Proof.
  intros prefix entry before old after. induction before as [|l before IH];
    intros Hnone Hold; cbn [patch_first app find_line] in *.
  - rewrite Hold. reflexivity.
  - destruct (startswith l prefix); [discriminate|]. rewrite (IH Hnone Hold). reflexivity.
Qed.

Lemma patch_first_absent :
  forall prefix entry lines,
    find_line prefix lines = None ->
    patch_first prefix entry lines = (lines, false).
Proof.
  intros prefix entry. induction lines as [|l lines IH]; intros Hnone;
    cbn [patch_first find_line] in *; [reflexivity|].
  destruct (startswith l prefix); [discriminate|]. rewrite (IH Hnone). reflexivity.
Qed.

Lemma patch_first_same :
  forall prefix entry lines,
    find_line prefix lines = Some entry ->
    patch_first prefix entry lines = (lines, true).
Proof.
  intros prefix entry. induction lines as [|l lines IH]; intros Hfind;
    cbn [patch_first find_line] in *; [discriminate|].
  destruct (startswith l prefix).
  - injection Hfind as ->. reflexivity.
  - rewrite (IH Hfind). reflexivity.
Qed.

(** X1. [update_env_file] never raises.  When the file is missing, or cannot
    be opened for reading or for writing, it returns [False] and has changed
    nothing: not the file, not [os.environ], and nothing was written. *)
Theorem X1_update_env_file_fails_without_effect :
  forall key value w,
    (exists ok, fst (update_env_file key value w) = Return ok) /\
    (env_file w = None \/ env_readable w = false \/ env_writable w = false ->
     update_env_file key value w = (Return false, w)).
Proof.
  intros key value w. rewrite update_env_file_run. split.
  - destruct (env_file w) as [text|]; [|eexists; reflexivity].
    destruct (env_readable w && env_writable w); [|eexists; reflexivity].
    cbv zeta. destruct (env_write_cut w); [eexists; reflexivity|].
    destruct value; try (eexists; reflexivity).
    destruct (legal_variable_name key && negb (contains_char nul s));
      eexists; reflexivity.
  - intros Hcase. destruct (env_file w) as [text|]; [|reflexivity].
    destruct Hcase as [H|[H|H]]; [discriminate| |]; rewrite H;
      rewrite ?andb_false_r; reflexivity.
Qed.

(** X2. [update_env_file] returns [True] only when the value is a string
    without NUL, the key is a name [os.environ] takes, the file was there and
    has been rewritten in full, and [os.environ] holds the value under the
    key.  A value that is not a string or holds a NUL, and a key that is not
    a legal name, are written to the file all the same, and the call then
    returns [False]: the failure of [os.environ[key] = value] comes after the
    write. *)
Theorem X2_update_env_file_true_means_saved :
  forall key value w,
    (fst (update_env_file key value w) = Return true ->
     exists s text,
       value = JStr s /\ contains_char nul s = false /\
       legal_variable_name key = true /\
       env_file w = Some text /\ env_write_cut w = None /\
       env_file (snd (update_env_file key value w))
         = Some (env_text_after key value text) /\
       os_environ (snd (update_env_file key value w)) = (key, s) :: os_environ w) /\
    (forall text,
        env_file w = Some text -> env_readable w = true -> env_writable w = true ->
        env_write_cut w = None ->
        (forall s, value = JStr s ->
                   legal_variable_name key = false \/ contains_char nul s = true) ->
        update_env_file key value w
          = (Return false, with_env_file (env_text_after key value text) w)).
Proof.
  intros key value w. rewrite update_env_file_run. split.
  - destruct (env_file w) as [text|]; [|discriminate].
    destruct (env_readable w && env_writable w); [|discriminate].
    cbv zeta. unfold text_written.
    destruct (env_write_cut w); [discriminate|].
    destruct value; try discriminate.
    destruct (legal_variable_name key) eqn:Hkey; [|discriminate].
    destruct (contains_char nul s) eqn:Hnul; [discriminate|].
    intros _. exists s, text. repeat split. exact Hnul.
  - intros text Hfile Hread Hwrite Hcut Hbad. rewrite Hfile, Hread, Hwrite. cbn [andb].
    cbv zeta. unfold text_written. rewrite Hcut.
    destruct value; try reflexivity.
    destruct (Hbad s eq_refl) as [H|H]; rewrite H; rewrite ?andb_false_r; reflexivity.
Qed.

(** When a line of the file starts with [key=], the first such line, and
    only that line, is replaced by the new entry: the lines before it, the
    lines after it, later lines for the same key included, are written back
    as they were read. *)
Lemma env_text_after_replaces_first :
  forall key value text before old after,
    readlines (universal_newlines text) = (before ++ old :: after)%list ->
    find_line (key ++ "=") before = None ->
    startswith old (key ++ "=") = true ->
    env_text_after key value text =
      writelines (before
                  ++ (key ++ "=" ++ py_str value ++ String newline EmptyString)
                  :: after).
Proof.
  intros key value text before old after Hlines Hnone Hold.
  unfold env_text_after. rewrite Hlines.
  rewrite (patch_first_split _ _ before old after Hnone Hold). reflexivity.
Qed.

(** When no line of the file starts with [key=], the new text is the text
    that was read followed by the new entry, whether or not it ended with a
    line break. *)
Lemma env_text_after_appends :
  forall key value text,
    env_entry key text = None ->
    env_text_after key value text =
      universal_newlines text
      ++ key ++ "=" ++ py_str value ++ String newline EmptyString.
Proof.
  intros key value text Hnone. unfold env_text_after, env_entry in *.
  rewrite (patch_first_absent _ _ _ Hnone).
  rewrite writelines_app, writelines_readlines.
  unfold writelines at 1. cbn [concat]. reflexivity.
Qed.

Lemma prefix_split :
  forall p s, String.prefix p s = true -> exists r, s = p ++ r.
Proof.
  induction p as [|a p IH]; intros s H.
  - exists s. reflexivity.
  - destruct s as [|b s]; cbn [String.prefix] in H; [discriminate|].
    destruct (ascii_dec a b) as [->|_]; [|discriminate].
    destruct (IH s H) as [r ->]. exists r. reflexivity.
Qed.

Lemma other_key_is_no_prefix :
  forall key' key rest,
    key <> key' ->
    contains_char "=" key = false ->
    contains_char "=" key' = false ->
    String.prefix (key' ++ "=") (key ++ "=" ++ rest) = false.
Proof.
  induction key' as [|a key' IH]; intros key rest Hne Hkey Hkey'.
  - destruct key as [|b key]; [congruence|].
    cbn [append String.prefix]. cbn [contains_char] in Hkey.
    destruct (ascii_dec "=" b) as [<-|_]; [|reflexivity].
    rewrite Ascii.eqb_refl in Hkey. discriminate.
  - cbn [contains_char] in Hkey'.
    destruct (Ascii.eqb "=" a) eqn:Ha; [discriminate|].
    destruct key as [|b key]; cbn [append String.prefix].
    + destruct (ascii_dec a "=") as [->|_]; [|reflexivity].
      rewrite Ascii.eqb_refl in Ha. discriminate.
    + destruct (ascii_dec a b) as [->|_]; [|reflexivity].
      cbn [contains_char] in Hkey. rewrite Ha in Hkey.
      apply IH; [congruence|exact Hkey|exact Hkey'].
Qed.

Lemma patch_first_keeps_other_prefix :
  forall p p' entry lines lines' updated,
    patch_first p entry lines = (lines', updated) ->
    (forall l, startswith l p = true -> startswith l p' = false) ->
    startswith entry p' = false ->
    find_line p' lines' = find_line p' lines.
Proof.
  intros p p' entry. induction lines as [|l lines IH]; intros lines' updated H Hother He.
  - injection H as <- _. reflexivity.
  - cbn [patch_first] in H. destruct (startswith l p) eqn:Hl.
    + injection H as <- _. cbn [find_line]. rewrite He, (Hother l Hl). reflexivity.
    + destruct (patch_first p entry lines) as [rest' u] eqn:Hrest.
      injection H as <- _. cbn [find_line].
      destruct (startswith l p'); [reflexivity|]. exact (IH rest' u eq_refl Hother He).
Qed.

Lemma find_line_app_other :
  forall p' entry lines,
    startswith entry p' = false ->
    find_line p' (lines ++ [entry]) = find_line p' lines.
Proof.
  intros p' entry. induction lines as [|l lines IH]; intros He; cbn [app find_line].
  - rewrite He. reflexivity.
  - destruct (startswith l p'); [reflexivity|]. exact (IH He).
Qed.

(** An update for [key] leaves the entry of every other key as it is
    (keys without ["="]; a value without a line break; a text that ends with a
    line break or has an entry for [key] already). *)
Lemma env_text_after_keeps_other_entries :
  forall key key' value text,
    key <> key' ->
    contains_char "=" key = false ->
    contains_char "=" key' = false ->
    single_line (key ++ "=" ++ py_str value) = true ->
    terminated (universal_newlines text) = true \/ env_entry key text <> None ->
    env_entry key' (env_text_after key value text) = env_entry key' text.
Proof.
  intros key key' value text Hne Hkey Hkey' Hline Hshape.
  unfold env_entry at 1 2. rewrite (env_text_after_lines key value text Hline Hshape).
  assert (Hother : forall l, startswith l (key ++ "=") = true ->
                             startswith l (key' ++ "=") = false).
  { intros l Hl. destruct (prefix_split _ _ Hl) as [r ->]. unfold startswith.
    rewrite append_assoc. apply other_key_is_no_prefix; assumption. }
  assert (Hentry : startswith (key ++ "=" ++ py_str value ++ String newline EmptyString)
                     (key' ++ "=") = false).
  { unfold startswith. apply other_key_is_no_prefix; assumption. }
  destruct (patch_first _ _ _) as [lines' updated] eqn:Hpatch.
  pose proof (patch_first_keeps_other_prefix _ _ _ _ _ _ Hpatch Hother Hentry) as Hkeep.
  destruct updated; [exact Hkeep|].
  rewrite (find_line_app_other _ _ _ Hentry). exact Hkeep.
Qed.

(** Updating twice with the same key and value gives the text of the first
    update. *)
Lemma env_text_after_idempotent :
  forall key value text,
    single_line (key ++ "=" ++ py_str value) = true ->
    terminated (universal_newlines text) = true \/ env_entry key text <> None ->
    env_text_after key value (env_text_after key value text)
      = env_text_after key value text.
Proof.
  intros key value text Hline Hshape.
  pose proof (env_text_after_entry key value text Hline Hshape) as Hentry.
  destruct (single_line_parts _ Hline) as [_ Hcr].
  unfold env_entry in Hentry.
  unfold env_text_after at 1.
  rewrite (patch_first_same _ _ _ Hentry).
  rewrite writelines_readlines.
  apply universal_newlines_id, env_text_after_clean. exact Hcr.
Qed.

(** The file after a call that could open it and write it in full. *)
Lemma update_env_file_text :
  forall key value w text,
    env_file w = Some text -> env_readable w = true -> env_writable w = true ->
    env_write_cut w = None ->
    env_file (snd (update_env_file key value w)) = Some (env_text_after key value text) /\
    env_readable (snd (update_env_file key value w)) = true /\
    env_writable (snd (update_env_file key value w)) = true /\
    env_write_cut (snd (update_env_file key value w)) = None.
Proof.
  intros key value w text Hfile Hread Hwrite Hcut.
  rewrite update_env_file_run, Hfile, Hread, Hwrite. cbn [andb]. cbv zeta.
  unfold text_written. rewrite Hcut.
  destruct value; try (cbn; auto; fail).
  destruct (legal_variable_name key && negb (contains_char nul s)); cbn; auto.
Qed.

(** X3. When a line of the [.env] file, as it is read, starts with [key=],
    [update_env_file] replaces the first such line, and only that line, by
    [key=value]: the lines before it and the lines after it, later lines for
    the same key included, are written back as they were read, that is with
    LF for every line break of the file. *)
Theorem X3_update_replaces_first_entry_only :
  forall key value w text before old after,
    env_file w = Some text -> env_readable w = true -> env_writable w = true ->
    env_write_cut w = None ->
    readlines (universal_newlines text) = (before ++ old :: after)%list ->
    find_line (key ++ "=") before = None ->
    startswith old (key ++ "=") = true ->
    env_file (snd (update_env_file key value w)) =
      Some (writelines (before
                        ++ (key ++ "=" ++ py_str value ++ String newline EmptyString)
                        :: after)).
Proof.
  intros key value w text before old after Hfile Hread Hwrite Hcut Hlines Hnone Hold.
  destruct (update_env_file_text key value w text Hfile Hread Hwrite Hcut) as [-> _].
  rewrite (env_text_after_replaces_first key value text before old after); auto.
Qed.

(** X4. When no line of the [.env] file, as it is read, starts with [key=],
    the file after [update_env_file] is the text that was read (the old text
    with LF for every line break) followed by [key=value] and a line break,
    whether or not the old text ended with a line break; if it did not, the
    new entry is on the last line of the old text. *)
Theorem X4_update_appends_missing_entry :
  forall key value w text,
    env_file w = Some text -> env_readable w = true -> env_writable w = true ->
    env_write_cut w = None ->
    env_entry key text = None ->
    env_file (snd (update_env_file key value w)) =
      Some (universal_newlines text
            ++ key ++ "=" ++ py_str value ++ String newline EmptyString).
Proof.
  intros key value w text Hfile Hread Hwrite Hcut Hnone.
  destruct (update_env_file_text key value w text Hfile Hread Hwrite Hcut) as [-> _].
  rewrite (env_text_after_appends key value text Hnone). reflexivity.
Qed.

(** X5. [update_env_file] for one key leaves the entry of every other key as
    it was read, for keys without ["="], a value without a line break (LF or
    CR), and a text that ends with a line break or has an entry for the key
    already. *)
Theorem X5_update_keeps_other_entries :
  forall key key' value w text,
    env_file w = Some text -> env_readable w = true -> env_writable w = true ->
    env_write_cut w = None ->
    key <> key' ->
    contains_char "=" key = false ->
    contains_char "=" key' = false ->
    single_line (key ++ "=" ++ py_str value) = true ->
    terminated (universal_newlines text) = true \/ env_entry key text <> None ->
    exists text',
      env_file (snd (update_env_file key value w)) = Some text' /\
      env_entry key' text' = env_entry key' text.
Proof.
  intros key key' value w text Hfile Hread Hwrite Hcut Hne Hkey Hkey' Hline Hshape.
  destruct (update_env_file_text key value w text Hfile Hread Hwrite Hcut) as [Htext _].
  eexists. split; [exact Htext|].
  apply env_text_after_keeps_other_entries; assumption.
Qed.

(** X6. A second [update_env_file] with the same key and value leaves the
    file as the first one wrote it (same conditions on value and text). *)
Theorem X6_update_is_idempotent :
  forall key value w text,
    env_file w = Some text -> env_readable w = true -> env_writable w = true ->
    env_write_cut w = None ->
    single_line (key ++ "=" ++ py_str value) = true ->
    terminated (universal_newlines text) = true \/ env_entry key text <> None ->
    let w1 := snd (update_env_file key value w) in
    env_file (snd (update_env_file key value w1)) = env_file w1.
Proof.
  intros key value w text Hfile Hread Hwrite Hcut Hline Hshape w1.
  destruct (update_env_file_text key value w text Hfile Hread Hwrite Hcut)
    as (Htext & Hread1 & Hwrite1 & Hcut1).
  destruct (update_env_file_text key value w1 _ Htext Hread1 Hwrite1 Hcut1) as [-> _].
  unfold w1. rewrite Htext.
  rewrite (env_text_after_idempotent key value text Hline Hshape). reflexivity.
Qed.

(** ** [get_current_playing]: failures and results *)

(** X7. [get_current_playing] never raises; it sends one request to the
    player endpoint, with the token it was given, and changes nothing else:
    not the locals of [main], not the refresh token, not the [.env] file, and
    it calls no other endpoint. *)
Theorem X7_poll_only_polls :
  forall cfg token w,
    let w' := snd (get_current_playing cfg token w) in
    (exists info, fst (get_current_playing cfg token w) = Return info) /\
    trace w' = (trace w ++ [PlayerRequest token])%list /\
    player_requests w' = S (player_requests w) /\
    token_requests w' = token_requests w /\
    github_requests w' = github_requests w /\
    locals w' = locals w /\
    SPOTIFY_REFRESH_TOKEN w' = SPOTIFY_REFRESH_TOKEN w /\
    env_file w' = env_file w.
Proof.
  intros cfg token w w'.
  destruct (get_current_playing_effect cfg token w) as (info & Hinfo & Hpolled).
  split; [exists info; exact Hinfo|].
  unfold w'. destruct Hpolled as [-> | ->]; cbn; repeat split.
Qed.

Ltac open_player_answer w :=
  unfold get_current_playing, requests_get_player; run;
  destruct (player_endpoint w (player_requests w)) as [|[code body]]; cbn;
  [|destruct (code =? 204) eqn:H204; cbn;
    [|destruct (code =? 401) eqn:H401; cbn;
      [|destruct (code =? 200) eqn:H200; cbn]]].

Lemma token_expired_result :
  forall cfg token w,
    fst (get_current_playing cfg token w) = Return TOKEN_EXPIRED ->
    unauthorized (player_endpoint w (player_requests w)).
Proof.
  intros cfg token w.
  unfold unauthorized.
  open_player_answer w; try discriminate.
  + apply Z.eqb_eq in H401. subst code. intros _. exists body. reflexivity.
  + unfold r_json. cbn. destruct body as [data|]; cbn; [|discriminate].
    destruct data; cbn; try discriminate.
    destruct (dict_lookup "item" kvs) as [item|]; cbn; [|discriminate].
    destruct (truthy item); cbn; [|discriminate].
    destruct (truthy _); cbn; [|discriminate].
    destruct item; cbn; try discriminate.
    destruct (dict_lookup "name" kvs0) as [name|]; cbn; [|discriminate].
    destruct (dict_lookup "artists" kvs0) as [artists|]; cbn; [|discriminate].
    unfold py_iter.
    destruct artists; cbn; try discriminate;
      match goal with
      | |- context [artist_names ?l ?w0] =>
          destruct (artist_names_cases l w0) as [[names ->]|[e ->]]; cbn
      end;
      try discriminate;
      unfold py_sub, timedelta_milliseconds, timedelta, datetime_add; run;
      repeat (case_scrutinee; cbn); discriminate.
Qed.

(** X8. [get_current_playing] returns ["TOKEN_EXPIRED"] on an answer with
    status 401, whatever its body, and on no other answer. *)
Theorem X8_token_expired_only_on_401 :
  forall cfg token w,
    fst (get_current_playing cfg token w) = Return TOKEN_EXPIRED <->
    unauthorized (player_endpoint w (player_requests w)).
Proof.
  intros cfg token w. split.
  - apply token_expired_result.
  - intros [body H]. rewrite (get_current_playing_unauthorized cfg token w body H).
    reflexivity.
Qed.

(** A track is returned only from a 200 answer that has everything the
    function reads. *)
Lemma track_result :
  forall cfg token w m e,
    fst (get_current_playing cfg token w) = Return (Track m e) ->
    exists kvs item name names p d,
      player_endpoint w (player_requests w) = ok_response (JObj kvs) /\
      dict_lookup "item" kvs = Some (JObj item) /\
      truthy (field_or "is_playing" kvs (JBool false)) = true /\
      dict_lookup "name" item = Some name /\
      as_int (field_or "progress_ms" kvs (JNum 0)) = Some p /\
      as_int (field_or "duration_ms" item (JNum 0)) = Some d /\
      m = STATUS_PREFIX cfg ++ py_str name ++ " by " ++ String.concat ", " names /\
      e = clock w (clock_reads w) + Z.max (d - p) 0 * 1000 /\
      representable (clock w (clock_reads w)) (Z.max (d - p) 0 * 1000) = true.
Proof.
  intros cfg token w m e.
  unfold get_current_playing, requests_get_player; run.
  destruct (player_endpoint w (player_requests w)) as [|[code body]] eqn:Hanswer; cbn;
    [discriminate|].
  destruct (code =? 204) eqn:H204; cbn; [discriminate|].
  destruct (code =? 401) eqn:H401; cbn; [discriminate|].
  destruct (code =? 200) eqn:H200; cbn; [|discriminate].
  apply Z.eqb_eq in H200. subst code.
  unfold r_json. cbn. destruct body as [data|]; cbn; [|discriminate].
  destruct data; cbn; try discriminate.
  unfold field_or.
  destruct (dict_lookup "item" kvs) as [item|] eqn:Hitem; cbn; [|discriminate].
  destruct (truthy item) eqn:Htruthy; cbn; [|discriminate].
  destruct (truthy match dict_lookup "is_playing" kvs with
                   | Some v => v | None => JBool false end) eqn:Hplaying;
    cbn; [|discriminate].
  destruct item as [| | | | |ikvs]; cbn; try discriminate.
  destruct (dict_lookup "name" ikvs) as [name|] eqn:Hname; cbn; [|discriminate].
  destruct (dict_lookup "artists" ikvs) as [artists|]; cbn; [|discriminate].
  unfold py_iter.
  destruct artists; cbn; try discriminate;
    match goal with
    | |- context [artist_names ?l ?w0] =>
        destruct (artist_names_cases l w0) as [[names ->]|[x ->]]; cbn
    end;
    try discriminate;
    unfold py_sub, timedelta_milliseconds, timedelta, datetime_add, representable; run;
    destruct (as_int match dict_lookup "duration_ms" ikvs with
                     | Some v => v | None => JNum 0 end) as [d|] eqn:Hd;
    cbn; try discriminate;
    destruct (as_int match dict_lookup "progress_ms" kvs with
                     | Some v => v | None => JNum 0 end) as [p|] eqn:Hp;
    cbn; try discriminate;
    destruct (timedelta_in_range (Z.max (d - p) 0 * 1000)) eqn:Hdelta;
    cbn; try discriminate;
    destruct (datetime_in_range (clock w (clock_reads w) + Z.max (d - p) 0 * 1000))
      eqn:Hmoment;
    cbn; try discriminate;
    intros H; injection H as <- <-;
    exists kvs, ikvs, name, names, p, d; repeat split; try assumption;
    rewrite Hdelta, Hmoment; reflexivity.
Qed.

(** X9. Whatever the answer, a track that [get_current_playing] returns does
    not expire before the clock reading it was computed from (a progress
    beyond the duration gives that reading), and its message starts with
    [STATUS_PREFIX]. *)
Theorem X9_track_never_expires_in_the_past :
  forall cfg token w m e,
    fst (get_current_playing cfg token w) = Return (Track m e) ->
    clock w (clock_reads w) <= e /\
    String.prefix (STATUS_PREFIX cfg) m = true.
Proof.
  intros cfg token w m e H.
  destruct (track_result cfg token w m e H)
    as (kvs & item & name & names & p & d & _ & _ & _ & _ & _ & _ & -> & -> & _).
  split; [lia|apply prefix_append].
Qed.

(** X10. A 200 answer whose [progress_ms] is there and is not a number, a
    null for one, makes [get_current_playing] return [None], whatever the
    item: the subtraction of line 135 raises and the exception is caught. *)
Theorem X10_null_progress_is_absent :
  forall cfg token w kvs v,
    player_endpoint w (player_requests w) = ok_response (JObj kvs) ->
    dict_lookup "progress_ms" kvs = Some v ->
    as_int v = None ->
    fst (get_current_playing cfg token w) = Return NoTrack.
Proof.
  intros cfg token w kvs v Hanswer Hp Hv.
  destruct (get_current_playing_effect cfg token w) as (info & Hinfo & _).
  rewrite Hinfo. destruct info as [| |m e]; [reflexivity| |].
  - exfalso. destruct (token_expired_result cfg token w Hinfo) as [body H401].
    rewrite Hanswer in H401. discriminate.
  - exfalso. destruct (track_result cfg token w m e Hinfo)
      as (kvs' & item & name & names & p & d & Hanswer' & _ & _ & _ & Hp' & _).
    rewrite Hanswer in Hanswer'. injection Hanswer' as <-.
    unfold field_or in Hp'. rewrite Hp in Hp'. congruence.
Qed.

(** ** [refresh_access_token]: requests, writes and the global *)

(** The world after [refresh_access_token], answer by answer. *)
Lemma refresh_world :
  forall w,
    let w1 := with_token_request (TokenRequest (SPOTIFY_REFRESH_TOKEN w)) w in
    (exists kvs,
        token_endpoint w (token_requests w) = ok_response (JObj kvs) /\
        snd (refresh_access_token w) =
          with_clock_read
            (if rotates (field_or "refresh_token" kvs JNull) (SPOTIFY_REFRESH_TOKEN w)
             then with_refresh_token (field_or "refresh_token" kvs JNull)
                    (snd (update_env_file REFRESH_TOKEN_KEY
                            (field_or "refresh_token" kvs JNull) w1))
             else w1)) \/
    ((forall kvs, token_endpoint w (token_requests w) <> ok_response (JObj kvs)) /\
     refresh_access_token w = (Return None, w1)).
Proof.
  intros w w1.
  destruct (token_endpoint w (token_requests w)) as [|[code body]] eqn:Hresp.
  - right. split; [discriminate|].
    apply refresh_rejected_run. rewrite Hresp. reflexivity.
  - destruct (code =? 200) eqn:Hcode.
    + apply Z.eqb_eq in Hcode. subst code.
      destruct body as [[| | | | |kvs]|];
        try (right; split; [unfold ok_response; congruence|];
             apply (refresh_malformed_run w _ Hresp); cbn; congruence).
      left. exists kvs. split; [reflexivity|].
      rewrite (refresh_ok_run w kvs Hresp). reflexivity.
    + right. split.
      * unfold ok_response. intros kvs H. injection H as H _. subst code. discriminate.
      * apply refresh_rejected_run. rewrite Hresp. cbn. rewrite Hcode. reflexivity.
Qed.

Lemma update_env_file_trace :
  forall key value w,
    trace (snd (update_env_file key value w)) = trace w \/
    exists text, trace (snd (update_env_file key value w))
                 = (trace w ++ [EnvWrite text])%list.
Proof.
  intros key value w. rewrite update_env_file_run.
  destruct (env_file w) as [text|]; [|left; reflexivity].
  destruct (env_readable w && env_writable w); [|left; reflexivity].
  right. exists (text_written w (env_text_after key value text)). cbv zeta.
  destruct (env_write_cut w); [reflexivity|].
  destruct value; try reflexivity.
  destruct (legal_variable_name key && negb (contains_char nul s)); reflexivity.
Qed.

(** X11. [refresh_access_token] never raises.  It sends one request to the
    token endpoint, with the refresh token the global holds at the call, and
    writes the [.env] file at most once; it calls no other endpoint and leaves
    the locals of [main] alone. *)
Theorem X11_refresh_one_request_one_write :
  forall w,
    let w' := snd (refresh_access_token w) in
    (exists token, fst (refresh_access_token w) = Return token) /\
    (trace w' = (trace w ++ [TokenRequest (SPOTIFY_REFRESH_TOKEN w)])%list \/
     exists text,
       trace w' = (trace w ++ [TokenRequest (SPOTIFY_REFRESH_TOKEN w);
                               EnvWrite text])%list) /\
    token_requests w' = S (token_requests w) /\
    player_requests w' = player_requests w /\
    github_requests w' = github_requests w /\
    locals w' = locals w.
Proof.
  intros w w'.
  destruct (refresh_access_token_effect w) as (token & Htoken & Href).
  split; [exists token; exact Htoken|].
  split.
  - unfold w'.
    destruct (refresh_world w) as [(kvs & _ & ->)|[_ ->]]; [|left; reflexivity].
    destruct (rotates _ _); [|left; reflexivity].
    destruct (update_env_file_trace REFRESH_TOKEN_KEY (field_or "refresh_token" kvs JNull)
                (with_token_request (TokenRequest (SPOTIFY_REFRESH_TOKEN w)) w))
      as [H|[text H]]; [left|right; exists text]; cbn; rewrite H; cbn;
      rewrite <- ?app_assoc; reflexivity.
  - destruct Href as (Hl & _ & Ht & _ & Hp & _ & Hg & _). repeat split; assumption.
Qed.

(** X12. On every answer that is not a 200 with a JSON object, a rejection,
    a server error, a body that is no JSON, or no answer at all,
    [refresh_access_token] returns [None] and has done nothing but send its
    request: the global refresh token, the [.env] file and [os.environ] are as
    they were. *)
Theorem X12_failed_refresh_changes_nothing :
  forall w,
    (forall kvs, token_endpoint w (token_requests w) <> ok_response (JObj kvs)) ->
    refresh_access_token w =
      (Return None, with_token_request (TokenRequest (SPOTIFY_REFRESH_TOKEN w)) w).
Proof.
  intros w Hanswer.
  destruct (refresh_world w) as [(kvs & Hok & _)|[_ H]]; [|exact H].
  elim (Hanswer kvs Hok).
Qed.

(** X13. A [None] from [refresh_access_token] does not always mean that
    nothing was saved: on a 200 answer that rotates the refresh token and
    whose [expires_in] is not a number, or is a number of seconds that leads
    out of the range of [timedelta] or [datetime], the new token is put in the
    global and the [.env] file is rewritten with it (the file holds what the
    write left of the new text), and then the function returns [None]. *)
Theorem X13_rotation_saved_before_late_failure :
  forall w kvs text,
    token_endpoint w (token_requests w) = ok_response (JObj kvs) ->
    rotates (field_or "refresh_token" kvs JNull) (SPOTIFY_REFRESH_TOKEN w) = true ->
    as_int (field_or "expires_in" kvs (JNum 3600)) = None \/
    (exists seconds,
        as_int (field_or "expires_in" kvs (JNum 3600)) = Some seconds /\
        representable (clock w (clock_reads w)) (seconds * 1000000) = false) ->
    env_file w = Some text -> env_readable w = true -> env_writable w = true ->
    fst (refresh_access_token w) = Return None /\
    SPOTIFY_REFRESH_TOKEN (snd (refresh_access_token w))
      = field_or "refresh_token" kvs JNull /\
    env_file (snd (refresh_access_token w))
      = Some (text_written w
                (env_text_after REFRESH_TOKEN_KEY
                   (field_or "refresh_token" kvs JNull) text)).
Proof.
  intros w kvs text Hanswer Hrot Hexp Hfile Hread Hwrite.
  rewrite (refresh_ok_run w kvs Hanswer), Hrot. cbn [fst snd].
  split; [destruct Hexp as [->|(seconds & -> & ->)]; reflexivity|].
  split; [reflexivity|].
  set (w1 := with_token_request _ w).
  pose proof (update_env_file_file REFRESH_TOKEN_KEY
                (field_or "refresh_token" kvs JNull) w1) as Htext.
  change (env_file w1) with (env_file w) in Htext.
  change (env_readable w1) with (env_readable w) in Htext.
  change (env_writable w1) with (env_writable w) in Htext.
  rewrite Hfile, Hread, Hwrite in Htext. cbn [andb] in Htext.
  cbn. exact Htext.
Qed.

(** The global after [refresh_access_token]. *)
Lemma refresh_global_rotated :
  forall w kvs,
    token_endpoint w (token_requests w) = ok_response (JObj kvs) ->
    rotates (field_or "refresh_token" kvs JNull) (SPOTIFY_REFRESH_TOKEN w) = true ->
    SPOTIFY_REFRESH_TOKEN (snd (refresh_access_token w))
      = field_or "refresh_token" kvs JNull.
Proof.
  intros w kvs Hok Hrot. rewrite (refresh_ok_run w kvs Hok), Hrot. reflexivity.
Qed.

Lemma refresh_global_kept :
  forall w,
    (forall kvs,
        token_endpoint w (token_requests w) = ok_response (JObj kvs) ->
        rotates (field_or "refresh_token" kvs JNull) (SPOTIFY_REFRESH_TOKEN w) = false) ->
    SPOTIFY_REFRESH_TOKEN (snd (refresh_access_token w)) = SPOTIFY_REFRESH_TOKEN w.
Proof.
  intros w Hkeep.
  destruct (refresh_world w) as [(kvs & Hok & ->)|[_ ->]]; [|reflexivity].
  rewrite (Hkeep kvs Hok). reflexivity.
Qed.

(** X14. The refresh token changes only by rotation, and the next request
    uses it: after a 200 answer with a refresh token that is not the current
    one, the next call of [refresh_access_token] sends that token, whether or
    not the [.env] file could be written; after every other answer it sends
    the token it sent before. *)
Theorem X14_next_request_carries_rotated_token :
  forall w,
    let w1 := snd (refresh_access_token w) in
    (forall kvs,
        token_endpoint w (token_requests w) = ok_response (JObj kvs) ->
        rotates (field_or "refresh_token" kvs JNull) (SPOTIFY_REFRESH_TOKEN w) = true ->
        exists rest,
          trace (snd (refresh_access_token w1)) =
            (trace w1 ++ TokenRequest (field_or "refresh_token" kvs JNull) :: rest)%list) /\
    ((forall kvs,
         token_endpoint w (token_requests w) = ok_response (JObj kvs) ->
         rotates (field_or "refresh_token" kvs JNull) (SPOTIFY_REFRESH_TOKEN w) = false) ->
     exists rest,
       trace (snd (refresh_access_token w1)) =
         (trace w1 ++ TokenRequest (SPOTIFY_REFRESH_TOKEN w) :: rest)%list).
Proof.
  intros w w1.
  destruct (refresh_access_token_effect w1) as (_ & _ & Href).
  destruct Href as (_ & _ & _ & _ & _ & _ & _ & _ & writes & Htrace & _).
  split.
  - intros kvs Hok Hrot. exists writes. rewrite Htrace.
    unfold w1. rewrite (refresh_global_rotated w kvs Hok Hrot). reflexivity.
  - intros Hkeep. exists writes. rewrite Htrace.
    unfold w1. rewrite (refresh_global_kept w Hkeep). reflexivity.
Qed.

(** ** [set_github_status]: the request *)

(** X15. [set_github_status] sends one request and changes nothing else.  A
    clear (message [None]) carries no expiry even when one is passed.  A 200
    answer with a JSON object counts as success exactly when the object has
    no ["errors"] key. *)
Theorem X15_publish_request_and_graphql_errors :
  forall message expires_at w,
    let w' := snd (set_github_status message expires_at w) in
    trace w' =
      (trace w ++ [GithubRequest message
                     (match message with None => None | Some _ => expires_at end)])%list /\
    trace (snd (set_github_status None expires_at w))
      = (trace w ++ [GithubRequest None None])%list /\
    github_requests w' = S (github_requests w) /\
    locals w' = locals w /\
    (forall kvs,
        github_endpoint w (github_requests w) = ok_response (JObj kvs) ->
        (fst (set_github_status message expires_at w) = Return true <->
         dict_lookup "errors" kvs = None)).
Proof.
  intros message expires_at w w'. unfold w'. rewrite !set_github_status_run.
  cbn [fst snd].
  split; [reflexivity|]. split; [reflexivity|].
  split; [reflexivity|]. split; [reflexivity|].
  intros kvs Hanswer. rewrite Hanswer. cbn.
  destruct (dict_lookup "errors" kvs); split; intros H;
    solve [reflexivity | discriminate].
Qed.

(** ** One turn of [main]: requests and acknowledgements *)

Lemma main_step_refresh_cases :
  forall cfg w,
    (needs_refresh w = false /\
     main_step cfg w = try_except (main_poll cfg) (time_sleep (POLL_INTERVAL cfg))
                         (after_check w)) \/
    (needs_refresh w = true /\
     exists wb,
       refreshed (after_check w) wb /\
       (fst (refresh_access_token (after_check w)) = Return None /\
        main_step cfg w
          = try_except (main_refresh_failed cfg) (time_sleep (POLL_INTERVAL cfg)) wb \/
        exists td,
          fst (refresh_access_token (after_check w)) = Return (Some td) /\
          wb = snd (refresh_access_token (after_check w)) /\
          main_step cfg w
            = try_except (main_poll cfg) (time_sleep (POLL_INTERVAL cfg))
                (with_locals (set_credential td (locals w)) wb))).
Proof.
  intros cfg w. unfold main_step, try_except. rewrite main_iteration_run.
  destruct (needs_refresh w); [right|left; split; reflexivity].
  split; [reflexivity|].
  destruct (refresh_access_token_effect (after_check w)) as (token & Htoken & Href).
  exists (snd (refresh_access_token (after_check w))). split; [exact Href|].
  assert (Hloc : locals (snd (refresh_access_token (after_check w))) = locals w).
  { destruct Href as [-> _]. apply after_check_locals. }
  destruct (refresh_access_token (after_check w)) as [r wb]. cbn [fst snd] in *. subst r.
  destruct token as [td|]; [right|left; split; reflexivity].
  exists td. rewrite Hloc. repeat split.
Qed.

Ltac open_step cfg w :=
  let Hstale := fresh "Hstale" in
  let Hstep := fresh "Hstep" in
  let wb := fresh "wb" in
  let Href := fresh "Href" in
  let td := fresh "td" in
  let Hok := fresh "Hok" in
  let Hwb := fresh "Hwb" in
  destruct (main_step_refresh_cases cfg w)
    as [[Hstale Hstep]
       | (Hstale & wb & Href & [[_ Hstep] | (td & Hok & Hwb & Hstep)])];
  rewrite Hstep; clear Hstep; unfold try_except;
  [ open_poll cfg (after_check w)
  | rewrite main_refresh_failed_run
  | clear Hwb; open_poll cfg (with_locals (set_credential td (locals w)) wb) ];
  rewrite ?main_publish_run.


(** X17. [last_status] is never advanced on speculation: when a turn changes
    it, the turn has sent a request with the new value as its message to the
    status endpoint, as its only request there, and the answer was accepted. *)
Theorem X17_last_status_follows_accepted_request :
  forall cfg w,
    let w' := snd (main_step cfg w) in
    last_status (locals w') <> last_status (locals w) ->
    github_accepts (github_endpoint w (github_requests w)) = true /\
    exists e,
      github_calls w' = (github_calls w ++ [GithubRequest (last_status (locals w')) e])%list.
Proof.
  intros cfg w. cbv zeta. unfold github_calls.
  open_step cfg w; try use_refreshed; unfold time_sleep, publish_request.
  all: settle.
  all: rewrite ?Hgithub_endpoint, ?Hgithub_requests; settle.
  all: repeat (case_scrutinee; settle).
  all: rewrite ?Hlocals, ?Htrace; settle.
  all: rewrite ?filter_app; cbn; rewrite ?filter_app; cbn;
    rewrite ?(env_writes_are_no_github_calls _ Hwrites), ?app_nil_r.
  all: intros Hchanged; try (elim Hchanged; reflexivity).
  all: split; [reflexivity|eexists; reflexivity].
Qed.

Lemma main_poll_result :
  forall cfg w info,
    fst (get_current_playing cfg (access_token (locals w)) w) = Return info ->
    exists wp,
      polled (access_token (locals w)) w wp /\
      main_poll cfg w =
        match info with
        | TOKEN_EXPIRED =>
            (Return tt, with_locals (set_access_token JNull (locals w)) wp)
        | NoTrack =>
            main_publish cfg (with_locals (set_candidate None None (locals w)) wp)
        | Track m e =>
            main_publish cfg
              (with_locals (set_candidate (Some m) (Some e) (locals w)) wp)
        end.
Proof.
  intros cfg w info Hinfo.
  destruct (get_current_playing_effect cfg (access_token (locals w)) w)
    as (info' & Hinfo' & Hpolled).
  exists (snd (get_current_playing cfg (access_token (locals w)) w)).
  split; [exact Hpolled|].
  assert (Hloc : locals (snd (get_current_playing cfg (access_token (locals w)) w))
                 = locals w).
  { destruct Hpolled as [-> | ->]; reflexivity. }
  cbv [main_poll modify_locals get_locals set_locals bind ret].
  destruct (get_current_playing cfg (access_token (locals w)) w) as [r wp].
  cbn [fst snd] in *. subst r. rewrite <- Hloc.
  destruct info; try reflexivity;
    destruct (main_publish _ _) as [[[]|] ?]; reflexivity.
Qed.

(** X18. Scenario A of the specification.  With [CLEAR_STATUS_WHEN_IDLE] true
    and a status published, a turn whose poll finds nothing playing sends the
    clear request, with no message and no expiry, and then sleeps; [last_status]
    becomes [None] when the clear is accepted and stays when it is not. *)
Theorem X18_idle_turn_clears_status :
  forall cfg w published,
    CLEAR_STATUS_WHEN_IDLE cfg = true ->
    sleep_accepts (POLL_INTERVAL cfg) = true ->
    needs_refresh w = false ->
    fst (get_current_playing cfg (access_token (locals w)) (after_check w))
      = Return NoTrack ->
    last_status (locals w) = Some published ->
    let w' := snd (main_step cfg w) in
    fst (main_step cfg w) = Return tt /\
    trace w' = (trace w ++ [PlayerRequest (access_token (locals w));
                            GithubRequest None None;
                            Sleep (POLL_INTERVAL cfg)])%list /\
    last_status (locals w') =
      (if github_accepts (github_endpoint w (github_requests w))
       then None else Some published).
Proof.
  intros cfg w published Hclear Hsleep Hfresh Hnone Hlast. cbv zeta.
  destruct (main_step_refresh_cases cfg w) as [[_ Hstep]|[Hstale _]];
    [|congruence].
  rewrite Hstep. unfold try_except.
  rewrite <- (after_check_locals w) in Hnone.
  destruct (main_poll_result cfg (after_check w) NoTrack Hnone) as (wp & Hpolled & ->).
  rewrite main_publish_run.
  assert (Hneeded : publish_needed cfg
            (locals (with_locals (set_candidate None None (locals (after_check w))) wp))
            = true).
  { unfold publish_needed. cbn. rewrite after_check_locals, Hlast, Hclear. reflexivity. }
  rewrite Hneeded. unfold time_sleep. rewrite Hsleep.
  destruct Hpolled as [-> | ->]; settle;
    destruct (github_accepts _); settle; rewrite <- ?app_assoc;
    repeat split; try reflexivity; exact Hlast.
Qed.

(** ** Runs of [main] *)

(** A turn without token whose refresh is granted and whose poll is answered
    with 401. *)
Lemma unauthorized_turn :
  forall cfg w kvs seconds,
    truthy (access_token (locals w)) = false ->
    token_endpoint w (token_requests w) = ok_response (JObj kvs) ->
    as_int (field_or "expires_in" kvs (JNum 3600)) = Some seconds ->
    representable (clock w (clock_reads w)) (seconds * 1000000) = true ->
    unauthorized (player_endpoint w (player_requests w)) ->
    let w' := snd (main_step cfg w) in
    fst (main_step cfg w) = Return tt /\
    access_token (locals w') = JNull /\
    consecutive_failures (locals w') = 0 /\
    token_endpoint w' = token_endpoint w /\
    token_requests w' = S (token_requests w) /\
    player_endpoint w' = player_endpoint w /\
    player_requests w' = S (player_requests w) /\
    github_requests w' = github_requests w /\
    clock w' = clock w /\
    clock_reads w' = S (clock_reads w) /\
    sleeps w' = sleeps w.
Proof.
  intros cfg w kvs seconds Htoken Hanswer Hexp Hrange H401. cbv zeta.
  assert (Hcheck : after_check w = w) by (unfold after_check; rewrite Htoken; reflexivity).
  assert (Hsome : exists td, fst (refresh_access_token w) = Return (Some td)).
  { rewrite (refresh_ok_run w kvs Hanswer), Hexp, Hrange. eexists. reflexivity. }
  destruct Hsome as [td Hsome].
  destruct (main_step_refresh_cases cfg w)
    as [[Hfresh _] | (_ & wb & Href & [[Hnone _] | (td' & Hok & Hwb & Hstep)])].
  - rewrite (no_token_needs_refresh w Htoken) in Hfresh. discriminate.
  - rewrite Hcheck in Hnone. congruence.
  - rewrite Hstep. rewrite Hcheck in *. unfold try_except.
    assert (Hreads : clock_reads wb = S (clock_reads w))
      by (rewrite Hwb; exact (refresh_ok_clock_reads w kvs Hanswer)).
    use_refreshed.
    rewrite main_poll_unauthorized
      by (cbn; rewrite Hplayer_endpoint, Hplayer_requests; exact H401).
    unfold sleeps. cbn. rewrite Htrace.
    rewrite !filter_app. cbn.
    assert (Hnosleep : filter is_sleep writes = []).
    { clear - Hwrites. induction writes as [|ev writes IH]; [reflexivity|].
      cbn in *. destruct ev; cbn in *; try discriminate. exact (IH Hwrites). }
    rewrite Hnosleep, !app_nil_r, Hplayer_requests.
    repeat split; assumption.
Qed.

(** X19. A player endpoint that keeps answering 401 while the token endpoint
    keeps granting tokens makes the loop spin: for as many turns as this
    goes on, every turn asks for a token and polls once, and no turn sleeps;
    the failure counter stays at zero, so the process does not back off and
    does not exit. *)
Theorem X19_persistent_401_never_sleeps :
  forall cfg n w,
    truthy (access_token (locals w)) = false ->
    consecutive_failures (locals w) = 0 ->
    granted_for n w ->
    unauthorized_for n w ->
    let w' := snd (main_loop cfg n w) in
    fst (main_loop cfg n w) = Return tt /\
    consecutive_failures (locals w') = 0 /\
    token_requests w' = (token_requests w + n)%nat /\
    player_requests w' = (player_requests w + n)%nat /\
    github_requests w' = github_requests w /\
    sleeps w' = sleeps w.
Proof.
  intros cfg n. induction n as [|n IH]; intros w Htoken Hzero Hgranted H401; cbv zeta.
  - cbn. rewrite !Nat.add_0_r. repeat split. exact Hzero.
  - destruct (Hgranted O (Nat.lt_0_succ n)) as (kvs & seconds & Hanswer & Hexp & Hrange).
    rewrite Nat.add_0_r in Hanswer, Hrange.
    pose proof (H401 O (Nat.lt_0_succ n)) as Hfirst. rewrite Nat.add_0_r in Hfirst.
    destruct (unauthorized_turn cfg w kvs seconds Htoken Hanswer Hexp Hrange Hfirst)
      as (Hret & Hnull & Hcount & Hte & Htr & Hpe & Hpr & Hgr & Hclock & Hreads & Hsl).
    change (main_loop cfg (S n) w)
      with (bind (main_step cfg) (fun _ => main_loop cfg n) w).
    unfold bind. destruct (main_step cfg w) as [r w1]. cbn [fst snd] in *. subst r.
    destruct (IH w1) as (Hret' & Hcount' & Htr' & Hpr' & Hgr' & Hsl').
    + rewrite Hnull. reflexivity.
    + exact Hcount.
    + intros k Hk. rewrite Hte, Htr, Hclock, Hreads.
      replace (S (token_requests w) + k)%nat with (token_requests w + S k)%nat by lia.
      replace (S (clock_reads w) + k)%nat with (clock_reads w + S k)%nat by lia.
      apply Hgranted. lia.
    + intros k Hk. rewrite Hpe, Hpr.
      replace (S (player_requests w) + k)%nat with (player_requests w + S k)%nat by lia.
      apply H401. lia.
    + cbv zeta in *. rewrite Hret', Htr', Hpr', Hgr', Hsl', Htr, Hpr.
      repeat split; try assumption; lia.
Qed.

(** ** A [POLL_INTERVAL] that [time.sleep] rejects *)

(** X20. With a [POLL_INTERVAL] that [time.sleep] rejects (a negative number),
    a turn that polls and gets anything but a 401 does its work, fails in the
    sleep of line 245, fails again in the sleep of the [except] clause, and
    the exception leaves [main]: the process ends with status 1. *)
Theorem X20_rejected_interval_ends_process :
  forall cfg w,
    sleep_accepts (POLL_INTERVAL cfg) = false ->
    needs_refresh w = false ->
    ~ unauthorized (player_endpoint w (player_requests w)) ->
    fst (main_step cfg w) = Raise (PyException "ValueError") /\
    exit_status (fst (main_step cfg w)) = Some 1 /\
    sleeps (snd (main_step cfg w)) = sleeps w.
Proof.
  intros cfg w Hsleep Hfresh Hnot401.
  destruct (main_step_refresh_cases cfg w) as [[_ Hstep]|[Hstale _]]; [|congruence].
  rewrite Hstep. unfold try_except.
  destruct (get_current_playing_effect cfg (access_token (locals (after_check w)))
              (after_check w)) as (info & Hinfo & _).
  destruct (main_poll_result cfg (after_check w) info Hinfo) as (wp & Hpolled & ->).
  assert (Hcandidate : info <> TOKEN_EXPIRED).
  { intros ->. apply token_expired_result in Hinfo.
    rewrite after_check_player_endpoint, after_check_player_requests in Hinfo.
    contradiction. }
  unfold sleeps.
  destruct info as [| |m e]; [|congruence|];
    rewrite main_publish_run; unfold time_sleep; rewrite Hsleep;
    destruct Hpolled as [-> | ->]; settle;
    repeat (case_scrutinee; settle);
    rewrite ?filter_app; cbn; rewrite ?filter_app; cbn; rewrite ?app_nil_r;
    repeat split.
Qed.

(** ** The failure counter and the exit status *)

Lemma counter_step :
  forall cfg w,
    0 <= consecutive_failures (locals w) < max_failures ->
    let w' := snd (main_step cfg w) in
    (fst (main_step cfg w) = Return tt /\
     0 <= consecutive_failures (locals w') < max_failures) \/
    (fst (main_step cfg w) = Raise (SystemExit 1) /\
     consecutive_failures (locals w') = max_failures) \/
    (exists name, fst (main_step cfg w) = Raise (PyException name) /\
                  0 <= consecutive_failures (locals w') < max_failures).
Proof.
  intros cfg w Hrange. cbv zeta.
  open_step cfg w; try use_refreshed; unfold time_sleep.
  all: settle.
  all: repeat (case_scrutinee; settle).
  all: unfold max_failures in *.
  all: repeat match goal with
              | H : (5 <=? _) = true |- _ => apply Z.leb_le in H
              | H : (5 <=? _) = false |- _ => apply Z.leb_gt in H
              end.
  all: rewrite ?Hlocals in *; settle.
  all: try (left; split; [reflexivity|lia]).
  all: try (right; right; eexists; split; [reflexivity|lia]).
  all: right; left; split; [reflexivity|lia].
Qed.

(** X21. Without an interrupt, the only exit status of the process is 1, and
    the failure counter stays between 0 and [max_failures]: while the loop
    runs it is below [max_failures], and it reaches [max_failures] only in
    the turn that calls [sys.exit(1)]. *)
Theorem X21_exit_status_is_one :
  forall cfg n w,
    0 <= consecutive_failures (locals w) < max_failures ->
    let r := fst (main_loop cfg n w) in
    let w' := snd (main_loop cfg n w) in
    (exit_status r = None \/ exit_status r = Some 1) /\
    0 <= consecutive_failures (locals w') <= max_failures /\
    (consecutive_failures (locals w') = max_failures -> r = Raise (SystemExit 1)).
Proof.
  intros cfg n. induction n as [|n IH]; intros w Hrange; cbv zeta.
  - cbn. unfold max_failures in *. repeat split; try lia. left. reflexivity.
  - change (main_loop cfg (S n) w)
      with (bind (main_step cfg) (fun _ => main_loop cfg n) w).
    unfold bind.
    destruct (counter_step cfg w Hrange) as [[Hr Hc]|[[Hr Hc]|(name & Hr & Hc)]];
      destruct (main_step cfg w) as [r w1]; cbn [fst snd] in *; subst r.
    + exact (IH w1 Hc).
    + cbn. rewrite Hc. unfold max_failures. repeat split; try lia. right. reflexivity.
    + cbn. unfold max_failures in *. repeat split; try lia. right. reflexivity.
Qed.

(** ** The first request and the fresh token *)

Lemma main_step_trace :
  forall cfg w, exists rest, trace (snd (main_step cfg w)) = (trace w ++ rest)%list.
Proof.
  intros cfg w.
  open_step cfg w; try use_refreshed; unfold time_sleep.
  all: settle.
  all: repeat (case_scrutinee; settle).
  all: rewrite ?Htrace; rewrite <- ?app_assoc; cbn; rewrite <- ?app_assoc.
  all: solve [eexists; reflexivity | exists []; rewrite app_nil_r; reflexivity].
Qed.

Lemma main_loop_trace :
  forall cfg n w, exists rest, trace (snd (main_loop cfg n w)) = (trace w ++ rest)%list.
Proof.
  intros cfg n. induction n as [|n IH]; intros w.
  - exists []. cbn. rewrite app_nil_r. reflexivity.
  - change (main_loop cfg (S n) w)
      with (bind (main_step cfg) (fun _ => main_loop cfg n) w).
    unfold bind. destruct (main_step_trace cfg w) as [rest Hrest].
    destruct (main_step cfg w) as [[[]|e] w1]; cbn [snd] in *.
    + destruct (IH w1) as [rest' ->]. rewrite Hrest, <- app_assoc. eexists. reflexivity.
    + exists rest. exact Hrest.
Qed.

Lemma refresh_turn_trace :
  forall cfg w,
    needs_refresh w = true ->
    exists rest,
      trace (snd (main_step cfg w))
        = (trace w ++ TokenRequest (SPOTIFY_REFRESH_TOKEN w) :: rest)%list.
Proof.
  intros cfg w Hneeds.
  open_step cfg w; try congruence; use_refreshed; unfold time_sleep.
  all: settle.
  all: repeat (case_scrutinee; settle).
  all: rewrite ?Htrace; rewrite <- ?app_assoc; cbn; rewrite <- ?app_assoc; cbn.
  all: eexists; reflexivity.
Qed.

(** X22. Whatever the clock says, the first thing [main] does is to ask the
    token endpoint for a credential, with the refresh token of the
    environment: nothing is polled or published before. *)
Theorem X22_main_starts_with_a_refresh :
  forall cfg n w,
    exists rest,
      trace (snd (main cfg (S n) w))
        = (trace w ++ TokenRequest (SPOTIFY_REFRESH_TOKEN w) :: rest)%list.
Proof.
  intros cfg n w. unfold main, bind, main_init, utcnow, set_locals. cbn.
  set (w0 := with_locals _ _).
  assert (Hneeds : needs_refresh w0 = true) by (apply no_token_needs_refresh; reflexivity).
  destruct (refresh_turn_trace cfg w0 Hneeds) as [rest Hrest].
  change (main_loop cfg (S n) w0)
    with (bind (main_step cfg) (fun _ => main_loop cfg n) w0).
  unfold bind. destruct (main_step cfg w0) as [[[]|e] w1]; cbn [snd] in *.
  - destruct (main_loop_trace cfg n w1) as [rest' ->]. rewrite Hrest.
    rewrite <- app_assoc. eexists. reflexivity.
  - exists rest. exact Hrest.
Qed.


(** ** The script *)

(** X24. When one of the four required settings is not set, or is set to the
    empty string, the script exits with status 1 before anything happens: no
    request, no reading of the clock, no write.  When all four are set, the
    script is [main], with an exception that leaves [main] turned into exit
    status 1. *)
Theorem X24_missing_setting_exits_before_the_loop :
  forall st cfg n w,
    (unset (SPOTIFY_CLIENT_ID st) = true \/
     unset (SPOTIFY_CLIENT_SECRET st) = true \/
     truthy (SPOTIFY_REFRESH_TOKEN w) = false \/
     unset (GITHUB_TOKEN st) = true ->
     script st cfg n w = (Raise (SystemExit 1), w)) /\
    (unset (SPOTIFY_CLIENT_ID st) = false ->
     unset (SPOTIFY_CLIENT_SECRET st) = false ->
     truthy (SPOTIFY_REFRESH_TOKEN w) = true ->
     unset (GITHUB_TOKEN st) = false ->
     script st cfg n w =
       (match fst (main cfg n w) with
        | Raise (PyException _) => Raise (SystemExit 1)
        | r => r
        end,
        snd (main cfg n w))).
Proof.
  intros st cfg n w. unfold script, get_refresh_token, bind, missing_settings. split.
  - intros Hcase.
    destruct (unset (SPOTIFY_CLIENT_ID st)); [reflexivity|].
    destruct (unset (SPOTIFY_CLIENT_SECRET st)); [reflexivity|].
    destruct (truthy (SPOTIFY_REFRESH_TOKEN w)); [|reflexivity].
    destruct (unset (GITHUB_TOKEN st)); [reflexivity|].
    destruct Hcase as [H|[H|[H|H]]]; discriminate.
  - intros -> -> -> ->. cbn [negb app]. unfold try_except, sys_exit, raise.
    destruct (main cfg n w) as [[[]|[name|code]] w']; reflexivity.
Qed.

(** ** [get_token.py]: saving the refresh token *)

Lemma save_refresh_token_run :
  forall token w,
    save_refresh_token token w =
      match env_file w with
      | Some text =>
          if env_readable w && env_writable w
          then (Return (write_completes w),
                with_env_file
                  (text_written w (env_text_after REFRESH_TOKEN_KEY token text)) w)
          else (Return false, w)
      | None =>
          if env_writable w
          then (Return (write_completes w),
                with_env_file
                  (text_written w ("SPOTIFY_REFRESH_TOKEN=" ++ py_str token
                                   ++ String newline EmptyString)) w)
          else (Return false, w)
      end.
Proof.
  intros token w.
  cbv [save_refresh_token os_path_exists read_env_lines env_text_after text_written
       write_completes try_except bind ret raise write_env_lines].
  destruct (env_file w) as [text|] eqn:Hfile.
  - cbv beta. rewrite Hfile.
    destruct (env_readable w); cbn [andb]; [|reflexivity].
    change (REFRESH_TOKEN_KEY ++ "=") with "SPOTIFY_REFRESH_TOKEN=".
    change (REFRESH_TOKEN_KEY ++ "=" ++ py_str token ++ String newline EmptyString)
      with ("SPOTIFY_REFRESH_TOKEN=" ++ py_str token ++ String newline EmptyString).
    destruct (patch_first _ _ _) as [lines' updated].
    destruct (env_writable w); [|reflexivity].
    destruct (env_write_cut w); reflexivity.
  - cbn. destruct (env_writable w); [|reflexivity].
    destruct (env_write_cut w); reflexivity.
Qed.

(** X25. The setup script and the loop leave the same text in a [.env] file
    that is there; on a missing file they differ: the setup script creates it,
    with the entry as its only line, and [update_env_file] returns [False] and
    creates nothing.  The setup script reports success exactly when its write
    was not cut short. *)
Theorem X25_setup_creates_the_file_the_loop_does_not :
  forall token w,
    (forall text,
        env_file w = Some text -> env_readable w = true -> env_writable w = true ->
        fst (save_refresh_token token w) = Return (write_completes w) /\
        env_file (snd (save_refresh_token token w))
          = env_file (snd (update_env_file REFRESH_TOKEN_KEY token w))) /\
    (env_file w = None -> env_writable w = true ->
     fst (save_refresh_token token w) = Return (write_completes w) /\
     env_file (snd (save_refresh_token token w))
       = Some (text_written w
                 ("SPOTIFY_REFRESH_TOKEN=" ++ py_str token ++ String newline EmptyString)) /\
     update_env_file REFRESH_TOKEN_KEY token w = (Return false, w)).
Proof.
  intros token w. rewrite save_refresh_token_run. split.
  - intros text Hfile Hread Hwrite.
    rewrite update_env_file_file.
    rewrite Hfile, Hread, Hwrite. split; reflexivity.
  - intros Hfile Hwrite. rewrite Hfile, Hwrite.
    split; [reflexivity|]. split; [reflexivity|].
    rewrite update_env_file_run, Hfile. reflexivity.
Qed.

(** X26. Setup, then a rotation: from no [.env] file, after the setup script
    has saved a token without a line break (LF or CR) and the loop has saved
    a rotated one, both writes going through, the file is the one line of the
    rotated token. *)
Theorem X26_rotation_after_setup_replaces_the_line :
  forall first second w,
    env_file w = None -> env_readable w = true -> env_writable w = true ->
    env_write_cut w = None ->
    single_line first = true ->
    let w1 := snd (save_refresh_token (JStr first) w) in
    let w2 := snd (update_env_file REFRESH_TOKEN_KEY (JStr second) w1) in
    env_file w2 =
      Some ("SPOTIFY_REFRESH_TOKEN=" ++ second ++ String newline EmptyString).
Proof.
  intros first second w Hfile Hread Hwrite Hcut Hline w1 w2.
  destruct (single_line_parts _ Hline) as [Hlf Hcr].
  assert (Hw1 : w1 = with_env_file
                       ("SPOTIFY_REFRESH_TOKEN=" ++ first ++ String newline EmptyString) w).
  { unfold w1. rewrite save_refresh_token_run, Hfile, Hwrite.
    unfold text_written. rewrite Hcut. reflexivity. }
  unfold w2.
  destruct (update_env_file_text REFRESH_TOKEN_KEY (JStr second) w1
              ("SPOTIFY_REFRESH_TOKEN=" ++ first ++ String newline EmptyString))
    as [-> _]; try (rewrite Hw1; cbn; assumption); [rewrite Hw1; reflexivity|].
  f_equal.
  assert (Hfull : full_line ("SPOTIFY_REFRESH_TOKEN=" ++ first ++ String newline EmptyString)
                  = true).
  { replace ("SPOTIFY_REFRESH_TOKEN=" ++ first ++ String newline EmptyString)
      with (("SPOTIFY_REFRESH_TOKEN=" ++ first) ++ String newline EmptyString)
      by (rewrite append_assoc; reflexivity).
    apply full_line_append_newline. rewrite contains_char_append, Hlf.
    reflexivity. }
  assert (Hclean : contains_char carriage_return
                     ("SPOTIFY_REFRESH_TOKEN=" ++ first ++ String newline EmptyString)
                   = false).
  { rewrite !contains_char_append, Hcr. reflexivity. }
  rewrite (env_text_after_replaces_first REFRESH_TOKEN_KEY (JStr second) _
             [] ("SPOTIFY_REFRESH_TOKEN=" ++ first ++ String newline EmptyString) []).
  - unfold writelines. reflexivity.
  - rewrite (universal_newlines_id _ Hclean).
    transitivity
      (readlines (("SPOTIFY_REFRESH_TOKEN=" ++ first ++ String newline EmptyString)
                  ++ EmptyString)).
    + rewrite append_empty_r. reflexivity.
    + exact (readlines_full_line _ EmptyString Hfull).
  - reflexivity.
  - change (REFRESH_TOKEN_KEY ++ "=") with "SPOTIFY_REFRESH_TOKEN=".
    unfold startswith. apply prefix_append.
Qed.

(** ** The limits of [datetime], and a write that is cut short *)

(** X27. When the remaining time of an active item does not lead from the
    clock reading to a value of [datetime] (or is no value of [timedelta]),
    [get_current_playing] returns [None] after it has read the clock: the
    [OverflowError] of line 137 is caught by the [except] clause. *)
Theorem X27_unrepresentable_expiry_is_absent :
  forall cfg token w kvs name artists progress_ms duration_ms,
    player_endpoint w (player_requests w) = ok_response (JObj kvs) ->
    active_item kvs name artists progress_ms duration_ms ->
    representable (clock w (clock_reads w))
                  (Z.max (duration_ms - progress_ms) 0 * 1000) = false ->
    get_current_playing cfg token w =
      (Return NoTrack, with_clock_read (with_player_request (PlayerRequest token) w)).
Proof.
  intros cfg token w kvs name artists p d Hresp
    (item & arts & playing & Hitem & Hplay & Htrue & Hname & Harts & Hall & Hp & Hd)
    Hrange.
  unfold representable in Hrange. apply andb_false_iff in Hrange.
  unfold get_current_playing, try_except, bind, requests_get_player.
  rewrite Hresp. cbn.
  rewrite Hitem. cbn.
  assert (Hne : match item with [] => false | _ :: _ => true end = true).
  { destruct item; [discriminate Hname | reflexivity]. }
  rewrite Hne. cbn.
  rewrite Hplay, Htrue. cbn.
  rewrite Hname. cbn. rewrite Harts. cbn.
  rewrite (artist_names_run arts artists _ Hall).
  destruct Hp as [Hp|[Hp ->]], Hd as [Hd|[Hd ->]];
    rewrite Hp; cbn; rewrite Hd; cbn;
    unfold timedelta_milliseconds; rewrite timedelta_run;
    (destruct Hrange as [Hdelta|Hmoment];
     [replace (timedelta_in_range _) with false by (symmetry; exact Hdelta);
      reflexivity
     |destruct (timedelta_in_range _); [|reflexivity];
      rewrite datetime_add_run;
      replace (datetime_in_range _) with false by (symmetry; exact Hmoment);
      reflexivity]).
Qed.

(** X28. A 200 answer of the token endpoint whose [expires_in] is a number of
    seconds that does not lead from the clock reading to a value of
    [datetime] makes [refresh_access_token] return [None], after the request
    and one reading of the clock: the [OverflowError] of line 102 is caught by
    the [except] clause. *)
Theorem X28_unrepresentable_expires_in_fails_the_refresh :
  forall w kvs seconds,
    token_endpoint w (token_requests w) = ok_response (JObj kvs) ->
    as_int (field_or "expires_in" kvs (JNum 3600)) = Some seconds ->
    representable (clock w (clock_reads w)) (seconds * 1000000) = false ->
    fst (refresh_access_token w) = Return None /\
    token_requests (snd (refresh_access_token w)) = S (token_requests w) /\
    clock_reads (snd (refresh_access_token w)) = S (clock_reads w).
Proof.
  intros w kvs seconds Hanswer Hexp Hrange.
  split; [rewrite (refresh_ok_run w kvs Hanswer), Hexp, Hrange; reflexivity|].
  split; [|exact (refresh_ok_clock_reads w kvs Hanswer)].
  destruct (refresh_access_token_effect w) as (token & _ & Href).
  destruct Href as (_ & _ & Hrequests & _). exact Hrequests.
Qed.

(** X29. When the [.env] file is opened for writing and the write fails on
    the way, [update_env_file] returns [False]; the file, emptied by
    [open], holds the characters that were written, a prefix of the new
    text, and [os.environ] is as it was. *)
Theorem X29_cut_write_leaves_a_prefix :
  forall key value w text k,
    env_file w = Some text -> env_readable w = true -> env_writable w = true ->
    env_write_cut w = Some k ->
    update_env_file key value w =
      (Return false,
       with_env_file (String.substring 0 k (env_text_after key value text)) w).
Proof.
  intros key value w text k Hfile Hread Hwrite Hcut.
  rewrite update_env_file_run, Hfile, Hread, Hwrite. cbn [andb]. cbv zeta.
  unfold text_written. rewrite Hcut. reflexivity.
Qed.

End Properties.

(** * The claims on the example worlds *)




(** C2 at [world_rotation]: the [.env] file is there, the write goes through
    and the entry of the file is the rotated token when
    [refresh_access_token] has returned. *)
Lemma C2_witness :
  env_write_cut world_rotation = None /\
  single_line "refresh-1" = true /\
  terminated (universal_newlines env_text) = true /\
  SPOTIFY_REFRESH_TOKEN (snd (refresh_access_token world_rotation)) = JStr "refresh-1" /\
  exists text',
    env_file (snd (refresh_access_token world_rotation)) = Some text' /\
    env_entry REFRESH_TOKEN_KEY text' =
      Some (REFRESH_TOKEN_KEY ++ "=" ++ "refresh-1" ++ String newline EmptyString).
Proof.
  destruct (C2_rotation_persisted_when_env_writable world_rotation
              [("access_token", JStr "access-1"); ("expires_in", JNum 3600);
               ("refresh_token", JStr "refresh-1")] "refresh-1")
    as (Hglobal & Hfile & _).
  - reflexivity.
  - reflexivity.
  - discriminate.
  - reflexivity.
  - split; [reflexivity|]. split; [reflexivity|]. split; [reflexivity|].
    split; [exact Hglobal|].
    destruct (Hfile env_text) as (_ & Hentry); try reflexivity.
    apply Hentry; [reflexivity|reflexivity|left; reflexivity].
Defined.

(** C2 as stated fails at [world_rotation_no_file]: the answer carries a new
    refresh token, [refresh_access_token] returns a credential, and there is
    no [.env] file before or after: nothing was written, only the global
    holds the new token. *)
Lemma C2_rotation_lost_without_env_file :
  fst (refresh_access_token world_rotation_no_file) =
    Return (Some {| td_access_token := JStr "access-1"; td_expires_at := 3600000000 |}) /\
  SPOTIFY_REFRESH_TOKEN (snd (refresh_access_token world_rotation_no_file))
    = JStr "refresh-1" /\
  env_file (snd (refresh_access_token world_rotation_no_file)) = None /\
  trace (snd (refresh_access_token world_rotation_no_file))
    = [TokenRequest (JStr "refresh-0")].
Proof. repeat split; reflexivity. Qed.


(** C4 at [world_playing]: after the first turn the song is published; in the
    second turn the candidate is the same and nothing is sent; over three
    turns [last_status] changes no more often than the candidate. *)
Lemma C4_witness :
  let cfg := example_config true in
  let w := snd (main_step cfg world_playing) in
  status_message (locals (snd (main_step cfg w))) = last_status (locals w) /\
  status_message (locals w) = last_status (locals w) /\
  github_calls (snd (main_step cfg w)) = github_calls w /\
  (transitions (last_status (locals w)) (published_statuses (main_worlds cfg 3 w))
   <= transitions (status_message (locals w)) (candidate_messages (main_worlds cfg 3 w)))%nat.
Proof.
  intros cfg w.
  assert (Hsame : status_message (locals (snd (main_step cfg w))) = last_status (locals w))
    by (reflexivity).
  assert (Hstart : status_message (locals w) = last_status (locals w))
    by (reflexivity).
  destruct (C4_no_duplicate_publish cfg 3 w) as [Hturn Hrun].
  split; [exact Hsame|]. split; [exact Hstart|].
  split; [exact (proj1 (Hturn Hsame))|exact (Hrun Hstart)].
Defined.



(** C6 at Scenario B: "Song" by A and B, 10000 ms into 40000 ms, read when the
    clock is at 0: the message is the prefix and ["Song by A, B"], the expiry
    is 30000 ms later. *)
Lemma C6_witness :
  player_endpoint world_playing (player_requests world_playing)
    = ok_response (JObj song_fields) /\
  active_item song_fields "Song" ["A"; "B"] 10000 40000 /\
  representable (clock world_playing (clock_reads world_playing))
                (Z.max (40000 - 10000) 0 * 1000) = true /\
  fst (get_current_playing (example_config true) (JStr "access-1") world_playing)
    = Return (Track "> Song by A, B" (30000 * 1000)).
Proof.
  assert (Hanswer : player_endpoint world_playing (player_requests world_playing)
                    = ok_response (JObj song_fields)) by reflexivity.
  assert (Hitem : active_item song_fields "Song" ["A"; "B"] 10000 40000).
  { exists [("name", JStr "Song");
            ("artists", JArr [JObj [("name", JStr "A")]; JObj [("name", JStr "B")]]);
            ("duration_ms", JNum 40000)],
           [JObj [("name", JStr "A")]; JObj [("name", JStr "B")]], (JBool true).
    repeat split; try reflexivity.
    - repeat constructor; eexists; split; reflexivity.
    - left; reflexivity.
    - left; reflexivity. }
  assert (Hrange : representable (clock world_playing (clock_reads world_playing))
                     (Z.max (40000 - 10000) 0 * 1000) = true) by reflexivity.
  split; [exact Hanswer|]. split; [exact Hitem|]. split; [exact Hrange|].
  rewrite (C6_message_and_expiry (example_config true) (JStr "access-1") world_playing
             song_fields "Song" ["A"; "B"] 10000 40000 Hanswer Hitem Hrange).
  reflexivity.
Defined.


(** C8 at [world_expiring], after the first turn: the second poll is answered
    with 401; the turn ends without a sleep, and the next turn asks for a
    token and polls with it. *)
Lemma C8_witness :
  let cfg := example_config true in
  let w := snd (main_step cfg world_expiring) in
  let w1 := snd (main_step cfg w) in
  unauthorized (player_endpoint w (player_requests w)) /\
  needs_refresh w = false /\
  trace w1 = (trace w ++ [PlayerRequest (JStr "access-1")])%list /\
  last_status (locals w1) = last_status (locals w) /\
  needs_refresh w1 = true /\
  exists writes rest,
    forallb is_env_write writes = true /\
    trace (snd (main_step cfg w1)) =
      (trace w1 ++ TokenRequest (JStr "refresh-0") :: writes
                ++ PlayerRequest (JStr "access-1") :: rest)%list.
Proof.
  intros cfg w w1.
  assert (H401 : unauthorized (player_endpoint w (player_requests w)))
    by (exists None; reflexivity).
  assert (Hfresh : needs_refresh w = false) by (reflexivity).
  destruct (C8_expired_token_forces_refresh cfg w H401) as [_ Hturn].
  destruct (Hturn Hfresh) as (_ & Htrace & Hlast & Hstale & Hnext).
  split; [exact H401|]. split; [exact Hfresh|].
  split; [exact Htrace|]. split; [exact Hlast|]. split; [exact Hstale|].
  apply (Hnext {| td_access_token := JStr "access-1";
                  td_expires_at := 3 * 1000000 + 3600 * 1000000 |}).
  reflexivity.
Defined.

(** C9 at [world_steady]: two refreshes, the second answer carrying the
    current refresh token again; two credentials and no write. *)
Lemma C9_witness :
  let w1 := snd (refresh_access_token world_steady) in
  let w2 := snd (refresh_access_token w1) in
  representable (clock world_steady 0) (3600 * 1000000) = true /\
  representable (clock world_steady 1) (3600 * 1000000) = true /\
  fst (refresh_access_token world_steady) =
    Return (Some {| td_access_token := JStr "access-1"; td_expires_at := 3600000000 |}) /\
  fst (refresh_access_token w1) =
    Return (Some {| td_access_token := JStr "access-2"; td_expires_at := 3601000000 |}) /\
  env_file w2 = Some env_text /\
  trace w2 = [TokenRequest (JStr "refresh-0"); TokenRequest (JStr "refresh-0")].
Proof.
  intros w1 w2.
  destruct (C9_refresh_twice_no_write world_steady
              [("access_token", JStr "access-1"); ("token_type", JStr "Bearer");
               ("expires_in", JNum 3600)]
              [("access_token", JStr "access-2"); ("expires_in", JNum 3600);
               ("refresh_token", JStr "refresh-0")]
              3600 3600)
    as (Hfirst & Hsecond & Hfile & _ & Htrace & _).
  - reflexivity.
  - reflexivity.
  - reflexivity.
  - reflexivity.
  - reflexivity.
  - reflexivity.
  - left. reflexivity.
  - right. exists "refresh-0". split; reflexivity.
  - split; [reflexivity|]. split; [reflexivity|].
    split; [exact Hfirst|]. split; [exact Hsecond|].
    split; [exact Hfile|exact Htrace].
Defined.

(** C10 at [world_paused]: the answer has an item and [is_playing] false. *)
Lemma C10_witness :
  player_endpoint world_paused (player_requests world_paused)
    = ok_response (JObj paused_fields) /\
  dict_lookup "is_playing" paused_fields = Some (JBool false) /\
  fst (get_current_playing (example_config true) (JStr "access-1") world_paused)
    = Return NoTrack.
Proof.
  assert (Hanswer : player_endpoint world_paused (player_requests world_paused)
                    = ok_response (JObj paused_fields)) by reflexivity.
  assert (Hpaused : dict_lookup "is_playing" paused_fields = Some (JBool false))
    by reflexivity.
  split; [exact Hanswer|]. split; [exact Hpaused|].
  apply (C10_not_playing_is_absent (example_config true) (JStr "access-1")
           world_paused paused_fields Hanswer).
  right. right. exact Hpaused.
Defined.

(** The case C2 leaves out: a [.env] text without an entry for the key and
    without a line break at its end.  [lines.append] puts the new entry
    behind the last line, the two are written as one line, and the file has
    no entry for the key. *)
Lemma rotation_glued_to_unterminated_line :
  let w := example_world (answers [] token_rotated) (answers [] player_song)
             (answers [] github_done) (Some "SPOTIFY_CLIENT_ID=abc") in
  env_file (snd (refresh_access_token w))
    = Some ("SPOTIFY_CLIENT_ID=abcSPOTIFY_REFRESH_TOKEN=refresh-1" ++ String newline EmptyString) /\
  env_entry REFRESH_TOKEN_KEY
    ("SPOTIFY_CLIENT_ID=abcSPOTIFY_REFRESH_TOKEN=refresh-1" ++ String newline EmptyString) = None.
Proof. cbv zeta. split; reflexivity. Qed.

(** * The further properties on the example worlds *)

(** X1 at [world_rotation_no_file]: no file, [False], nothing changed. *)
Lemma X1_witness :
  env_file world_rotation_no_file = None /\
  update_env_file REFRESH_TOKEN_KEY (JStr "refresh-1") world_rotation_no_file
    = (Return false, world_rotation_no_file).
Proof.
  assert (Hfile : env_file world_rotation_no_file = None) by reflexivity.
  split; [exact Hfile|].
  destruct (X1_update_env_file_fails_without_effect REFRESH_TOKEN_KEY
              (JStr "refresh-1") world_rotation_no_file) as [_ Hfail].
  apply Hfail. left. exact Hfile.
Defined.

(** X2 at [world_rotation]: a string is saved and [True] is returned; the
    number 5 is written as ["5"] and [False] is returned. *)
Lemma X2_witness :
  fst (update_env_file REFRESH_TOKEN_KEY (JStr "refresh-1") world_rotation) = Return true /\
  os_environ (snd (update_env_file REFRESH_TOKEN_KEY (JStr "refresh-1") world_rotation))
    = [(REFRESH_TOKEN_KEY, "refresh-1")] /\
  update_env_file REFRESH_TOKEN_KEY (JNum 5) world_rotation
    = (Return false,
       with_env_file (env_text_after REFRESH_TOKEN_KEY (JNum 5) env_text) world_rotation) /\
  env_text_after REFRESH_TOKEN_KEY (JNum 5) env_text
    = "SPOTIFY_CLIENT_ID=abc" ++ String newline
        ("SPOTIFY_REFRESH_TOKEN=5" ++ String newline EmptyString).
Proof.
  assert (Htrue : fst (update_env_file REFRESH_TOKEN_KEY (JStr "refresh-1") world_rotation)
                  = Return true) by reflexivity.
  destruct (X2_update_env_file_true_means_saved REFRESH_TOKEN_KEY (JStr "refresh-1")
              world_rotation) as [Hsaved _].
  destruct (Hsaved Htrue) as (s & text & Hs & _ & _ & _ & _ & _ & Henv).
  injection Hs as <-.
  destruct (X2_update_env_file_true_means_saved REFRESH_TOKEN_KEY (JNum 5)
              world_rotation) as [_ Hnumber].
  split; [exact Htrue|]. split; [exact Henv|]. split; [|reflexivity].
  apply Hnumber; try reflexivity. intros s Hs. discriminate.
Defined.

(** X3 at [world_crlf]: the file has CR LF line breaks; the second line, as
    it is read, is the entry; the first line stays, and the file is written
    with LF. *)
Lemma X3_witness :
  readlines (universal_newlines env_text_crlf) =
    ["SPOTIFY_CLIENT_ID=abc" ++ String newline EmptyString;
     "SPOTIFY_REFRESH_TOKEN=refresh-0" ++ String newline EmptyString] /\
  env_file (snd (update_env_file REFRESH_TOKEN_KEY (JStr "refresh-1") world_crlf)) =
    Some ("SPOTIFY_CLIENT_ID=abc" ++ String newline
            ("SPOTIFY_REFRESH_TOKEN=refresh-1" ++ String newline EmptyString)).
Proof.
  assert (Hlines : readlines (universal_newlines env_text_crlf) =
            ["SPOTIFY_CLIENT_ID=abc" ++ String newline EmptyString;
             "SPOTIFY_REFRESH_TOKEN=refresh-0" ++ String newline EmptyString])
    by reflexivity.
  split; [exact Hlines|].
  rewrite (X3_update_replaces_first_entry_only REFRESH_TOKEN_KEY (JStr "refresh-1")
             world_crlf env_text_crlf
             ["SPOTIFY_CLIENT_ID=abc" ++ String newline EmptyString]
             ("SPOTIFY_REFRESH_TOKEN=refresh-0" ++ String newline EmptyString) []);
    try reflexivity; exact Hlines.
Defined.

(** X4 at [world_unterminated]: the entry lands on the last line. *)
Lemma X4_witness :
  env_entry REFRESH_TOKEN_KEY "SPOTIFY_CLIENT_ID=abc" = None /\
  env_file (snd (update_env_file REFRESH_TOKEN_KEY (JStr "refresh-1") world_unterminated)) =
    Some ("SPOTIFY_CLIENT_ID=abcSPOTIFY_REFRESH_TOKEN=refresh-1"
          ++ String newline EmptyString).
Proof.
  assert (Hnone : env_entry REFRESH_TOKEN_KEY "SPOTIFY_CLIENT_ID=abc" = None)
    by reflexivity.
  split; [exact Hnone|].
  rewrite (X4_update_appends_missing_entry REFRESH_TOKEN_KEY (JStr "refresh-1")
             world_unterminated "SPOTIFY_CLIENT_ID=abc");
    try reflexivity; exact Hnone.
Defined.

(** X5 at [world_cr]: the first line of the file ends with a lone CR; the
    entry of [GITHUB_TOKEN], on the second line as the file is read, stays
    when the refresh token is added. *)
Lemma X5_witness :
  env_entry "GITHUB_TOKEN" env_text_cr
    = Some ("GITHUB_TOKEN=ghp" ++ String newline EmptyString) /\
  exists text',
    env_file (snd (update_env_file REFRESH_TOKEN_KEY (JStr "refresh-1") world_cr))
      = Some text' /\
    env_entry "GITHUB_TOKEN" text'
      = Some ("GITHUB_TOKEN=ghp" ++ String newline EmptyString).
Proof.
  split; [reflexivity|].
  destruct (X5_update_keeps_other_entries REFRESH_TOKEN_KEY "GITHUB_TOKEN"
              (JStr "refresh-1") world_cr env_text_cr)
    as (text' & Hfile & Hentry); try reflexivity.
  - discriminate.
  - left. reflexivity.
  - exists text'. split; [exact Hfile|]. rewrite Hentry. reflexivity.
Defined.

(** X6 at [world_rotation]. *)
Lemma X6_witness :
  let w1 := snd (update_env_file REFRESH_TOKEN_KEY (JStr "refresh-1") world_rotation) in
  single_line (REFRESH_TOKEN_KEY ++ "=" ++ "refresh-1") = true /\
  terminated (universal_newlines env_text) = true /\
  env_file (snd (update_env_file REFRESH_TOKEN_KEY (JStr "refresh-1") w1)) = env_file w1.
Proof.
  intros w1. split; [reflexivity|]. split; [reflexivity|].
  apply (X6_update_is_idempotent REFRESH_TOKEN_KEY (JStr "refresh-1")
           world_rotation env_text); try reflexivity.
  left. reflexivity.
Defined.

(** X8 at [world_unauthorized]. *)
Lemma X8_witness :
  unauthorized (player_endpoint world_unauthorized (player_requests world_unauthorized)) /\
  fst (get_current_playing (example_config true) (JStr "access-1") world_unauthorized)
    = Return TOKEN_EXPIRED.
Proof.
  assert (H401 : unauthorized (player_endpoint world_unauthorized
                                 (player_requests world_unauthorized)))
    by (exists None; reflexivity).
  split; [exact H401|].
  apply (proj2 (X8_token_expired_only_on_401 (example_config true) (JStr "access-1")
                  world_unauthorized)).
  exact H401.
Defined.

(** X9 at [world_playing]: read at 0, the track expires at 30 seconds. *)
Lemma X9_witness :
  fst (get_current_playing (example_config true) (JStr "access-1") world_playing)
    = Return (Track "> Song by A, B" 30000000) /\
  clock world_playing (clock_reads world_playing) <= 30000000.
Proof.
  assert (Htrack : fst (get_current_playing (example_config true) (JStr "access-1")
                          world_playing)
                   = Return (Track "> Song by A, B" 30000000))
    by (reflexivity).
  split; [exact Htrack|].
  exact (proj1 (X9_track_never_expires_in_the_past (example_config true)
                  (JStr "access-1") world_playing _ _ Htrack)).
Defined.

(** X10 at [world_progress_null]. *)
Lemma X10_witness :
  dict_lookup "progress_ms" progress_null_fields = Some JNull /\
  fst (get_current_playing (example_config true) (JStr "access-1") world_progress_null)
    = Return NoTrack.
Proof.
  split; [reflexivity|].
  apply (X10_null_progress_is_absent (example_config true) (JStr "access-1")
           world_progress_null progress_null_fields JNull); reflexivity.
Defined.

(** X12 at [world_token_down]: a 503 without a body. *)
Lemma X12_witness :
  refresh_access_token world_token_down =
    (Return None, with_token_request (TokenRequest (JStr "refresh-0")) world_token_down).
Proof.
  apply (X12_failed_refresh_changes_nothing world_token_down).
  intros kvs. vm_compute. discriminate.
Defined.

(** X13 at [world_late_failure]. *)
Lemma X13_witness :
  as_int (field_or "expires_in" late_failure_fields (JNum 3600)) = None /\
  fst (refresh_access_token world_late_failure) = Return None /\
  SPOTIFY_REFRESH_TOKEN (snd (refresh_access_token world_late_failure)) = JStr "refresh-1" /\
  env_file (snd (refresh_access_token world_late_failure)) =
    Some ("SPOTIFY_CLIENT_ID=abc" ++ String newline
            ("SPOTIFY_REFRESH_TOKEN=refresh-1" ++ String newline EmptyString)).
Proof.
  assert (Hexp : as_int (field_or "expires_in" late_failure_fields (JNum 3600)) = None)
    by reflexivity.
  destruct (X13_rotation_saved_before_late_failure world_late_failure
              late_failure_fields env_text)
    as (Hnone & Hglobal & Hfile); try reflexivity.
  - left. exact Hexp.
  - split; [exact Hexp|]. split; [exact Hnone|]. split; [exact Hglobal|].
    rewrite Hfile. reflexivity.
Defined.

(** X14 at [world_rotation]: the second request carries ["refresh-1"]. *)
Lemma X14_witness :
  let w1 := snd (refresh_access_token world_rotation) in
  exists rest,
    trace (snd (refresh_access_token w1)) =
      (trace w1 ++ TokenRequest (JStr "refresh-1") :: rest)%list.
Proof.
  intros w1.
  destruct (X14_next_request_carries_rotated_token world_rotation) as [Hrotated _].
  apply (Hrotated [("access_token", JStr "access-1"); ("expires_in", JNum 3600);
                   ("refresh_token", JStr "refresh-1")]); reflexivity.
Defined.

(** X15 at [world_playing]: an answer without ["errors"]. *)
Lemma X15_witness :
  fst (set_github_status (Some "> Song by A, B") (Some 30000000) world_playing)
    = Return true.
Proof.
  destruct (X15_publish_request_and_graphql_errors (Some "> Song by A, B")
              (Some 30000000) world_playing) as (_ & _ & _ & _ & Hresult).
  apply (Hresult [("data", JObj [("changeUserStatus", JObj [])])]); reflexivity.
Defined.

(** X17 at [world_playing]: the first turn publishes the song. *)
Lemma X17_witness :
  let w' := snd (main_step (example_config true) world_playing) in
  last_status (locals w') <> last_status (locals world_playing) /\
  github_accepts (github_endpoint world_playing (github_requests world_playing)) = true /\
  exists e,
    github_calls w' =
      (github_calls world_playing ++ [GithubRequest (last_status (locals w')) e])%list.
Proof.
  intros w'.
  assert (Hchanged : last_status (locals w') <> last_status (locals world_playing))
    by (vm_compute; discriminate).
  split; [exact Hchanged|].
  exact (X17_last_status_follows_accepted_request (example_config true)
           world_playing Hchanged).
Defined.

(** X18 at [world_resume], after the first turn: the song is published and
    the second poll finds nothing. *)
Lemma X18_witness :
  let cfg := example_config true in
  let w := snd (main_step cfg world_resume) in
  last_status (locals w) = Some "> Song by A, B" /\
  trace (snd (main_step cfg w)) =
    (trace w ++ [PlayerRequest (JStr "access-1");
                 GithubRequest None None;
                 Sleep (POLL_INTERVAL cfg)])%list /\
  last_status (locals (snd (main_step cfg w))) = None.
Proof.
  intros cfg w.
  assert (Hlast : last_status (locals w) = Some "> Song by A, B")
    by (reflexivity).
  destruct (X18_idle_turn_clears_status cfg w "> Song by A, B")
    as (_ & Htrace & Hafter); try (reflexivity).
  split; [exact Hlast|]. split; [exact Htrace|].
  rewrite Hafter. reflexivity.
Defined.

(** X19 at [world_unauthorized]: three turns, three tokens, three polls, no
    sleep. *)
Lemma X19_witness :
  let w' := snd (main_loop (example_config true) 3 world_unauthorized) in
  granted_for 3 world_unauthorized /\
  unauthorized_for 3 world_unauthorized /\
  fst (main_loop (example_config true) 3 world_unauthorized) = Return tt /\
  consecutive_failures (locals w') = 0 /\
  token_requests w' = 3%nat /\ player_requests w' = 3%nat /\ sleeps w' = [].
Proof.
  intros w'.
  assert (Hgranted : granted_for 3 world_unauthorized).
  { intros k Hk.
    exists [("access_token", JStr "access-1"); ("token_type", JStr "Bearer");
            ("expires_in", JNum 3600)], 3600.
    destruct k as [|[|[|k]]]; [| | |exfalso; lia]; repeat split. }
  assert (H401 : unauthorized_for 3 world_unauthorized).
  { intros k Hk. exists None.
    destruct k as [|[|[|k]]]; [| | |exfalso; lia]; reflexivity. }
  destruct (X19_persistent_401_never_sleeps (example_config true) 3 world_unauthorized
              eq_refl eq_refl Hgranted H401) as (Hret & Hc & Ht & Hp & _ & Hs).
  split; [exact Hgranted|]. split; [exact H401|]. split; [exact Hret|].
  split; [exact Hc|]. split; [exact Ht|]. split; [exact Hp|exact Hs].
Defined.

(** X20 with a [POLL_INTERVAL] of -1, at [world_playing] after its first
    turn. *)
Lemma X20_witness :
  let w := snd (main_step (example_config true) world_playing) in
  sleep_accepts (POLL_INTERVAL config_negative) = false /\
  needs_refresh w = false /\
  exit_status (fst (main_step config_negative w)) = Some 1.
Proof.
  intros w.
  assert (Hsleep : sleep_accepts (POLL_INTERVAL config_negative) = false) by reflexivity.
  assert (Hfresh : needs_refresh w = false) by (reflexivity).
  split; [exact Hsleep|]. split; [exact Hfresh|].
  apply (X20_rejected_interval_ends_process config_negative w Hsleep Hfresh).
  intros [body H]. vm_compute in H. discriminate.
Defined.

(** X21 at [world_token_down]: six turns are asked for, the fifth exits. *)
Lemma X21_witness :
  exit_status (fst (main_loop (example_config true) 6 world_token_down)) = Some 1 /\
  consecutive_failures (locals (snd (main_loop (example_config true) 6 world_token_down)))
    = max_failures.
Proof.
  assert (Hexit : exit_status (fst (main_loop (example_config true) 6 world_token_down))
                  = Some 1) by (reflexivity).
  split; [exact Hexit|].
  destruct (X21_exit_status_is_one (example_config true) 6 world_token_down)
    as (_ & Hrange & _); [unfold max_failures; cbn; lia|].
  reflexivity.
Defined.


(** X24: the GitHub token is the empty string. *)
Lemma X24_witness :
  unset (GITHUB_TOKEN settings_without_github) = true /\
  script settings_without_github (example_config true) 3 world_playing
    = (Raise (SystemExit 1), world_playing).
Proof.
  split; [reflexivity|].
  destruct (X24_missing_setting_exits_before_the_loop settings_without_github
              (example_config true) 3 world_playing) as [Hmissing _].
  apply Hmissing. right. right. right. reflexivity.
Defined.

(** X25 at [world_rotation_no_file]. *)
Lemma X25_witness :
  env_file world_rotation_no_file = None /\
  fst (save_refresh_token (JStr "refresh-1") world_rotation_no_file) = Return true /\
  env_file (snd (save_refresh_token (JStr "refresh-1") world_rotation_no_file))
    = Some ("SPOTIFY_REFRESH_TOKEN=refresh-1" ++ String newline EmptyString) /\
  update_env_file REFRESH_TOKEN_KEY (JStr "refresh-1") world_rotation_no_file
    = (Return false, world_rotation_no_file).
Proof.
  split; [reflexivity|].
  destruct (X25_setup_creates_the_file_the_loop_does_not (JStr "refresh-1")
              world_rotation_no_file) as [_ Hmissing].
  destruct Hmissing as (Hdone & Hfile & Hloop); try reflexivity.
  split; [exact Hdone|]. split; [exact Hfile|exact Hloop].
Defined.

(** X26 at [world_rotation_no_file]. *)
Lemma X26_witness :
  let w1 := snd (save_refresh_token (JStr "refresh-1") world_rotation_no_file) in
  single_line "refresh-1" = true /\
  env_file (snd (update_env_file REFRESH_TOKEN_KEY (JStr "refresh-2") w1))
    = Some ("SPOTIFY_REFRESH_TOKEN=refresh-2" ++ String newline EmptyString).
Proof.
  intros w1. split; [reflexivity|].
  apply (X26_rotation_after_setup_replaces_the_line "refresh-1" "refresh-2"
           world_rotation_no_file); reflexivity.
Defined.

(** X27 at [world_endless]: a track of 10^18 milliseconds has no expiry that
    [datetime] can hold, and [get_current_playing] returns [None]. *)
Lemma X27_witness :
  representable (clock world_endless (clock_reads world_endless))
                (Z.max (1000000000000000000 - 0) 0 * 1000) = false /\
  fst (get_current_playing (example_config true) (JStr "access-1") world_endless)
    = Return NoTrack.
Proof.
  assert (Hanswer : player_endpoint world_endless (player_requests world_endless)
                    = ok_response (JObj endless_fields)) by reflexivity.
  assert (Hitem : active_item endless_fields "Song" ["A"] 0 1000000000000000000).
  { exists [("name", JStr "Song");
            ("artists", JArr [JObj [("name", JStr "A")]]);
            ("duration_ms", JNum 1000000000000000000)],
           [JObj [("name", JStr "A")]], (JBool true).
    repeat split; try reflexivity.
    - repeat constructor; eexists; split; reflexivity.
    - left; reflexivity.
    - left; reflexivity. }
  assert (Hrange : representable (clock world_endless (clock_reads world_endless))
                     (Z.max (1000000000000000000 - 0) 0 * 1000) = false)
    by reflexivity.
  split; [exact Hrange|].
  rewrite (X27_unrepresentable_expiry_is_absent (example_config true) (JStr "access-1")
             world_endless endless_fields "Song" ["A"] 0 1000000000000000000
             Hanswer Hitem Hrange).
  reflexivity.
Defined.

(** X28 at [world_far_future]: a token that expires in 10^15 seconds. *)
Lemma X28_witness :
  representable (clock world_far_future (clock_reads world_far_future))
                (1000000000000000 * 1000000) = false /\
  fst (refresh_access_token world_far_future) = Return None.
Proof.
  assert (Hrange : representable (clock world_far_future (clock_reads world_far_future))
                     (1000000000000000 * 1000000) = false) by reflexivity.
  split; [exact Hrange|].
  exact (proj1 (X28_unrepresentable_expires_in_fails_the_refresh world_far_future
                  far_future_fields 1000000000000000 eq_refl eq_refl Hrange)).
Defined.

(** X29 at [world_disk_full]: the write stops after 30 characters; the file
    has lost the entry of the refresh token. *)
Lemma X29_witness :
  env_write_cut world_disk_full = Some 30%nat /\
  fst (update_env_file REFRESH_TOKEN_KEY (JStr "refresh-1") world_disk_full)
    = Return false /\
  env_file (snd (update_env_file REFRESH_TOKEN_KEY (JStr "refresh-1") world_disk_full))
    = Some ("SPOTIFY_CLIENT_ID=abc" ++ String newline "SPOTIFY_") /\
  os_environ (snd (update_env_file REFRESH_TOKEN_KEY (JStr "refresh-1") world_disk_full))
    = [].
Proof.
  split; [reflexivity|].
  rewrite (X29_cut_write_leaves_a_prefix REFRESH_TOKEN_KEY (JStr "refresh-1")
             world_disk_full env_text 30 eq_refl eq_refl eq_refl eq_refl).
  repeat split.
Defined.
